(** * Real-time chat relay: handler, presence, persistence and dispatcher

    A shallow embedding of the backend of the chat application:

    - [Js]       the few JavaScript primitives the sources rely on
                 (truthiness of strings, [includes], [toLowerCase],
                 thrown values, settled promises);
    - [Context]  services/context.ts, [analyzeQueryIntent];
    - [Message]  services/message.ts, the persistence functions over the
                 Prisma store;
    - [Redis]    services/redis.ts, the presence set and the backbone;
    - [Handler]  socket/handler.ts, the per-connection event handlers;
    - [Ollama]   services/ollama.ts, the admission-controlled dispatcher.

    Every handler is modelled as one atomic transition: the state it is
    given is the state at the moment the event is taken from the loop and the
    state it returns is the state once all its awaited calls have settled.
    Where a property depends on what happens between two awaited calls,
    these are steps of their own ([Message.advance], [Ollama.step]);
    [Handler.run] is the run of the process, which ends with the first
    handler that is rejected. *)

From Stdlib Require Import ZArith Ascii String.
From stdpp Require Import base list gmap strings pretty.

Local Open Scope string_scope.
Local Open Scope list_scope.
Local Open Scope nat_scope.

(** ** JavaScript primitives *)

Module Js.

(** A value caught by [catch (error)]: an [Error] object with its message,
    or some other thrown value. *)
Inductive error : Type :=
| ErrorObj (message : string)
| NonError.

(** Outcome of a call that may throw. *)
Inductive result (A : Type) : Type :=
| Ok (a : A)
| Throw (e : error).
Arguments Ok {A} a.
Arguments Throw {A} e.

(** A settled promise. *)
Inductive promise (A : Type) : Type :=
| Resolved (a : A)
| Rejected (e : error).
Arguments Resolved {A} a.
Arguments Rejected {A} e.

(** [!!s] for a string: only the empty string is falsy. *)
Definition truthy (s : string) : bool :=
  match s with
  | EmptyString => false
  | String _ _ => true
  end.

(** [!!v] for [string | undefined]. *)
Definition truthy_opt (v : option string) : bool :=
  match v with
  | Some s => truthy s
  | None => false
  end.

(** [s.includes(pat)]. *)
Fixpoint includes (s pat : string) : bool :=
  String.prefix pat s ||
  match s with
  | EmptyString => false
  | String _ s' => includes s' pat
  end.

Definition lower_ascii (c : ascii) : ascii :=
  let n := nat_of_ascii c in
  if (65 <=? n)%nat && (n <=? 90)%nat then ascii_of_nat (n + 32) else c.

(** [s.toLowerCase()] on the ASCII range. *)
Fixpoint toLowerCase (s : string) : string :=
  match s with
  | EmptyString => EmptyString
  | String c s' => String (lower_ascii c) (toLowerCase s')
  end.

Definition nl : string := String (ascii_of_nat 10) EmptyString.

End Js.

(** ** services/context.ts *)

Module Context.
Import Js.

Inductive query_type : Type := Project | Task | Profile | General.

Record intent : Type := {
  isDataQuery : bool;
  queryType : query_type;
  keywords : list string;
}.

Definition projectKeywords : list string :=
  ["project"; "projects"; "status"; "deadline"; "progress"; "budget"].
Definition taskKeywords : list string :=
  ["task"; "tasks"; "todo"; "to-do"; "assigned"; "pending"; "completed"].
Definition profileKeywords : list string :=
  ["my profile"; "my info"; "my account"; "my details"; "who am i"].

Definition analyzeQueryIntent (query : string) : intent :=
  let lowerQuery := toLowerCase query in
  let hasProjectKeyword := existsb (includes lowerQuery) projectKeywords in
  let hasTaskKeyword := existsb (includes lowerQuery) taskKeywords in
  let hasProfileKeyword := existsb (includes lowerQuery) profileKeywords in
  {| isDataQuery :=
       hasProjectKeyword || hasTaskKeyword || hasProfileKeyword ||
       includes lowerQuery "my " || includes lowerQuery "what is my";
     queryType :=
       if hasProjectKeyword then Project
       else if hasTaskKeyword then Task
       else if hasProfileKeyword then Profile
       else General;
     keywords :=
       List.filter (includes lowerQuery)
                   (projectKeywords ++ taskKeywords ++ profileKeywords) |}.

End Context.

(** ** The Prisma store

    The handlers and services reach the database through the Prisma client;
    the schema that declares its tables is not among the sources. *)

Module Prisma.
Import Js.

(** Modelled from the spec: the schema of the [User] table is missing.  The
    spec's Identity is a durable entity with a userId and a username, on
    which [isOnline] and [lastSeen] are persisted; the sources also select
    its [avatar].  Rows are keyed by their id in [users] below. *)
Record User : Type := {
  user_username : string;
  user_avatar : option string;
  user_isOnline : bool;
  user_lastSeen : Z;
}.

(** Modelled from the spec: the schema of the [Message] table is missing.  A
    message holds, in the spec's words, content, sender id, conversation id
    and creation timestamp (here in milliseconds); the sender's display
    fields are joined in when a row is read. *)
Record Message : Type := {
  msg_id : string;
  msg_content : string;
  msg_senderId : string;
  msg_conversationId : string;
  msg_createdAt : Z;
}.

(** Modelled from the spec: the schema of the [Conversation] table and of
    its participants is missing.  A conversation is a group or a direct
    one and has the user ids of its participants. *)
Record Conversation : Type := {
  conv_id : string;
  conv_isGroup : bool;
  conv_participants : list string;
}.

(** Modelled from the spec: the store as a whole.  Tables keep their rows
    in the order of creation.  An id generated for a new row is rendered
    from the number of rows already in its table.  The relations that the
    sources navigate ([sender], [participants.user], [messages]) are taken
    as required: the store refuses a row that refers to a missing user or
    conversation, and an [update] of a missing row throws. *)
Record store : Type := {
  users : gmap string User;
  messages : list Message;
  conversations : list Conversation;
}.

Definition empty : store :=
  {| users := ∅; messages := []; conversations := [] |}.

Definition recordNotFound : error := ErrorObj "Record to update not found.".
Definition foreignKeyFailed : error := ErrorObj "Foreign key constraint failed".

Definition hasConversation (db : store) (conversationId : string) : bool :=
  existsb (fun c => String.eqb (conv_id c) conversationId) (conversations db).

(** [prisma.user.update({ where: { id }, data: { isOnline, lastSeen } })]. *)
Definition user_update (id : string) (isOnline : bool) (lastSeen : Z)
    (db : store) : result store :=
  match users db !! id with
  | None => Throw recordNotFound
  | Some u =>
      Ok {| users :=
              <[id := {| user_username := user_username u;
                         user_avatar := user_avatar u;
                         user_isOnline := isOnline;
                         user_lastSeen := lastSeen |}]> (users db);
            messages := messages db;
            conversations := conversations db |}
  end.

(** [orderBy: { createdAt: 'desc' }]: insertion of a row into a list that
    is already ordered newest first.  The store leaves the order of rows
    with equal [createdAt] open; here they keep their table order. *)
Fixpoint insert_desc (m : Message) (l : list Message) : list Message :=
  match l with
  | [] => [m]
  | m' :: l' =>
      if (msg_createdAt m <? msg_createdAt m')%Z
      then m' :: insert_desc m l'
      else m :: l
  end.

Definition orderBy_createdAt_desc (l : list Message) : list Message :=
  foldr insert_desc [] l.

(** [cursor: { id: cursor }, skip: 1]: the rows that follow the cursor row
    in the ordered result; none when the cursor row is not in it. *)
Fixpoint after_cursor (cursor : string) (l : list Message) : list Message :=
  match l with
  | [] => []
  | m :: l' =>
      if String.eqb (msg_id m) cursor then l' else after_cursor cursor l'
  end.

End Prisma.

(** ** services/message.ts *)

Module Message.
Import Js Prisma.

Record CreateMessageInput : Type := {
  in_content : string;
  in_senderId : string;
  in_conversationId : string;
}.

Record Sender : Type := {
  sender_id : string;
  sender_username : string;
  sender_avatar : option string;
}.

Record MessageWithSender : Type := {
  mws_id : string;
  mws_content : string;
  mws_senderId : string;
  mws_conversationId : string;
  mws_createdAt : Z;
  mws_sender : Sender;
}.

(** [include: { sender: { select: { id, username, avatar } } }].  The
    sender of a stored message always has a row; [None] stands for a join
    that finds none. *)
Definition with_sender (db : store) (m : Message) : option MessageWithSender :=
  match users db !! msg_senderId m with
  | None => None
  | Some u =>
      Some {| mws_id := msg_id m;
              mws_content := msg_content m;
              mws_senderId := msg_senderId m;
              mws_conversationId := msg_conversationId m;
              mws_createdAt := msg_createdAt m;
              mws_sender :=
                {| sender_id := msg_senderId m;
                   sender_username := user_username u;
                   sender_avatar := user_avatar u |} |}
  end.

Definition createMessage (input : CreateMessageInput) (now : Z) (db : store)
    : result (MessageWithSender * store) :=
  let row :=
    {| msg_id := "msg-" +:+ pretty (length (messages db));
       msg_content := in_content input;
       msg_senderId := in_senderId input;
       msg_conversationId := in_conversationId input;
       msg_createdAt := now |} in
  if hasConversation db (in_conversationId input) then
    match with_sender db row with
    | None => Throw foreignKeyFailed
    | Some message =>
        Ok (message,
            {| users := users db;
               messages := messages db ++ [row];
               conversations := conversations db |})
    end
  else Throw foreignKeyFailed.

Definition DEFAULT_LIMIT : nat := 50.

(** [getConversationMessages(conversationId, limit = 50, cursor?)].  An
    absent or empty [cursor] adds nothing to the query. *)
Definition getConversationMessages (conversationId : string) (limit : nat)
    (cursor : option string) (db : store) : list MessageWithSender :=
  let ordered :=
    orderBy_createdAt_desc
      (filter (λ m, msg_conversationId m = conversationId) (messages db)) in
  let from_cursor :=
    match cursor with
    | Some c => if truthy c then after_cursor c ordered else ordered
    | None => ordered
    end in
  reverse (omap (with_sender db) (take limit from_cursor)).

(** The [where] clause of the [findFirst] of
    [getOrCreateDirectConversation]. *)
Definition is_direct (userId1 userId2 : string) (c : Conversation) : bool :=
  negb (conv_isGroup c)
  && existsb (String.eqb userId1) (conv_participants c)
  && existsb (String.eqb userId2) (conv_participants c).

(** The row that [prisma.conversation.create] inserts. *)
Definition created (userId1 userId2 : string) (db : store) : Conversation :=
  {| conv_id := "conv-" +:+ pretty (length (conversations db));
     conv_isGroup := false;
     conv_participants := [userId1; userId2] |}.

Definition getOrCreateDirectConversation (userId1 userId2 : string)
    (db : store) : result (string * store) :=
  match List.find (is_direct userId1 userId2) (conversations db) with
  | Some existing => Ok (conv_id existing, db)
  | None =>
      match users db !! userId1, users db !! userId2 with
      | Some _, Some _ =>
          let conversation := created userId1 userId2 db in
          Ok (conv_id conversation,
              {| users := users db;
                 messages := messages db;
                 conversations := conversations db ++ [conversation] |})
      | _, _ => Throw foreignKeyFailed
      end
  end.

(** [getOrCreateDirectConversation] above is one call that runs alone.
    The function awaits [findFirst] and, when that finds nothing, awaits
    [create]; it opens no transaction and the sources declare no unique
    key for the pair, so the store operations of another call can complete
    between the two.  A call in progress is at one of its two awaited
    operations, or it has settled. *)
Inductive stage : Type :=
| AtFindFirst
| AtCreate
| Settled (p : promise string).

Record direct_call : Type := {
  dc_userId1 : string;
  dc_userId2 : string;
  dc_at : stage;
}.

Definition called (userId1 userId2 : string) : direct_call :=
  {| dc_userId1 := userId1; dc_userId2 := userId2; dc_at := AtFindFirst |}.

(** The awaited store operation of a call completes, and the call goes on
    to its next [await] or to its [return]. *)
Definition advance (c : direct_call) (db : store) : direct_call * store :=
  let at_stage st :=
    {| dc_userId1 := dc_userId1 c; dc_userId2 := dc_userId2 c;
       dc_at := st |} in
  match dc_at c with
  | AtFindFirst =>
      match List.find (is_direct (dc_userId1 c) (dc_userId2 c))
                      (conversations db) with
      | Some existing => (at_stage (Settled (Resolved (conv_id existing))), db)
      | None => (at_stage AtCreate, db)
      end
  | AtCreate =>
      match users db !! dc_userId1 c, users db !! dc_userId2 c with
      | Some _, Some _ =>
          let conversation := created (dc_userId1 c) (dc_userId2 c) db in
          (at_stage (Settled (Resolved (conv_id conversation))),
           {| users := users db;
              messages := messages db;
              conversations := conversations db ++ [conversation] |})
      | _, _ => (at_stage (Settled (Rejected foreignKeyFailed)), db)
      end
  | Settled _ => (c, db)
  end.

(** Two calls in progress on one store.  [schedule] lists whose awaited
    operation completes next: [true] for the first call, [false] for the
    second. *)
Fixpoint interleave (schedule : list bool) (a b : direct_call) (db : store)
    : direct_call * direct_call * store :=
  match schedule with
  | [] => (a, b, db)
  | true :: rest =>
      let (a', db') := advance a db in interleave rest a' b db'
  | false :: rest =>
      let (b', db') := advance b db in interleave rest a b' db'
  end.

End Message.

(** ** services/redis.ts *)

Module Redis.

Inductive channel : Type := NEW_MESSAGE | USER_ONLINE | USER_OFFLINE | TYPING.

(** The objects handed to [publishMessage], before [JSON.stringify]. *)
Inductive payload : Type :=
| MessagePayload (conversationId : string) (message : Message.MessageWithSender)
| UserPayload (userId : string).

(** The shared Redis instance: the set [online_users], the keys
    [user:<id>:last_seen], and what was published on the backbone, oldest
    first. *)
Record state : Type := {
  online_users : gset string;
  last_seen : gmap string Z;
  published : list (channel * payload);
}.

Definition empty : state :=
  {| online_users := ∅; last_seen := ∅; published := [] |}.

Definition publishMessage (ch : channel) (data : payload) (r : state) : state :=
  {| online_users := online_users r;
     last_seen := last_seen r;
     published := published r ++ [(ch, data)] |}.

Definition setUserOnline (userId : string) (now : Z) (r : state) : state :=
  {| online_users := {[userId]} ∪ online_users r;
     last_seen := <[userId := now]> (last_seen r);
     published := published r |}.

Definition setUserOffline (userId : string) (now : Z) (r : state) : state :=
  {| online_users := online_users r ∖ {[userId]};
     last_seen := <[userId := now]> (last_seen r);
     published := published r |}.

Definition getOnlineUsers (r : state) : list string :=
  elements (online_users r).

End Redis.

(** ** socket/handler.ts *)

Module Handler.
Import Js.

(** [UserSocket]: the socket id, the two optional fields the handlers
    assign, and the conversation rooms the socket has joined. *)
Record socket : Type := {
  socket_id : string;
  userId : option string;
  username : option string;
  rooms : gset string;
}.

Definition fresh (id : string) : socket :=
  {| socket_id := id; userId := None; username := None; rooms := ∅ |}.

Record world : Type := {
  db : Prisma.store;
  redis : Redis.state;
}.

(** Events sent to clients. *)
Inductive outbound : Type :=
| online_users (userIds : list string)
| message_history (conversationId : string)
                  (messages : list Message.MessageWithSender)
| new_message (message : Message.MessageWithSender)
| user_online (userId : string)
| user_offline (userId : string)
| user_typing (userId username : option string) (isTyping : bool)
| conversation_started (conversationId : string).

(** [socket.emit], [socket.to(room).emit], [io.to(room).emit], [io.emit]. *)
Inductive emission : Type :=
| ToSelf (e : outbound)
| ToRoomExceptSelf (room : string) (e : outbound)
| ToRoom (room : string) (e : outbound)
| ToAll (e : outbound).

(** How a handler ended: it ran to its end, or an awaited call threw and
    the rest of its body was skipped. *)
Inductive outcome : Type :=
| Returned
| Threw (e : error).

Record reaction : Type := {
  r_socket : socket;
  r_world : world;
  r_emitted : list emission;
  r_outcome : outcome;
}.

Definition dropped (sk : socket) (w : world) : reaction :=
  {| r_socket := sk; r_world := w; r_emitted := []; r_outcome := Returned |}.

(** The subscriber callback: what an instance re-emits for an envelope
    read from the backbone. *)
Definition onBackboneMessage (ch : Redis.channel) (data : Redis.payload)
    : list emission :=
  match ch, data with
  | Redis.NEW_MESSAGE, Redis.MessagePayload conversationId message =>
      [ToRoom conversationId (new_message message)]
  | Redis.USER_ONLINE, Redis.UserPayload u => [ToAll (user_online u)]
  | Redis.USER_OFFLINE, Redis.UserPayload u => [ToAll (user_offline u)]
  | _, _ => []
  end.

Definition authenticate (data_userId data_username : string) (now : Z)
    (sk : socket) (w : world) : reaction :=
  let sk' :=
    {| socket_id := socket_id sk;
       userId := Some data_userId;
       username := Some data_username;
       rooms := rooms sk |} in
  match Prisma.user_update data_userId true now (db w) with
  | Throw e =>
      {| r_socket := sk'; r_world := w; r_emitted := []; r_outcome := Threw e |}
  | Ok db' =>
      let r1 := Redis.setUserOnline data_userId now (redis w) in
      let r2 :=
        Redis.publishMessage Redis.USER_ONLINE (Redis.UserPayload data_userId) r1 in
      let onlineUsers := Redis.getOnlineUsers r2 in
      {| r_socket := sk';
         r_world := {| db := db'; redis := r2 |};
         r_emitted := [ToSelf (online_users onlineUsers)];
         r_outcome := Returned |}
  end.

Definition join_conversation (conversationId : string)
    (sk : socket) (w : world) : reaction :=
  let sk' :=
    {| socket_id := socket_id sk;
       userId := userId sk;
       username := username sk;
       rooms := {[conversationId]} ∪ rooms sk |} in
  let messages :=
    Message.getConversationMessages conversationId Message.DEFAULT_LIMIT None
      (db w) in
  {| r_socket := sk'; r_world := w;
     r_emitted := [ToSelf (message_history conversationId messages)];
     r_outcome := Returned |}.

Definition leave_conversation (conversationId : string)
    (sk : socket) (w : world) : reaction :=
  {| r_socket :=
       {| socket_id := socket_id sk;
          userId := userId sk;
          username := username sk;
          rooms := rooms sk ∖ {[conversationId]} |};
     r_world := w; r_emitted := []; r_outcome := Returned |}.

Definition send_message (data_conversationId data_content : string)
    (now : Z) (sk : socket) (w : world) : reaction :=
  match userId sk with
  | Some uid =>
      if truthy uid then
        match Message.createMessage
                {| Message.in_content := data_content;
                   Message.in_senderId := uid;
                   Message.in_conversationId := data_conversationId |}
                now (db w) with
        | Throw e =>
            {| r_socket := sk; r_world := w; r_emitted := [];
               r_outcome := Threw e |}
        | Ok (message, db') =>
            {| r_socket := sk;
               r_world :=
                 {| db := db';
                    redis :=
                      Redis.publishMessage Redis.NEW_MESSAGE
                        (Redis.MessagePayload data_conversationId message)
                        (redis w) |};
               r_emitted := []; r_outcome := Returned |}
        end
      else dropped sk w
  | None => dropped sk w
  end.

Definition typing (data_conversationId : string) (data_isTyping : bool)
    (sk : socket) (w : world) : reaction :=
  {| r_socket := sk; r_world := w;
     r_emitted :=
       [ToRoomExceptSelf data_conversationId
          (user_typing (userId sk) (username sk) data_isTyping)];
     r_outcome := Returned |}.

Definition start_direct (targetUserId : string)
    (sk : socket) (w : world) : reaction :=
  match userId sk with
  | Some uid =>
      if truthy uid then
        match Message.getOrCreateDirectConversation uid targetUserId (db w) with
        | Throw e =>
            {| r_socket := sk; r_world := w; r_emitted := [];
               r_outcome := Threw e |}
        | Ok (conversationId, db') =>
            {| r_socket := sk;
               r_world := {| db := db'; redis := redis w |};
               r_emitted := [ToSelf (conversation_started conversationId)];
               r_outcome := Returned |}
        end
      else dropped sk w
  | None => dropped sk w
  end.

Definition disconnect (now : Z) (sk : socket) (w : world) : reaction :=
  match userId sk with
  | Some uid =>
      if truthy uid then
        match Prisma.user_update uid false now (db w) with
        | Throw e =>
            {| r_socket := sk; r_world := w; r_emitted := [];
               r_outcome := Threw e |}
        | Ok db' =>
            let r1 := Redis.setUserOffline uid now (redis w) in
            let r2 :=
              Redis.publishMessage Redis.USER_OFFLINE (Redis.UserPayload uid) r1 in
            {| r_socket := sk;
               r_world := {| db := db'; redis := r2 |};
               r_emitted := []; r_outcome := Returned |}
        end
      else dropped sk w
  | None => dropped sk w
  end.

(** Inbound events of the client protocol. *)
Inductive inbound : Type :=
| Authenticate (userId username : string)
| JoinConversation (conversationId : string)
| LeaveConversation (conversationId : string)
| SendMessage (conversationId content : string)
| Typing (conversationId : string) (isTyping : bool)
| StartDirect (targetUserId : string)
| Disconnect.

Definition handle (ev : inbound) (now : Z) (sk : socket) (w : world)
    : reaction :=
  match ev with
  | Authenticate u n => authenticate u n now sk w
  | JoinConversation c => join_conversation c sk w
  | LeaveConversation c => leave_conversation c sk w
  | SendMessage c content => send_message c content now sk w
  | Typing c b => typing c b sk w
  | StartDirect t => start_direct t sk w
  | Disconnect => disconnect now sk w
  end.

(** One server instance: its live connections by socket id, the shared
    world, every emission so far with the socket that caused it, and the
    handlers that ended in an exception. *)
Record server : Type := {
  connections : gmap string socket;
  shared : world;
  emitted : list (string * emission);
  rejections : list (string * error);
}.

Definition boot : server :=
  {| connections := ∅;
     shared := {| db := Prisma.empty; redis := Redis.empty |};
     emitted := [];
     rejections := [] |}.

(** [io.on('connection', ...)]. *)
Definition connect (id : string) (s : server) : server :=
  {| connections := <[id := fresh id]> (connections s);
     shared := shared s;
     emitted := emitted s;
     rejections := rejections s |}.

(** An inbound event on the connection [id].  After [disconnect] the
    socket is gone from the registry. *)
Definition receive (id : string) (ev : inbound) (now : Z) (s : server)
    : server :=
  match connections s !! id with
  | None => s
  | Some sk =>
      let r := handle ev now sk (shared s) in
      {| connections :=
           match ev with
           | Disconnect => delete id (connections s)
           | _ => <[id := r_socket r]> (connections s)
           end;
         shared := r_world r;
         emitted := emitted s ++ (pair id <$> r_emitted r);
         rejections :=
           match r_outcome r with
           | Returned => rejections s
           | Threw e => rejections s ++ [(id, e)]
           end |}
  end.

(** Inbound events taken from the loop one after the other, each with
    the connection it arrived on and the time it is handled. *)
Fixpoint receive_all (evs : list (string * inbound * Z)) (s : server)
    : server :=
  match evs with
  | [] => s
  | (id, ev, now) :: rest => receive_all rest (receive id ev now s)
  end.

(** Nobody awaits the promise that an [async] handler returns, and
    index.ts installs no listener for unhandled rejections (its only
    [process.on] is for SIGINT): with the default policy of the runtime
    the first rejected handler ends the process. *)
Definition running (s : server) : bool :=
  match rejections s with
  | [] => true
  | _ :: _ => false
  end.

(** The events the process handles: one [receive] after the other until a
    handler is rejected, nothing after that.  A run is [receive_all] on
    the events up to the first rejection. *)
Fixpoint run (evs : list (string * inbound * Z)) (s : server) : server :=
  match evs with
  | [] => s
  | (id, ev, now) :: rest =>
      if running s then run rest (receive id ev now s) else s
  end.

Definition is_authenticate_on (id : string) (e : string * inbound * Z) : bool :=
  match e with
  | (id', Authenticate _ _, _) => String.eqb id' id
  | _ => false
  end.

(** The connection [id], if it is still open, has no identity. *)
Definition unbound (id : string) (s : server) : Prop :=
  ∀ sk, connections s !! id = Some sk → userId sk = None.

(** Messages sent one after the other into one conversation, each with
    the socket it is sent on, its content and the time it is created. *)
Fixpoint send_all (conversationId : string)
    (sends : list (socket * string * Z)) (w : world) : world :=
  match sends with
  | [] => w
  | (sk, content, now) :: rest =>
      send_all conversationId rest
        (r_world (send_message conversationId content now sk w))
  end.

Definition sent_contents (sends : list (socket * string * Z)) : list string :=
  (λ s, s.1.2) <$> sends.

Definition sent_times (sends : list (socket * string * Z)) : list Z :=
  (λ s, s.2) <$> sends.

(** The connection is bound to an identity that passes the handlers'
    guard and names a stored user. *)
Definition authenticated_as (sk : socket) (w : world) (u : string) : Prop :=
  userId sk = Some u ∧ truthy u = true ∧ is_Some (Prisma.users (db w) !! u).

Fixpoint increasing (ts : list Z) : bool :=
  match ts with
  | [] => true
  | t :: rest => forallb (Z.ltb t) rest && increasing rest
  end.

(** At most one direct conversation for every pair of distinct users. *)
Definition unique_direct (d : Prisma.store) : Prop :=
  ∀ a b, a ≠ b →
    (length (List.filter (Message.is_direct a b) (Prisma.conversations d)) ≤ 1)%nat.

End Handler.

(** ** services/ollama.ts *)

Module Ollama.
Import Js.

Definition MAX_CONCURRENT_REQUESTS : Z := 5.

(** [process.env.OLLAMA_MODEL || 'gemma3:1b'], the environment variable
    being a parameter of the model. *)
Definition DEFAULT_MODEL (env_model : option string) : string :=
  match env_model with
  | Some m => if truthy m then m else "gemma3:1b"
  | None => "gemma3:1b"
  end.

Inductive role : Type := User | Assistant | System.

Record ChatMessage : Type := {
  cm_role : role;
  cm_content : string;
}.

Record OllamaResponse : Type := {
  or_model : string;
  or_message_role : string;
  or_message_content : string;
  or_done : bool;
}.

(** What [fetch] hands back: the status line and the outcome of
    [response.json()] read at the [OllamaResponse] type.  A body without
    that shape makes the lines that follow throw inside the same [try]
    block, which is the [Throw] case of [resp_json]. *)
Record response : Type := {
  resp_ok : bool;
  resp_status : N;
  resp_statusText : string;
  resp_json : result OllamaResponse;
}.

(** The outcomes of the awaited collaborator calls of one execution, in
    program order. *)
Record exec_env : Type := {
  env_getUserContext : result string;
  env_getBotChatHistory : result (list ChatMessage);
  env_saveUserMessage : result unit;
  env_fetch : result response;
  env_saveAssistantMessage : result unit;
}.

(** Calls issued to the collaborators, in order. *)
Inductive effect : Type :=
| SaveBotMessage (userId : string) (r : role) (content model : string)
                 (context : option (Context.query_type * list string))
| FetchChat (model : string) (messages : list ChatMessage).

Definition basePrompt : string :=
  "You are SEO Assistant, an AI helper for the SEO Chat app. You are friendly, helpful, and concise.".

Definition systemPrompt (it : Context.intent) (dbContext : string) : string :=
  if Context.isDataQuery it && truthy dbContext then
    basePrompt +:+ nl +:+ nl +:+
    "You have access to the user's data from the database. When they ask about their projects, tasks, or profile, use this information to give accurate answers:"
    +:+ nl +:+ dbContext +:+ nl +:+ nl +:+
    "IMPORTANT: Base your answers on the actual data provided above. Be specific about project names, statuses, deadlines, and task details."
  else
    basePrompt +:+
    " Keep responses short and conversational unless the user asks for detailed information.".

Definition unreachableApology : string :=
  "I'm having trouble connecting to my brain (Ollama). Make sure Ollama is running!".

Definition errorApology (errorMsg : string) : string :=
  "Sorry, I encountered an error: " +:+ errorMsg.

(** [error instanceof Error ? error.message : 'Unknown error']. *)
Definition errorMessage (e : error) : string :=
  match e with
  | ErrorObj m => m
  | NonError => "Unknown error"
  end.

(** The [catch] block of [executeOllamaRequest]. *)
Definition apology (e : error) : string :=
  let errorMsg := errorMessage e in
  if includes errorMsg "ECONNREFUSED" then unreachableApology
  else errorApology errorMsg.

(** Not in the sources: what the built-in [fetch] of the runtime, which
    [executeOllamaRequest] calls, throws when the connection to the
    backend is refused.  It is a [TypeError] whose message is "fetch
    failed"; the ECONNREFUSED code is in its [cause], which the [catch]
    block does not read. *)
Definition fetchFailed : error := ErrorObj "fetch failed".

(** The [try] block of [executeOllamaRequest]. *)
Definition tryFetch (env : exec_env) (it : Context.intent)
    (userId model : string) (messages : list ChatMessage)
    : result string * list effect :=
  let sent := [FetchChat model messages] in
  match env_fetch env with
  | Throw e => (Throw e, sent)
  | Ok resp =>
      if negb (resp_ok resp) then
        (Throw (ErrorObj ("Ollama returned " +:+ pretty (resp_status resp)
                          +:+ ": " +:+ resp_statusText resp)), sent)
      else
        match resp_json resp with
        | Throw e => (Throw e, sent)
        | Ok data =>
            let assistantMessage := or_message_content data in
            let save :=
              SaveBotMessage userId Assistant assistantMessage model
                (if Context.isDataQuery it
                 then Some (Context.queryType it, Context.keywords it)
                 else None) in
            match env_saveAssistantMessage env with
            | Throw e => (Throw e, sent ++ [save])
            | Ok _ => (Ok assistantMessage, sent ++ [save])
            end
        end
  end.

Definition executeOllamaRequest (env : exec_env)
    (userId userMessage model : string) : promise string * list effect :=
  let it := Context.analyzeQueryIntent userMessage in
  match (if Context.isDataQuery it then env_getUserContext env
         else Ok EmptyString) with
  | Throw e => (Rejected e, [])
  | Ok dbContext =>
      match env_getBotChatHistory env with
      | Throw e => (Rejected e, [])
      | Ok history =>
          let saveUser := SaveBotMessage userId User userMessage model None in
          match env_saveUserMessage env with
          | Throw e => (Rejected e, [saveUser])
          | Ok _ =>
              let messages :=
                {| cm_role := System; cm_content := systemPrompt it dbContext |}
                :: history
                ++ [{| cm_role := User; cm_content := userMessage |}] in
              match tryFetch env it userId model messages with
              | (Ok reply, effs) => (Resolved reply, saveUser :: effs)
              | (Throw e, effs) => (Resolved (apology e), saveUser :: effs)
              end
          end
      end
  end.

(** An entry of [requestQueue].  [rq_id] stands for the identity of the
    queue entry (its [resolve]/[reject] pair): the number of the
    submission, counted from 0. *)
Record request : Type := {
  rq_id : nat;
  rq_userId : string;
  rq_userMessage : string;
  rq_model : string;
}.

(** Module state of ollama.ts.  [requestQueue] and [activeRequests] are
    the two variables of the source; [executing] holds the requests whose
    [executeOllamaRequest] call is awaited by a suspended [processQueue]
    frame; [started], [settled] and [submissions] record the history. *)
Record dispatcher : Type := {
  requestQueue : list request;
  activeRequests : Z;
  executing : list request;
  started : list nat;
  settled : list (nat * promise string);
  submissions : nat;
}.

Definition init : dispatcher :=
  {| requestQueue := []; activeRequests := 0; executing := [];
     started := []; settled := []; submissions := 0 |}.

(** One evaluation of the [while] condition of [processQueue] and, when it
    holds, the loop body up to its [await]: the head of the queue is
    shifted, the counter incremented and the request starts executing; the
    frame is then suspended.  When the condition fails the frame ends. *)
Definition processQueue (d : dispatcher) : dispatcher :=
  match requestQueue d with
  | request :: rest =>
      if (activeRequests d <? MAX_CONCURRENT_REQUESTS)%Z then
        {| requestQueue := rest;
           activeRequests := activeRequests d + 1;
           executing := executing d ++ [request];
           started := started d ++ [rq_id request];
           settled := settled d;
           submissions := submissions d |}
      else d
  | [] => d
  end.

(** [requestQueue.push({ resolve, reject, params })]. *)
Definition pushed (entry : request) (d : dispatcher) : dispatcher :=
  {| requestQueue := requestQueue d ++ [entry];
     activeRequests := activeRequests d;
     executing := executing d;
     started := started d;
     settled := settled d;
     submissions := S (submissions d) |}.

(** [chatWithOllama(userId, userMessage, model)]: push, then
    [processQueue()]. *)
Definition chatWithOllama (env_model : option string)
    (userId userMessage : string) (model : option string)
    (d : dispatcher) : dispatcher :=
  processQueue
    (pushed {| rq_id := submissions d; rq_userId := userId;
               rq_userMessage := userMessage;
               rq_model := default (DEFAULT_MODEL env_model) model |} d).

Definition is_request (i : nat) (r : request) : bool :=
  Nat.eqb (rq_id r) i.

(** The awaited execution of request [i] has settled with [o]:
    [request.resolve(result)] or [request.reject(error)], then
    [activeRequests--] of the [finally] block. *)
Definition released (i : nat) (o : promise string) (d : dispatcher)
    : dispatcher :=
  {| requestQueue := requestQueue d;
     activeRequests := activeRequests d - 1;
     executing := filter (λ r, rq_id r ≠ i) (executing d);
     started := started d;
     settled := settled d ++ [(i, o)];
     submissions := submissions d |}.

(** The frame awaiting request [i] is resumed: the request's promise is
    settled with the outcome of [executeOllamaRequest]; the [finally]
    block decrements the counter and calls [processQueue()]; then the
    resumed frame evaluates its own loop condition again. *)
Definition resume (i : nat) (env : exec_env) (d : dispatcher)
    : option dispatcher :=
  match List.find (is_request i) (executing d) with
  | None => None
  | Some request =>
      let outcome :=
        fst (executeOllamaRequest env (rq_userId request)
               (rq_userMessage request) (rq_model request)) in
      Some (processQueue (processQueue (released i outcome d)))
  end.

Inductive event : Type :=
| Submit (userId userMessage : string) (model : option string)
| Settle (i : nat) (env : exec_env).

Definition step (env_model : option string) (d : dispatcher) (e : event)
    : option dispatcher :=
  match e with
  | Submit u m model => Some (chatWithOllama env_model u m model d)
  | Settle i env => resume i env d
  end.

Fixpoint run (env_model : option string) (d : dispatcher)
    (es : list event) : option dispatcher :=
  match es with
  | [] => Some d
  | e :: es' =>
      match step env_model d e with
      | Some d' => run env_model d' es'
      | None => None
      end
  end.

Definition is_settle (e : event) : bool :=
  match e with
  | Settle _ _ => true
  | Submit _ _ _ => false
  end.

Definition settles (es : list event) : nat :=
  length (List.filter is_settle es).

(** The counter agrees with the requests in flight and never passes the
    limit; submissions are started in the order they were made, the
    queue holding the ones not yet started. *)
Record consistent (d : dispatcher) : Prop := {
  cons_count : activeRequests d = Z.of_nat (length (executing d));
  cons_bound : (activeRequests d <= MAX_CONCURRENT_REQUESTS)%Z;
  cons_fifo : started d ++ (rq_id <$> requestQueue d) = seq 0 (submissions d);
  cons_exec : sublist ((rq_id <$> executing d)) (started d);
}.

(** A request waits only while every slot is taken. *)
Definition saturated (d : dispatcher) : Prop :=
  requestQueue d ≠ [] → activeRequests d = MAX_CONCURRENT_REQUESTS.

(** The awaited calls that come before the [try] block all succeed, so
    the execution gets as far as the call to the backend. *)
Definition reaches_fetch (env : exec_env) (userMessage : string) : bool :=
  match (if Context.isDataQuery (Context.analyzeQueryIntent userMessage)
         then env_getUserContext env else Ok EmptyString),
        env_getBotChatHistory env, env_saveUserMessage env with
  | Ok _, Ok _, Ok _ => true
  | _, _, _ => false
  end.

End Ollama.

(** ** A small deployment used in the examples *)

Module Samples.
Import Js Handler.

Definition alice : Prisma.User :=
  {| Prisma.user_username := "Alice"; Prisma.user_avatar := None;
     Prisma.user_isOnline := false; Prisma.user_lastSeen := 0 |}.

Definition bob : Prisma.User :=
  {| Prisma.user_username := "Bob"; Prisma.user_avatar := None;
     Prisma.user_isOnline := false; Prisma.user_lastSeen := 0 |}.

(** Two stored users and their direct conversation, no message yet. *)
Definition store0 : Prisma.store :=
  {| Prisma.users := <["u1" := alice]> (<["u2" := bob]> ∅);
     Prisma.messages := [];
     Prisma.conversations :=
       [{| Prisma.conv_id := "conv-0"; Prisma.conv_isGroup := false;
           Prisma.conv_participants := ["u1"; "u2"] |}] |}.

(** The same users before they have talked to each other. *)
Definition store_users : Prisma.store :=
  {| Prisma.users := <["u1" := alice]> (<["u2" := bob]> ∅);
     Prisma.messages := [];
     Prisma.conversations := [] |}.

Definition world0 : world := {| db := store0; redis := Redis.empty |}.

Definition server0 : server :=
  {| connections := ∅; shared := world0; emitted := []; rejections := [] |}.

Definition alice_socket : socket :=
  {| socket_id := "s1"; userId := Some "u1"; username := Some "Alice";
     rooms := ∅ |}.

(** Contents and creation times of [n] messages sent by Alice. *)
Definition burst (n : nat) : list (socket * string * Z) :=
  (λ i, (alice_socket, "m" +:+ pretty i, Z.of_nat (S i))) <$> seq 0 n.

(** The backend refuses the connection; the store answers. *)
Definition backend_down : Ollama.exec_env :=
  {| Ollama.env_getUserContext := Ok EmptyString;
     Ollama.env_getBotChatHistory := Ok [];
     Ollama.env_saveUserMessage := Ok tt;
     Ollama.env_fetch := Throw Ollama.fetchFailed;
     Ollama.env_saveAssistantMessage := Ok tt |}.

(** The backend answers with a status that is not ok. *)
Definition backend_error : Ollama.exec_env :=
  {| Ollama.env_getUserContext := Ok EmptyString;
     Ollama.env_getBotChatHistory := Ok [];
     Ollama.env_saveUserMessage := Ok tt;
     Ollama.env_fetch :=
       Ok {| Ollama.resp_ok := false; Ollama.resp_status := 500;
             Ollama.resp_statusText := "Internal Server Error";
             Ollama.resp_json := Throw NonError |};
     Ollama.env_saveAssistantMessage := Ok tt |}.

Definition carol : Prisma.User :=
  {| Prisma.user_username := "Carol"; Prisma.user_avatar := None;
     Prisma.user_isOnline := false; Prisma.user_lastSeen := 0 |}.

(** Three stored users.  Alice and Bob are together in a group and Alice
    has a direct conversation with Carol; Alice and Bob have none. *)
Definition store_group : Prisma.store :=
  {| Prisma.users :=
       <["u1" := alice]> (<["u2" := bob]> (<["u3" := carol]> ∅));
     Prisma.messages := [];
     Prisma.conversations :=
       [{| Prisma.conv_id := "conv-0"; Prisma.conv_isGroup := true;
           Prisma.conv_participants := ["u1"; "u2"; "u3"] |};
        {| Prisma.conv_id := "conv-1"; Prisma.conv_isGroup := false;
           Prisma.conv_participants := ["u1"; "u3"] |}] |}.

Definition reply (text : string) : Ollama.exec_env :=
  {| Ollama.env_getUserContext := Ok EmptyString;
     Ollama.env_getBotChatHistory := Ok [];
     Ollama.env_saveUserMessage := Ok tt;
     Ollama.env_fetch :=
       Ok {| Ollama.resp_ok := true; Ollama.resp_status := 200;
             Ollama.resp_statusText := "OK";
             Ollama.resp_json :=
               Ok {| Ollama.or_model := "gemma3:1b";
                     Ollama.or_message_role := "assistant";
                     Ollama.or_message_content := text;
                     Ollama.or_done := true |} |};
     Ollama.env_saveAssistantMessage := Ok tt |}.

Definition queued (i : nat) : Ollama.request :=
  {| Ollama.rq_id := i; Ollama.rq_userId := "u1";
     Ollama.rq_userMessage := "hello"; Ollama.rq_model := "gemma3:1b" |}.

(** Seven submissions, then the first one settles. *)
Definition seven : list Ollama.event :=
  replicate 7 (Ollama.Submit "u1" "hello" None).

Definition after_seven : Ollama.dispatcher :=
  {| Ollama.requestQueue := [queued 5; queued 6];
     Ollama.activeRequests := 5;
     Ollama.executing := queued <$> [0; 1; 2; 3; 4];
     Ollama.started := [0; 1; 2; 3; 4];
     Ollama.settled := [];
     Ollama.submissions := 7 |}.

Definition seven_then_one : list Ollama.event :=
  seven ++ [Ollama.Settle 0 (reply "hi")].

End Samples.

(** ** Rooms and delivery

    Who an emission of socket/handler.ts reaches.  [rooms] holds the rooms
    a socket joined through [join_conversation]; the room that every socket
    has under its own socket id is not part of it, so the rooms below are
    conversation rooms, not socket ids. *)

Module Rooms.
Import Handler.

(** The connections [io.to(room)] reaches. *)
Definition audience (s : server) (room : string) : gset string :=
  dom (filter (λ kv : string * socket, room ∈ rooms kv.2) (connections s)).

(** The connections that an emission made on the socket [from] reaches. *)
Definition recipients (s : server) (from : string) (e : emission) : gset string :=
  match e with
  | ToSelf _ => {[from]}
  | ToRoomExceptSelf room _ => audience s room ∖ {[from]}
  | ToRoom room _ => audience s room
  | ToAll _ => dom (connections s)
  end.

Definition is_join_on (id room : string) (e : string * inbound * Z) : bool :=
  match e with
  | (id', JoinConversation c, _) => String.eqb id' id && String.eqb c room
  | _ => false
  end.

(** The events after which a connection is no longer in a room. *)
Definition is_exit_on (id room : string) (e : string * inbound * Z) : bool :=
  match e with
  | (id', LeaveConversation c, _) => String.eqb id' id && String.eqb c room
  | (id', Disconnect, _) => String.eqb id' id
  | _ => false
  end.

(** What [receive] does to the audience of [room], read off the event. *)
Definition audience_after (id : string) (ev : inbound) (room : string)
    (before : gset string) : gset string :=
  match ev with
  | JoinConversation c =>
      if String.eqb c room then {[id]} ∪ before else before
  | LeaveConversation c =>
      if String.eqb c room then before ∖ {[id]} else before
  | Disconnect => before ∖ {[id]}
  | _ => before
  end.

End Rooms.

(** ** What the handlers keep true of the shared state *)

Module Shared.
Import Handler.

(** The Redis set of online users and the [isOnline] column agree. *)
Definition presence_agrees (w : world) : Prop :=
  ∀ u, u ∈ Redis.online_users (redis w)
       ↔ ∃ row, Prisma.users (db w) !! u = Some row
                ∧ Prisma.user_isOnline row = true.

(** An envelope as the handlers publish them: a message on [new_message],
    for the room of its own conversation, or a user id on one of the two
    presence channels. *)
Definition well_formed (e : Redis.channel * Redis.payload) : bool :=
  match e with
  | (Redis.NEW_MESSAGE, Redis.MessagePayload c m) =>
      String.eqb (Message.mws_conversationId m) c
  | (Redis.USER_ONLINE, Redis.UserPayload _) => true
  | (Redis.USER_OFFLINE, Redis.UserPayload _) => true
  | _ => false
  end.

(** The envelopes published while [evs] are handled. *)
Definition published_during (evs : list (string * inbound * Z)) (s : server)
    : list (Redis.channel * Redis.payload) :=
  drop (length (Redis.published (redis (shared s))))
       (Redis.published (redis (shared (receive_all evs s)))).

(** What a presence envelope does to a set of online users. *)
Definition presence_step (online : gset string)
    (e : Redis.channel * Redis.payload) : gset string :=
  match e with
  | (Redis.USER_ONLINE, Redis.UserPayload u) => {[u]} ∪ online
  | (Redis.USER_OFFLINE, Redis.UserPayload u) => online ∖ {[u]}
  | _ => online
  end.

End Shared.

(** ** The client hook (hooks/useSocket.ts)

    The state the hook keeps with [useState], the conversation it keeps in
    [currentConversationRef], whether [socketRef.current] holds a socket
    (the effect creates it when a user id and a name are given), and the
    events it has sent to the server.  Every [setState(prev => ...)] is
    one step on that state. *)

Module Client.
Import Handler.

Record SocketState : Type := {
  messages : list Message.MessageWithSender;
  onlineUsers : gset string;
  typingUsers : gmap (option string) (option string);
  isConnected : bool;
}.

Record hook : Type := {
  state : SocketState;
  currentConversation : option string;
  socketRef : bool;
  outbox : list inbound;
}.

Definition initial : hook :=
  {| state := {| messages := []; onlineUsers := ∅; typingUsers := ∅;
                 isConnected := false |};
     currentConversation := None;
     socketRef := false;
     outbox := [] |}.

Definition with_state (f : SocketState → SocketState) (h : hook) : hook :=
  {| state := f (state h);
     currentConversation := currentConversation h;
     socketRef := socketRef h;
     outbox := outbox h |}.

(** [socketRef.current?.emit(...)]. *)
Definition emit (ev : inbound) (h : hook) : hook :=
  if socketRef h then
    {| state := state h;
       currentConversation := currentConversation h;
       socketRef := socketRef h;
       outbox := outbox h ++ [ev] |}
  else h.

(** [socket.on('connect', ...)]; the listener emits on the socket
    itself. *)
Definition on_connect (userId username : string) (h : hook) : hook :=
  let h' :=
    with_state (λ prev,
      {| messages := messages prev; onlineUsers := onlineUsers prev;
         typingUsers := typingUsers prev; isConnected := true |}) h in
  {| state := state h';
     currentConversation := currentConversation h';
     socketRef := socketRef h';
     outbox := outbox h' ++ [Authenticate userId username] |}.

(** [socket.on('disconnect', ...)]. *)
Definition on_disconnect (h : hook) : hook :=
  with_state (λ prev,
    {| messages := messages prev; onlineUsers := onlineUsers prev;
       typingUsers := typingUsers prev; isConnected := false |}) h.

(** The listeners for the events of the server. *)
Definition on (e : outbound) (h : hook) : hook :=
  match e with
  | new_message message =>
      with_state (λ prev,
        {| messages := messages prev ++ [message];
           onlineUsers := onlineUsers prev;
           typingUsers := typingUsers prev;
           isConnected := isConnected prev |}) h
  | message_history conversationId msgs =>
      match currentConversation h with
      | Some current =>
          if String.eqb conversationId current then
            with_state (λ prev,
              {| messages := msgs;
                 onlineUsers := onlineUsers prev;
                 typingUsers := typingUsers prev;
                 isConnected := isConnected prev |}) h
          else h
      | None => h
      end
  | online_users userIds =>
      with_state (λ prev,
        {| messages := messages prev;
           onlineUsers := list_to_set userIds;
           typingUsers := typingUsers prev;
           isConnected := isConnected prev |}) h
  | user_online u =>
      with_state (λ prev,
        {| messages := messages prev;
           onlineUsers := {[u]} ∪ onlineUsers prev;
           typingUsers := typingUsers prev;
           isConnected := isConnected prev |}) h
  | user_offline u =>
      with_state (λ prev,
        {| messages := messages prev;
           onlineUsers := onlineUsers prev ∖ {[u]};
           typingUsers := typingUsers prev;
           isConnected := isConnected prev |}) h
  | user_typing u n isTyping =>
      with_state (λ prev,
        {| messages := messages prev;
           onlineUsers := onlineUsers prev;
           typingUsers :=
             if isTyping then <[u := n]> (typingUsers prev)
             else delete u (typingUsers prev);
           isConnected := isConnected prev |}) h
  | conversation_started _ => h
  end.

Definition joinConversation (conversationId : string) (h : hook) : hook :=
  emit (JoinConversation conversationId)
    {| state :=
         {| messages := [];
            onlineUsers := onlineUsers (state h);
            typingUsers := typingUsers (state h);
            isConnected := isConnected (state h) |};
       currentConversation := Some conversationId;
       socketRef := socketRef h;
       outbox := outbox h |}.

Definition leaveConversation (conversationId : string) (h : hook) : hook :=
  let h' := emit (LeaveConversation conversationId) h in
  {| state := state h';
     currentConversation := None;
     socketRef := socketRef h';
     outbox := outbox h' |}.

Definition sendMessage (conversationId content : string) (h : hook) : hook :=
  emit (SendMessage conversationId content) h.

Definition sendTyping (conversationId : string) (isTyping : bool) (h : hook)
    : hook :=
  emit (Typing conversationId isTyping) h.

(** The events of the server handled one after the other. *)
Definition on_all (es : list outbound) (h : hook) : hook :=
  foldl (λ h e, on e h) h es.


End Client.

(** ** services/ollama.ts: monitoring *)

Module Monitor.
Import Ollama.

Record QueueStatus : Type := {
  qs_activeRequests : Z;
  qs_queuedRequests : nat;
  qs_maxConcurrent : Z;
}.

Definition getQueueStatus (d : dispatcher) : QueueStatus :=
  {| qs_activeRequests := activeRequests d;
     qs_queuedRequests := length (requestQueue d);
     qs_maxConcurrent := MAX_CONCURRENT_REQUESTS |}.

(** Every request that has started is executing or has been settled,
    and none is both. *)
Definition accounted (d : dispatcher) : Prop :=
  (fst <$> settled d) ++ (rq_id <$> executing d) ≡ₚ started d.

Definition is_fetch (e : effect) : bool :=
  match e with
  | FetchChat _ _ => true
  | SaveBotMessage _ _ _ _ _ => false
  end.

Definition is_assistant_save (e : effect) : bool :=
  match e with
  | SaveBotMessage _ Assistant _ _ _ => true
  | _ => false
  end.

(** The backend answered with a body of the expected shape. *)
Definition backend_reply (env : exec_env) : option string :=
  match env_fetch env with
  | Js.Ok resp =>
      if resp_ok resp then
        match resp_json resp with
        | Js.Ok data => Some (or_message_content data)
        | Js.Throw _ => None
        end
      else None
  | Js.Throw _ => None
  end.

End Monitor.

(** ** services/ollama.ts: the stored exchange with the assistant *)

Module BotChat.
Import Js.

(** Modelled from the spec: the schema of the [BotChat] table is missing.
    A row is what [saveBotMessage(userId, role, content, model, context?)]
    stores, with the instant it was created. *)
Record row : Type := {
  bc_userId : string;
  bc_role : Ollama.role;
  bc_content : string;
  bc_model : string;
  bc_context : option string;
  bc_createdAt : Z;
}.

(** [orderBy: { createdAt: 'desc' }], as for the messages: rows created
    at the same instant keep their table order. *)
Fixpoint insert_desc (r : row) (l : list row) : list row :=
  match l with
  | [] => [r]
  | r' :: l' =>
      if (bc_createdAt r <? bc_createdAt r')%Z
      then r' :: insert_desc r l'
      else r :: l
  end.

Definition orderBy_createdAt_desc (l : list row) : list row :=
  foldr insert_desc [] l.

Definition turn (r : row) : Ollama.ChatMessage :=
  {| Ollama.cm_role := bc_role r; Ollama.cm_content := bc_content r |}.

(** [getBotChatHistory(userId, limit = 20)]. *)
Definition getBotChatHistory (userId : string) (limit : nat)
    (table : list row) : list Ollama.ChatMessage :=
  turn <$> reverse
             (take limit
                (orderBy_createdAt_desc
                   (filter (λ r, bc_userId r = userId) table))).

(** [saveBotMessage(userId, role, content, model = DEFAULT_MODEL, context?)],
    the row being created at [now]. *)
Definition saveBotMessage (env_model : option string)
    (userId : string) (role : Ollama.role) (content : string)
    (model : option string) (context : option string) (now : Z)
    (table : list row) : list row :=
  table ++ [{| bc_userId := userId; bc_role := role; bc_content := content;
               bc_model := default (Ollama.DEFAULT_MODEL env_model) model;
               bc_context := context; bc_createdAt := now |}].

(** [clearBotChatHistory(userId)]: the number of rows deleted and what is
    left of the table. *)
Definition clearBotChatHistory (userId : string) (table : list row)
    : nat * list row :=
  (length (filter (λ r, bc_userId r = userId) table),
   filter (λ r, bc_userId r ≠ userId) table).

Fixpoint increasing (ts : list Z) : bool :=
  match ts with
  | [] => true
  | t :: rest => forallb (Z.ltb t) rest && increasing rest
  end.

End BotChat.

(** ** services/context.ts: project statistics *)

Module Stats.

Record Task : Type := { task_status : string }.

Record Project : Type := {
  project_status : string;
  project_progress : Z;
  project_tasks : list Task;
}.

Record stats : Type := {
  totalProjects : nat;
  activeProjects : nat;
  completedProjects : nat;
  totalTasks : nat;
  pendingTasks : nat;
  inProgressTasks : nat;
  completedTasks : nat;
  averageProgress : Z;
}.

Definition with_status (s : string) (l : list Task) : nat :=
  length (filter (λ t, task_status t = s) l).

(** [Math.round(sum / n)] for integers [sum] and [n > 0]: the nearest
    integer, a half going up.  The quotient of the source is a double; it
    rounds to the same integer as the exact quotient as long as the sum
    stays far below 2^52. *)
Definition round_div (sum n : Z) : Z := ((2 * sum + n) / (2 * n))%Z.

(** One turn of the [for] loop over the projects. *)
Definition add_tasks (st : stats) (p : Project) : stats :=
  {| totalProjects := totalProjects st;
     activeProjects := activeProjects st;
     completedProjects := completedProjects st;
     totalTasks := totalTasks st + length (project_tasks p);
     pendingTasks := pendingTasks st + with_status "pending" (project_tasks p);
     inProgressTasks :=
       inProgressTasks st + with_status "in_progress" (project_tasks p);
     completedTasks :=
       completedTasks st + with_status "completed" (project_tasks p);
     averageProgress := averageProgress st |}.

(** [getProjectStats], from the projects that [findMany] returned. *)
Definition getProjectStats (projects : list Project) : stats :=
  let st :=
    foldl add_tasks
      {| totalProjects := length projects;
         activeProjects :=
           length (filter (λ p, project_status p = "active") projects);
         completedProjects :=
           length (filter (λ p, project_status p = "completed") projects);
         totalTasks := 0; pendingTasks := 0; inProgressTasks := 0;
         completedTasks := 0; averageProgress := 0 |}
      projects in
  {| totalProjects := totalProjects st;
     activeProjects := activeProjects st;
     completedProjects := completedProjects st;
     totalTasks := totalTasks st;
     pendingTasks := pendingTasks st;
     inProgressTasks := inProgressTasks st;
     completedTasks := completedTasks st;
     averageProgress :=
       if (0 <? length projects) then
         round_div (foldl (λ sum p, sum + project_progress p)%Z 0%Z projects)
                   (Z.of_nat (length projects))
       else averageProgress st |}.

Definition known_status (t : Task) : bool :=
  String.eqb (task_status t) "pending"
  || String.eqb (task_status t) "in_progress"
  || String.eqb (task_status t) "completed".

End Stats.

(** ** More situations used in the examples *)

Module Cases.
Import Js Handler.

(** Alice on connection [a] and Bob on connection [b], both authenticated,
    over the store that holds their direct conversation. *)
Definition two_connected : server :=
  receive_all
    [("a", Authenticate "u1" "Alice", 1%Z);
     ("b", Authenticate "u2" "Bob", 2%Z)]
    (connect "b" (connect "a" Samples.server0)).

Definition alice_on_a : socket :=
  {| socket_id := "a"; userId := Some "u1"; username := Some "Alice";
     rooms := ∅ |}.

End Cases.

(** * Properties *)

(** ** The dispatcher: bound, order and progress *)

Section Dispatcher.
Import Js Ollama.
Variable env_model : option string.

Lemma consistent_init : consistent init.
Proof. split; simpl; try done. Qed.

Lemma saturated_init : saturated init.
Proof. intros H. by destruct H. Qed.

Lemma processQueue_consistent d : consistent d → consistent (processQueue d).
Proof.
  intros Hcons. unfold processQueue.
  destruct (requestQueue d) as [|r rest] eqn:Hq; [done|].
  destruct (Z.ltb_spec (activeRequests d) MAX_CONCURRENT_REQUESTS) as [Hlt|Hge];
    [|done].
  destruct Hcons as [Hc Hb Hf He]. rewrite Hq in Hf.
  split; simpl.
  - rewrite length_app. simpl. lia.
  - lia.
  - rewrite <- Hf. simpl. by rewrite <- app_assoc.
  - rewrite fmap_app. simpl. by apply sublist_app.
Qed.

Lemma processQueue_saturated_id d : saturated d → processQueue d = d.
Proof.
  intros Hs. unfold processQueue.
  destruct (requestQueue d) as [|r rest] eqn:Hq; [done|].
  rewrite Hs; [|by rewrite Hq]. done.
Qed.

(** Once a slot is free the head of the queue starts. *)
Lemma processQueue_fills d :
  consistent d →
  (∀ r rest, requestQueue d = r :: rest → rest ≠ [] →
     (MAX_CONCURRENT_REQUESTS - 1 <= activeRequests d)%Z) →
  saturated (processQueue d).
Proof.
  intros [Hc Hb Hf He] Hnear. unfold processQueue, saturated.
  destruct (requestQueue d) as [|r rest] eqn:Hq.
  - by rewrite Hq.
  - specialize (Hnear r rest eq_refl).
    destruct (Z.ltb_spec (activeRequests d) MAX_CONCURRENT_REQUESTS) as [Hlt|Hge];
      simpl.
    + intros Hrest. specialize (Hnear Hrest). lia.
    + intros _. lia.
Qed.

Lemma pushed_consistent entry d :
  rq_id entry = submissions d → consistent d → consistent (pushed entry d).
Proof.
  intros Hid [Hc Hb Hf He]. split; try done.
  cbn [pushed requestQueue started submissions].
  rewrite fmap_app, app_assoc, Hf, seq_S. simpl. by rewrite Hid.
Qed.

Lemma chatWithOllama_consistent u m model d :
  consistent d → consistent (chatWithOllama env_model u m model d).
Proof.
  intros Hcons. apply processQueue_consistent.
  by apply (pushed_consistent _ d).
Qed.

Lemma chatWithOllama_saturated u m model d :
  consistent d → saturated d → saturated (chatWithOllama env_model u m model d).
Proof.
  intros Hcons Hs. apply processQueue_fills.
  - by apply (pushed_consistent _ d).
  - simpl. intros r rest Hq Hrest.
    destruct (requestQueue d) as [|r0 rest0] eqn:Hq0.
    + simpl in Hq. by simplify_eq.
    + rewrite Hs; [|by rewrite Hq0]. lia.
Qed.

(** A request that waits stays where it is when another one is
    submitted. *)
Lemma chatWithOllama_queue u m model d :
  saturated d → requestQueue d ≠ [] →
  ∃ entry, requestQueue (chatWithOllama env_model u m model d)
           = requestQueue d ++ [entry]
           ∧ started (chatWithOllama env_model u m model d) = started d.
Proof.
  intros Hs Hne. eexists. unfold chatWithOllama, processQueue. simpl.
  rewrite (Hs Hne).
  destruct (requestQueue d) as [|r0 rest0] eqn:Hq0; [done|].
  simpl. by rewrite Hq0.
Qed.

Lemma find_request_elem i l r :
  List.find (is_request i) l = Some r → r ∈ l ∧ rq_id r = i.
Proof.
  intros H. apply find_some in H as [Hin Hid].
  split; [by apply list_elem_of_In|].
  unfold is_request in Hid. by apply Nat.eqb_eq in Hid.
Qed.

Lemma find_request_is_Some i l :
  i ∈ (rq_id <$> l) → is_Some (List.find (is_request i) l).
Proof.
  intros Hin. apply list_elem_of_fmap in Hin as (r & -> & Hr).
  destruct (List.find (is_request (rq_id r)) l) eqn:Hf; [by eexists|].
  apply list_elem_of_In in Hr.
  pose proof (find_none _ _ Hf _ Hr) as Hn.
  unfold is_request in Hn. by rewrite Nat.eqb_refl in Hn.
Qed.

(** Removing the one request with a given id shortens the list by one. *)
Lemma length_filter_other i (l : list request) :
  NoDup ((rq_id <$> l)) → i ∈ (rq_id <$> l) →
  S (length (filter (λ r, rq_id r ≠ i) l)) = length l.
Proof.
  induction l as [|r l IH]; simpl; intros Hnd Hin.
  - by apply elem_of_nil in Hin.
  - apply NoDup_cons in Hnd as [Hnotin Hnd].
    rewrite filter_cons. destruct (decide (rq_id r ≠ i)) as [Hne|Heq].
    + simpl. f_equal. apply IH; [done|].
      apply elem_of_cons in Hin as [->|Hin]; done.
    + assert (rq_id r = i) as <- by (destruct (decide (rq_id r = i)); done).
      f_equal. clear IH Hin Hnd Heq.
      induction l as [|r' l IH]; [done|]. simpl in *.
      apply not_elem_of_cons in Hnotin as [Hne Hnotin].
      rewrite filter_cons, decide_True by done. simpl. f_equal. by apply IH.
Qed.

Lemma consistent_NoDup d : consistent d → NoDup ((rq_id <$> executing d)).
Proof.
  intros [Hc Hb Hf He]. eapply sublist_NoDup; [|exact He].
  pose proof (NoDup_seq 0 (submissions d)) as Hnd. rewrite <- Hf in Hnd.
  by apply NoDup_app in Hnd as [? _].
Qed.

Lemma released_consistent i o d :
  consistent d → i ∈ (rq_id <$> executing d) → consistent (released i o d).
Proof.
  intros Hcons Hin. pose proof (consistent_NoDup d Hcons) as Hnd.
  destruct Hcons as [Hc Hb Hf He].
  pose proof (length_filter_other i (executing d) Hnd Hin) as Hlen.
  split; simpl; try done.
  - lia.
  - lia.
  - etrans; [|exact He]. apply fmap_sublist, sublist_filter.
Qed.

Lemma resume_released i env d d' :
  resume i env d = Some d' →
  ∃ o, i ∈ (rq_id <$> executing d)
       ∧ d' = processQueue (processQueue (released i o d)).
Proof.
  unfold resume. destruct (List.find (is_request i) (executing d)) as [r|] eqn:Hf;
    [|done].
  intros [= <-]. apply find_request_elem in Hf as [Hin Hid].
  eexists. split; [|reflexivity].
  apply list_elem_of_fmap. by exists r.
Qed.

Lemma resume_invariant i env d d' :
  consistent d → saturated d → resume i env d = Some d' →
  consistent d' ∧ saturated d'.
Proof.
  intros Hcons Hs Hr. apply resume_released in Hr as (o & Hin & ->).
  pose proof (released_consistent i o d Hcons Hin) as Hrel.
  assert (saturated (processQueue (released i o d))) as Hs1.
  { apply processQueue_fills; [done|]. simpl. intros r rest Hq _.
    rewrite Hs; [lia | by rewrite Hq]. }
  rewrite (processQueue_saturated_id _ Hs1).
  split; [by apply processQueue_consistent | done].
Qed.

(** When a request settles while others wait, exactly the head of the
    queue starts. *)
Lemma resume_queue i env d d' r rest :
  consistent d → saturated d → requestQueue d = r :: rest →
  resume i env d = Some d' →
  requestQueue d' = rest ∧ started d' = started d ++ [rq_id r].
Proof.
  intros Hcons Hs Hq Hr.
  pose proof (resume_invariant i env d d' Hcons Hs Hr) as [_ Hs'].
  apply resume_released in Hr as (o & Hin & ->).
  assert (processQueue (released i o d)
          = {| requestQueue := rest;
               activeRequests := activeRequests d - 1 + 1;
               executing := filter (λ r, rq_id r ≠ i) (executing d) ++ [r];
               started := started d ++ [rq_id r];
               settled := settled d ++ [(i, o)];
               submissions := submissions d |}) as Heq.
  { unfold processQueue, released. simpl. rewrite Hq.
    rewrite Hs by (by rewrite Hq). done. }
  assert (saturated (processQueue (released i o d))) as Hs1.
  { apply processQueue_fills; [by apply released_consistent|].
    simpl. intros r0 rest0 Hq0 _. rewrite Hs; [lia | by rewrite Hq]. }
  rewrite (processQueue_saturated_id _ Hs1), Heq. done.
Qed.

Lemma step_invariant d e d' :
  consistent d → saturated d → step env_model d e = Some d' →
  consistent d' ∧ saturated d'.
Proof.
  intros Hcons Hs. destruct e as [u m model|i env]; simpl.
  - intros [= <-]. split.
    + by apply chatWithOllama_consistent.
    + by apply chatWithOllama_saturated.
  - by apply resume_invariant.
Qed.

Lemma run_invariant es : ∀ d d',
  consistent d → saturated d → run env_model d es = Some d' →
  consistent d' ∧ saturated d'.
Proof.
  induction es as [|e es IH]; simpl; intros d d' Hcons Hs.
  - by intros [= <-].
  - destruct (step env_model d e) as [d1|] eqn:Hstep; [|done].
    destruct (step_invariant d e d1 Hcons Hs Hstep) as [Hc1 Hs1].
    by apply IH.
Qed.

Lemma processQueue_started d : started d `prefix_of` started (processQueue d).
Proof.
  unfold processQueue. destruct (requestQueue d); [done|].
  destruct (_ <? _)%Z; [|done]. simpl. by apply prefix_app_r.
Qed.

Lemma step_started d e d' :
  step env_model d e = Some d' → started d `prefix_of` started d'.
Proof.
  destruct e as [u m model|i env]; simpl.
  - intros [= <-]. unfold chatWithOllama.
    etrans; [|apply processQueue_started]. done.
  - intros Hr. apply resume_released in Hr as (o & _ & ->).
    etrans; [|apply processQueue_started].
    etrans; [|apply processQueue_started]. done.
Qed.

Lemma run_started es : ∀ d d',
  run env_model d es = Some d' → started d `prefix_of` started d'.
Proof.
  induction es as [|e es IH]; simpl; intros d d'.
  - by intros [= <-].
  - destruct (step env_model d e) as [d1|] eqn:Hstep; [|done].
    intros Hrun. etrans; [by eapply step_started|]. by apply IH.
Qed.

(** The request at position [k] of the queue has started once [k + 1]
    executions have settled, whatever is submitted meanwhile. *)
Lemma run_progress es : ∀ d d' k r,
  consistent d → saturated d → run env_model d es = Some d' →
  requestQueue d !! k = Some r → k < settles es →
  rq_id r ∈ started d'.
Proof.
  induction es as [|e es IH]; simpl; intros d d' k r Hcons Hs Hrun Hk Hlt.
  - unfold settles in Hlt. simpl in Hlt. lia.
  - destruct (step env_model d e) as [d1|] eqn:Hstep; [|done].
    destruct (step_invariant d e d1 Hcons Hs Hstep) as [Hc1 Hs1].
    assert (requestQueue d ≠ []) as Hne by (intros E; by rewrite E in Hk).
    destruct e as [u m model|i env]; simpl in Hstep.
    + injection Hstep as <-.
      destruct (chatWithOllama_queue u m model d Hs Hne) as (entry & Hq & _).
      apply (IH _ d' k r Hc1 Hs1 Hrun).
      * rewrite Hq. by apply lookup_app_l_Some.
      * exact Hlt.
    + destruct (requestQueue d) as [|r0 rest] eqn:Hq; [done|].
      destruct (resume_queue i env d d1 r0 rest Hcons Hs Hq Hstep) as [Hq1 Hst1].
      destruct k as [|k]; simpl in Hk.
      * injection Hk as ->.
        eapply elem_of_prefix; [|by eapply run_started].
        rewrite Hst1. apply elem_of_app. right. by apply list_elem_of_singleton.
      * apply (IH _ d' k r Hc1 Hs1 Hrun).
        -- by rewrite Hq1.
        -- unfold settles in *. simpl in Hlt. lia.
Qed.

(** The settlement of a request in flight is always enabled. *)
Lemma settle_enabled d r env :
  r ∈ executing d → is_Some (step env_model d (Settle (rq_id r) env)).
Proof.
  intros Hr. simpl. unfold resume.
  destruct (find_request_is_Some (rq_id r) (executing d)) as [r' ->];
    [by apply list_elem_of_fmap_2 | by eexists].
Qed.

(** While a request waits, settlements are possible, and [k + 1] of them
    bring the request at position [k] of the queue into execution. *)
Lemma drain_exists (env : exec_env) k : ∀ d r,
  consistent d → saturated d → requestQueue d !! k = Some r →
  ∃ es' d', run env_model d es' = Some d' ∧ settles es' = S k
            ∧ rq_id r ∈ started d'.
Proof.
  induction k as [|k IH]; intros d r Hcons Hs Hk.
  - destruct (requestQueue d) as [|r0 rest] eqn:Hq; [done|].
    injection Hk as ->.
    pose proof (cons_count d Hcons) as Hc.
    rewrite Hs in Hc by (by rewrite Hq).
    destruct (executing d) as [|x xs] eqn:Hx; [done|].
    destruct (settle_enabled d x env) as [d1 Hstep];
      [rewrite Hx; by left|].
    simpl in Hstep.
    destruct (resume_queue _ env d d1 r rest Hcons Hs Hq Hstep) as [_ Hst].
    exists [Settle (rq_id x) env], d1. simpl. rewrite Hstep.
    split; [done|]. split; [done|]. rewrite Hst. apply elem_of_app. right.
    by apply list_elem_of_singleton.
  - destruct (requestQueue d) as [|r0 rest] eqn:Hq; [done|]. simpl in Hk.
    pose proof (cons_count d Hcons) as Hc.
    rewrite Hs in Hc by (by rewrite Hq).
    destruct (executing d) as [|x xs] eqn:Hx; [done|].
    destruct (settle_enabled d x env) as [d1 Hstep];
      [rewrite Hx; by left|].
    destruct (step_invariant d _ d1 Hcons Hs Hstep) as [Hc1 Hs1].
    simpl in Hstep.
    destruct (resume_queue _ env d d1 r0 rest Hcons Hs Hq Hstep) as [Hq1 _].
    destruct (IH d1 r Hc1 Hs1) as (es' & d' & Hrun & Hn & Hin);
      [by rewrite Hq1|].
    exists (Settle (rq_id x) env :: es'), d'. simpl. rewrite Hstep.
    split; [done|]. split; [|done].
    unfold settles in *. simpl. by rewrite Hn.
Qed.

Lemma reachable_invariant es d :
  run env_model init es = Some d → consistent d ∧ saturated d.
Proof.
  apply run_invariant; [apply consistent_init | apply saturated_init].
Qed.

End Dispatcher.

(** C1.  Along every sequence of submissions and settlements, starting from
    the initial module state: at most [MAX_CONCURRENT_REQUESTS] = 5 requests
    are executing and [activeRequests] counts them; the requests started so
    far followed by the queue are the submissions in the order they were
    made, so requests start in submission order; a request waits only while
    five are executing, and any of those can settle; the request at
    position [k] of the queue has started as soon as [k + 1] executions have
    settled, whatever else is submitted meanwhile; and a run with that many
    settlements exists. *)
Theorem C1_dispatcher_bound_fifo_progress
    (env_model : option string) (es : list Ollama.event) (d : Ollama.dispatcher) :
  Ollama.run env_model Ollama.init es = Some d →
  (Z.of_nat (length (Ollama.executing d)) <= Ollama.MAX_CONCURRENT_REQUESTS)%Z
  ∧ Ollama.activeRequests d = Z.of_nat (length (Ollama.executing d))
  ∧ Ollama.started d ++ (Ollama.rq_id <$> Ollama.requestQueue d)
    = seq 0 (Ollama.submissions d)
  ∧ (Ollama.requestQueue d ≠ [] →
     Z.of_nat (length (Ollama.executing d)) = Ollama.MAX_CONCURRENT_REQUESTS)
  ∧ (∀ r env, r ∈ Ollama.executing d →
       is_Some (Ollama.step env_model d (Ollama.Settle (Ollama.rq_id r) env)))
  ∧ (∀ es' d' k r,
       Ollama.run env_model d es' = Some d' →
       Ollama.requestQueue d !! k = Some r →
       k < Ollama.settles es' →
       Ollama.rq_id r ∈ Ollama.started d')
  ∧ (∀ k r (env : Ollama.exec_env),
       Ollama.requestQueue d !! k = Some r →
       ∃ es' d', Ollama.run env_model d es' = Some d'
                 ∧ Ollama.settles es' = S k
                 ∧ Ollama.rq_id r ∈ Ollama.started d').
Proof.
  intros Hrun.
  destruct (reachable_invariant env_model es d Hrun) as [Hcons Hsat].
  pose proof Hcons as [Hc Hb Hf He].
  repeat split.
  - by rewrite <- Hc.
  - done.
  - done.
  - intros Hne. rewrite <- Hc. by apply Hsat.
  - intros r env. apply settle_enabled.
  - intros es' d' k r Hrun' Hk Hlt. by eapply run_progress.
  - intros k r env Hk. by apply (drain_exists env_model env).
Qed.

Lemma C1_witness :
  Ollama.run None Ollama.init Samples.seven = Some Samples.after_seven
  ∧ (Z.of_nat (length (Ollama.executing Samples.after_seven))
     <= Ollama.MAX_CONCURRENT_REQUESTS)%Z
  ∧ Ollama.started Samples.after_seven = [0; 1; 2; 3; 4]
  ∧ (Ollama.rq_id <$> Ollama.requestQueue Samples.after_seven) = [5; 6]
  ∧ (∀ d', Ollama.run None Samples.after_seven
             [Ollama.Settle 0 (Samples.reply "hi")] = Some d' →
           5 ∈ Ollama.started d').
Proof.
  assert (Ollama.run None Ollama.init Samples.seven = Some Samples.after_seven)
    as Hrun by (vm_compute; reflexivity).
  destruct (C1_dispatcher_bound_fifo_progress None Samples.seven
              Samples.after_seven Hrun)
    as (Hbound & _ & _ & _ & _ & Hprogress & _).
  split; [exact Hrun|]. split; [exact Hbound|].
  split; [reflexivity|]. split; [reflexivity|].
  intros d' Hrun'.
  apply (Hprogress _ d' 0 (Samples.queued 5) Hrun');
    [reflexivity | vm_compute; lia].
Defined.

(** The scenario of seven submissions with limit five: five start at once,
    two wait; when the first one settles the sixth starts. *)
Example seven_submissions :
  (λ d, (Ollama.started d, Ollama.rq_id <$> Ollama.requestQueue d,
         Ollama.activeRequests d))
    <$> Ollama.run None Ollama.init Samples.seven
  = Some ([0; 1; 2; 3; 4], [5; 6], 5%Z).
Proof. vm_compute. reflexivity. Qed.

Example seven_submissions_then_one_settles :
  (λ d, (Ollama.started d, Ollama.rq_id <$> Ollama.requestQueue d,
         Ollama.rq_id <$> Ollama.executing d, Ollama.settled d))
    <$> Ollama.run None Ollama.init Samples.seven_then_one
  = Some ([0; 1; 2; 3; 4; 5], [6], [1; 2; 3; 4; 5], [(0, Js.Resolved "hi")]).
Proof. vm_compute. reflexivity. Qed.

(** ** The dispatcher: failures of the backend *)

Section BackendFailure.
Import Js Ollama.

Lemma apology_texts_differ msg : errorApology msg ≠ unreachableApology.
Proof. unfold errorApology, unreachableApology. simpl. discriminate. Qed.

Lemma executeOllamaRequest_resolves env u m model :
  reaches_fetch env m = true →
  ∃ s, fst (executeOllamaRequest env u m model) = Resolved s.
Proof.
  unfold reaches_fetch, executeOllamaRequest.
  destruct (if Context.isDataQuery _ then _ else _) as [ctx|]; [|done].
  destruct (env_getBotChatHistory env) as [h|]; [|done].
  destruct (env_saveUserMessage env) as [[]|]; [|done].
  intros _. destruct (tryFetch _ _ _ _ _) as [[reply|e] effs]; by eexists.
Qed.

Lemma executeOllamaRequest_fetch_throws env u m model e :
  reaches_fetch env m = true → env_fetch env = Throw e →
  fst (executeOllamaRequest env u m model) = Resolved (apology e).
Proof.
  unfold reaches_fetch, executeOllamaRequest, tryFetch.
  destruct (if Context.isDataQuery _ then _ else _) as [ctx|]; [|done].
  destruct (env_getBotChatHistory env) as [h|]; [|done].
  destruct (env_saveUserMessage env) as [[]|]; [|done].
  intros _ ->. done.
Qed.

Lemma NoDup_fmap_elem_inj {A B} (f : A → B) (l : list A) x y :
  NoDup (f <$> l) → x ∈ l → y ∈ l → f x = f y → x = y.
Proof.
  induction l as [|a l IH]; simpl; intros Hnd Hx Hy Hf.
  - by apply elem_of_nil in Hx.
  - apply NoDup_cons in Hnd as [Hnotin Hnd].
    apply elem_of_cons in Hx as [->|Hx]; apply elem_of_cons in Hy as [->|Hy].
    + done.
    + destruct Hnotin. rewrite Hf. by apply list_elem_of_fmap_2.
    + destruct Hnotin. rewrite <- Hf. by apply list_elem_of_fmap_2.
    + by apply IH.
Qed.

Lemma find_executing d r :
  consistent d → r ∈ executing d →
  List.find (is_request (rq_id r)) (executing d) = Some r.
Proof.
  intros Hcons Hr.
  destruct (find_request_is_Some (rq_id r) (executing d)) as [r' Hf];
    [by apply list_elem_of_fmap_2|].
  rewrite Hf. f_equal.
  apply find_request_elem in Hf as [Hin Hid].
  eapply NoDup_fmap_elem_inj; [by apply consistent_NoDup| done..].
Qed.

Lemma processQueue_settled d : settled (processQueue d) = settled d.
Proof.
  unfold processQueue. destruct (requestQueue d); [done|].
  by destruct (_ <? _)%Z.
Qed.

End BackendFailure.

(** C8.  A request is executing when the backend refuses the connection,
    so that the built-in [fetch] throws its "fetch failed" error (the
    calls to the store that precede it having succeeded).  The promise
    returned by [chatWithOllama] is resolved, not rejected, but with the
    text the code gives for any backend error, "Sorry, I encountered an
    error: fetch failed".  The text written for an unreachable backend is
    given only for an error whose own message contains ECONNREFUSED.  No
    outcome of the backend call makes an execution that got as far as the
    call reject. *)
Theorem C8_unreachable_backend_gets_the_generic_text
    (env_model : option string) (es : list Ollama.event) (d : Ollama.dispatcher)
    (r : Ollama.request) (env : Ollama.exec_env) :
  Ollama.run env_model Ollama.init es = Some d →
  r ∈ Ollama.executing d →
  Ollama.reaches_fetch env (Ollama.rq_userMessage r) = true →
  Ollama.env_fetch env = Js.Throw Ollama.fetchFailed →
  (∃ d', Ollama.step env_model d (Ollama.Settle (Ollama.rq_id r) env) = Some d'
         ∧ Ollama.settled d'
           = Ollama.settled d
             ++ [(Ollama.rq_id r,
                  Js.Resolved "Sorry, I encountered an error: fetch failed")])
  ∧ (∀ env' u m model e,
       Ollama.reaches_fetch env' m = true →
       Ollama.env_fetch env' = Js.Throw e →
       fst (Ollama.executeOllamaRequest env' u m model)
       = Js.Resolved
           (if Js.includes (Ollama.errorMessage e) "ECONNREFUSED"
            then "I'm having trouble connecting to my brain (Ollama). Make sure Ollama is running!"
            else "Sorry, I encountered an error: " +:+ Ollama.errorMessage e))
  ∧ (∀ env' u m model,
       Ollama.reaches_fetch env' m = true →
       ∃ s, fst (Ollama.executeOllamaRequest env' u m model) = Js.Resolved s).
Proof.
  intros Hrun Hr Hreach Hfetch.
  destruct (reachable_invariant env_model es d Hrun) as [Hcons _].
  split; [|split].
  - eexists. split.
    + cbn [Ollama.step]. unfold Ollama.resume.
      rewrite (find_executing d r Hcons Hr). reflexivity.
    + rewrite !processQueue_settled. cbn [Ollama.settled Ollama.released].
      by rewrite (executeOllamaRequest_fetch_throws _ _ _ _ _ Hreach Hfetch).
  - intros env' u m model e Hreach' Hfetch'.
    rewrite (executeOllamaRequest_fetch_throws _ _ _ _ _ Hreach' Hfetch').
    unfold Ollama.apology. cbv zeta.
    by destruct (Js.includes _ _).
  - intros env' u m model. apply executeOllamaRequest_resolves.
Qed.

Lemma C8_witness :
  ∃ d',
    Ollama.run None Ollama.init Samples.seven = Some Samples.after_seven
    ∧ Ollama.step None Samples.after_seven (Ollama.Settle 2 Samples.backend_down)
      = Some d'
    ∧ Ollama.settled d'
      = [(2, Js.Resolved "Sorry, I encountered an error: fetch failed")].
Proof.
  assert (Ollama.run None Ollama.init Samples.seven = Some Samples.after_seven)
    as Hrun by (vm_compute; reflexivity).
  destruct (C8_unreachable_backend_gets_the_generic_text None Samples.seven
              Samples.after_seven (Samples.queued 2)
              Samples.backend_down Hrun)
    as ((d' & Hstep & Hsettled) & _).
  - vm_compute. repeat constructor.
  - vm_compute. reflexivity.
  - reflexivity.
  - exists d'. split; [exact Hrun|]. split; [exact Hstep|exact Hsettled].
Defined.

(** Another backend error next to the refused connection: a reply with
    status 500.  The two replies to the user are built alike, and neither
    is the text for an unreachable backend. *)
Example backend_errors_read_alike :
  fst (Ollama.executeOllamaRequest Samples.backend_down "u1" "hello" "gemma3:1b")
  = Js.Resolved "Sorry, I encountered an error: fetch failed"
  ∧ fst (Ollama.executeOllamaRequest Samples.backend_error "u1" "hello"
           "gemma3:1b")
    = Js.Resolved
        "Sorry, I encountered an error: Ollama returned 500: Internal Server Error".
Proof. split; vm_compute; reflexivity. Qed.

(** ** The handlers *)

Section Handlers.
Import Js Handler.

Lemma user_update_Some id online t d u :
  Prisma.users d !! id = Some u →
  Prisma.user_update id online t d
  = Ok {| Prisma.users :=
            <[id := {| Prisma.user_username := Prisma.user_username u;
                       Prisma.user_avatar := Prisma.user_avatar u;
                       Prisma.user_isOnline := online;
                       Prisma.user_lastSeen := t |}]> (Prisma.users d);
          Prisma.messages := Prisma.messages d;
          Prisma.conversations := Prisma.conversations d |}.
Proof. intros H. unfold Prisma.user_update. by rewrite H. Qed.

(** Only [authenticate] assigns the identity fields of a socket. *)
Lemma handle_userId ev now sk w :
  (∀ u n, ev ≠ Authenticate u n) →
  userId (r_socket (handle ev now sk w)) = userId sk.
Proof.
  intros Hev. destruct ev as [u n|c|c|c content|c b|t|]; simpl.
  - by destruct (Hev u n).
  - done.
  - done.
  - unfold send_message. destruct (userId sk) as [uid|] eqn:Hu; [|done].
    destruct (truthy uid); [|done].
    by destruct (Message.createMessage _ _ _) as [[m d']|].
  - done.
  - unfold start_direct. destruct (userId sk) as [uid|] eqn:Hu; [|done].
    destruct (truthy uid); [|done].
    by destruct (Message.getOrCreateDirectConversation _ _ _) as [[m d']|].
  - unfold disconnect. destruct (userId sk) as [uid|] eqn:Hu; [|done].
    destruct (truthy uid); [|done].
    by destruct (Prisma.user_update _ _ _ _).
Qed.

Lemma receive_unbound id id' ev now s :
  is_authenticate_on id (id', ev, now) = false →
  unbound id s → unbound id (receive id' ev now s).
Proof.
  intros Hev Hs sk. unfold receive.
  destruct (connections s !! id') as [sk'|] eqn:Hsk'; [|apply Hs]. simpl.
  destruct (decide (id' = id)) as [->|Hne].
  - assert (∀ u n, ev ≠ Authenticate u n) as Hna.
    { intros u n ->. simpl in Hev. by rewrite String.eqb_refl in Hev. }
    assert (<[id := r_socket (handle ev now sk' (shared s))]> (connections s)
            !! id = Some sk → userId sk = None) as Hgoal.
    { rewrite lookup_insert_eq. intros [= <-].
      rewrite handle_userId by done. by apply Hs. }
    destruct ev; try exact Hgoal. by rewrite lookup_delete_eq.
  - destruct ev; rewrite ?lookup_insert_ne, ?lookup_delete_ne by done; apply Hs.
Qed.

Lemma receive_all_unbound id evs : ∀ s,
  existsb (is_authenticate_on id) evs = false →
  unbound id s → unbound id (receive_all evs s).
Proof.
  induction evs as [|[[id' ev] now] evs IH]; simpl; intros s Hevs Hs; [done|].
  apply orb_false_iff in Hevs as [Hev Hevs].
  apply IH; [done|]. by apply receive_unbound.
Qed.

Lemma connect_unbound id s : unbound id (connect id s).
Proof. intros sk. simpl. rewrite lookup_insert_eq. by intros [= <-]. Qed.

(** An identity-requiring event on a connection without identity leaves
    the server as it is. *)
Lemma receive_guarded id ev now s :
  (∀ sk w, userId sk = None → handle ev now sk w = dropped sk w) →
  ev ≠ Disconnect →
  unbound id s → receive id ev now s = s.
Proof.
  intros Hdrop Hnd Hs. unfold receive.
  destruct (connections s !! id) as [sk|] eqn:Hsk; [|done].
  rewrite (Hdrop sk (shared s) (Hs sk Hsk)). simpl.
  rewrite app_nil_r, insert_id by done.
  destruct s, ev; done.
Qed.

Lemma length_omap_le {A B} (f : A → option B) (l : list A) :
  length (omap f l) ≤ length l.
Proof.
  induction l as [|a l IH]; [done|].
  cbn [omap list_omap]. destruct (f a); simpl in *; lia.
Qed.

End Handlers.

(** C7.  A connection is opened and any events are handled, on it or on
    other connections, none of them an [authenticate] on this connection.
    Then a [send_message] or a [start_direct] arriving on it changes
    nothing: the store and Redis (so nothing is persisted and nothing is
    published), the emissions, the handlers that threw and the registry of
    connections are all what they were. *)
Theorem C7_identity_events_dropped_before_authenticate
    (s : Handler.server) (id : string) (evs : list (string * Handler.inbound * Z))
    (conversationId content targetUserId : string) (now : Z) :
  existsb (Handler.is_authenticate_on id) evs = false →
  let s1 := Handler.receive_all evs (Handler.connect id s) in
  Handler.receive id (Handler.SendMessage conversationId content) now s1 = s1
  ∧ Handler.receive id (Handler.StartDirect targetUserId) now s1 = s1.
Proof.
  intros Hevs s1.
  assert (Handler.unbound id s1) as Hs1
    by (apply receive_all_unbound; [done | apply connect_unbound]).
  split; apply receive_guarded; try done.
  - intros sk w Hsk. simpl. unfold Handler.send_message. by rewrite Hsk.
  - intros sk w Hsk. simpl. unfold Handler.start_direct. by rewrite Hsk.
Qed.

Lemma C7_witness :
  let s1 :=
    Handler.receive_all
      [("s9", Handler.JoinConversation "conv-0", 1%Z);
       ("s9", Handler.Typing "conv-0" true, 2%Z)]
      (Handler.connect "s9" Samples.server0) in
  Handler.receive "s9" (Handler.SendMessage "conv-0" "hi") 3 s1 = s1
  ∧ Handler.receive "s9" (Handler.StartDirect "u2") 3 s1 = s1.
Proof.
  apply (C7_identity_events_dropped_before_authenticate Samples.server0 "s9"
           [("s9", Handler.JoinConversation "conv-0", 1%Z);
            ("s9", Handler.Typing "conv-0" true, 2%Z)]).
  reflexivity.
Defined.

(** ** Sending, authenticating, disconnecting *)

Section Presence.
Import Js Handler.

Lemma createMessage_Some input now d u :
  Prisma.hasConversation d (Message.in_conversationId input) = true →
  Prisma.users d !! Message.in_senderId input = Some u →
  ∃ message,
    Message.createMessage input now d
    = Ok (message,
          {| Prisma.users := Prisma.users d;
             Prisma.messages :=
               Prisma.messages d ++
               [{| Prisma.msg_id := "msg-" +:+ pretty (length (Prisma.messages d));
                   Prisma.msg_content := Message.in_content input;
                   Prisma.msg_senderId := Message.in_senderId input;
                   Prisma.msg_conversationId := Message.in_conversationId input;
                   Prisma.msg_createdAt := now |}];
             Prisma.conversations := Prisma.conversations d |})
    ∧ Message.mws_content message = Message.in_content input
    ∧ Message.mws_senderId message = Message.in_senderId input
    ∧ Message.mws_conversationId message = Message.in_conversationId input
    ∧ Message.mws_createdAt message = now.
Proof.
  intros Hc Hu. unfold Message.createMessage, Message.with_sender.
  rewrite Hc. simpl. rewrite Hu. by eexists.
Qed.

Lemma disconnect_authenticated sk w u now row :
  userId sk = Some u → truthy u = true →
  Prisma.users (db w) !! u = Some row →
  disconnect now sk w
  = {| r_socket := sk;
       r_world :=
         {| db :=
              {| Prisma.users :=
                   <[u := {| Prisma.user_username := Prisma.user_username row;
                             Prisma.user_avatar := Prisma.user_avatar row;
                             Prisma.user_isOnline := false;
                             Prisma.user_lastSeen := now |}]>
                     (Prisma.users (db w));
                 Prisma.messages := Prisma.messages (db w);
                 Prisma.conversations := Prisma.conversations (db w) |};
            redis :=
              Redis.publishMessage Redis.USER_OFFLINE (Redis.UserPayload u)
                (Redis.setUserOffline u now (redis w)) |};
       r_emitted := [];
       r_outcome := Returned |}.
Proof.
  intros Hu Ht Hrow. unfold disconnect.
  by rewrite Hu, Ht, (user_update_Some _ _ _ _ row).
Qed.

Lemma not_elem_of_offline u now r :
  u ∉ Redis.online_users (Redis.publishMessage Redis.USER_OFFLINE
                            (Redis.UserPayload u)
                            (Redis.setUserOffline u now r)).
Proof.
  simpl. rewrite elem_of_difference, elem_of_singleton. by intros [_ []].
Qed.

End Presence.

(** C3 (the claim as stated fails).  Alice's connection is authenticated and
    sends an empty message into her conversation: the handler has no guard
    on the content, one row is stored and one envelope is published. *)
Lemma C3_counterexample :
  Handler.authenticated_as Samples.alice_socket Samples.world0 "u1"
  ∧ let r :=
      Handler.send_message "conv-0" EmptyString 1000
        Samples.alice_socket Samples.world0 in
    Prisma.messages (Handler.db (Handler.r_world r))
    ≠ Prisma.messages (Handler.db Samples.world0)
    ∧ Redis.published (Handler.redis (Handler.r_world r))
      ≠ Redis.published (Handler.redis Samples.world0).
Proof.
  split.
  - split; [reflexivity|]. split; [reflexivity|]. by eexists.
  - vm_compute. split; discriminate.
Defined.

(** C3 (amended).  On a connection bound to a stored user, [send_message]
    into an existing conversation treats every content alike, the empty
    one included: exactly one row with that content, sender and
    conversation is appended to the messages, exactly one [new_message]
    envelope carrying it is published, nothing is emitted directly, and the
    handler returns normally.  The event is dropped, the handler
    returning without any effect, exactly on a connection that has no
    identity or the empty one, whatever the content. *)
Theorem C3_send_message_persists_any_content
    (sk : Handler.socket) (w : Handler.world)
    (u conversationId content : string) (now : Z) :
  Handler.authenticated_as sk w u →
  Prisma.hasConversation (Handler.db w) conversationId = true →
  let r := Handler.send_message conversationId content now sk w in
  (∃ message,
    Prisma.messages (Handler.db (Handler.r_world r))
    = Prisma.messages (Handler.db w) ++
      [{| Prisma.msg_id :=
            "msg-" +:+ pretty (length (Prisma.messages (Handler.db w)));
          Prisma.msg_content := content;
          Prisma.msg_senderId := u;
          Prisma.msg_conversationId := conversationId;
          Prisma.msg_createdAt := now |}]
    ∧ Redis.published (Handler.redis (Handler.r_world r))
      = Redis.published (Handler.redis w) ++
        [(Redis.NEW_MESSAGE, Redis.MessagePayload conversationId message)]
    ∧ Message.mws_content message = content
    ∧ Message.mws_senderId message = u
    ∧ Handler.r_emitted r = []
    ∧ Handler.r_outcome r = Handler.Returned)
  ∧ (∀ (other : Handler.socket) (c text : string),
       Handler.send_message c text now other w = Handler.dropped other w
       ↔ Handler.userId other = None
         ∨ Handler.userId other = Some EmptyString).
Proof.
  intros (Hu & Ht & [row Hrow]) Hconv. cbv zeta. split.
  - unfold Handler.send_message. rewrite Hu, Ht.
    destruct (createMessage_Some
                {| Message.in_content := content; Message.in_senderId := u;
                   Message.in_conversationId := conversationId |}
                now (Handler.db w) row Hconv Hrow)
      as (message & -> & Hcontent & Hsender & _).
    exists message. simpl. done.
  - intros other c text. unfold Handler.send_message, Handler.dropped.
    destruct (Handler.userId other) as [[|a uid]|]; cbn [Js.truthy].
    + split; [by right | done].
    + split; [|by intros [? | ?]].
      destruct (Message.createMessage _ _ _) as [[message db']|e];
        intros Heq.
      * apply (f_equal
                 (λ r, length
                         (Redis.published
                            (Handler.redis (Handler.r_world r))))) in Heq.
        cbn [Handler.r_world Handler.redis Redis.publishMessage
             Redis.published] in Heq.
        rewrite length_app in Heq. cbn [length] in Heq. lia.
      * apply (f_equal Handler.r_outcome) in Heq. discriminate.
    + split; [by left | done].
Qed.

Lemma C3_witness :
  ∃ message,
    Prisma.msg_content
    <$> Prisma.messages
          (Handler.db
             (Handler.r_world
                (Handler.send_message "conv-0" EmptyString 1000
                   Samples.alice_socket Samples.world0)))
    = [EmptyString]
    ∧ Redis.published
        (Handler.redis
           (Handler.r_world
              (Handler.send_message "conv-0" EmptyString 1000
                 Samples.alice_socket Samples.world0)))
      = [(Redis.NEW_MESSAGE, Redis.MessagePayload "conv-0" message)]
    ∧ Message.mws_content message = EmptyString.
Proof.
  destruct (C3_send_message_persists_any_content Samples.alice_socket
              Samples.world0 "u1" "conv-0" EmptyString 1000)
    as ((message & Hrows & Hpub & Hcontent & _) & _).
  - split; [reflexivity|]. split; [reflexivity|]. by eexists.
  - reflexivity.
  - exists message. rewrite Hrows, Hpub. done.
Defined.




(** C6.  On a connection authenticated as [u], [disconnect] takes [u] out
    of the online set (so [getOnlineUsers] does not list it), stores
    [isOnline = false] and [lastSeen = now] in the row of [u], and publishes
    exactly one envelope, [user_offline] for [u].  On a connection that was
    never authenticated it changes nothing and publishes nothing. *)
Theorem C6_disconnect_marks_offline
    (sk : Handler.socket) (w : Handler.world) (u : string) (now : Z) :
  Handler.authenticated_as sk w u →
  (let r := Handler.disconnect now sk w in
   (u ∉ Redis.online_users (Handler.redis (Handler.r_world r)))
   ∧ (u ∉ Redis.getOnlineUsers (Handler.redis (Handler.r_world r)))
   ∧ (∃ row,
        Prisma.users (Handler.db (Handler.r_world r)) !! u = Some row
        ∧ Prisma.user_isOnline row = false
        ∧ Prisma.user_lastSeen row = now)
   ∧ Redis.published (Handler.redis (Handler.r_world r))
     = Redis.published (Handler.redis w) ++
       [(Redis.USER_OFFLINE, Redis.UserPayload u)]
   ∧ Handler.r_outcome r = Handler.Returned)
  ∧ (∀ id rooms,
       let never :=
         {| Handler.socket_id := id; Handler.userId := None;
            Handler.username := None; Handler.rooms := rooms |} in
       Handler.disconnect now never w = Handler.dropped never w).
Proof.
  intros (Hu & Ht & [row Hrow]). split; [|done]. simpl.
  rewrite (disconnect_authenticated sk w u now row Hu Ht Hrow). simpl.
  repeat split.
  - apply (not_elem_of_offline u now).
  - unfold Redis.getOnlineUsers. rewrite elem_of_elements.
    apply (not_elem_of_offline u now).
  - eexists. split; [apply lookup_insert_eq|]. done.
Qed.

Lemma C6_witness :
  let w :=
    Handler.r_world
      (Handler.authenticate "u1" "Alice" 1 (Handler.fresh "s1") Samples.world0) in
  let r := Handler.disconnect 2 Samples.alice_socket w in
  ("u1" ∈ Redis.online_users (Handler.redis w))
  ∧ ("u1" ∉ Redis.online_users (Handler.redis (Handler.r_world r)))
  ∧ Redis.published (Handler.redis (Handler.r_world r))
    = Redis.published (Handler.redis w) ++
      [(Redis.USER_OFFLINE, Redis.UserPayload "u1")].
Proof.
  intros w r.
  destruct (C6_disconnect_marks_offline Samples.alice_socket w "u1" 2)
    as ((Hset & _ & _ & Hpub & _) & _).
  - split; [reflexivity|]. split; [reflexivity|]. by eexists.
  - split; [|split; [exact Hset | exact Hpub]].
    apply elem_of_union_l. by apply elem_of_singleton.
Defined.

(** C9.  Two different connections are bound to the same stored user [u].
    When the first one disconnects, [u] is taken out of the online set and
    [user_offline] for [u] is published, although the second connection is
    still open and still bound to [u]: presence is kept per user, not per
    connection. *)
Theorem C9_presence_not_counted_per_connection
    (s : Handler.server) (a b : string) (ska skb : Handler.socket)
    (u : string) (now : Z) :
  a ≠ b →
  Handler.connections s !! a = Some ska →
  Handler.connections s !! b = Some skb →
  Handler.authenticated_as ska (Handler.shared s) u →
  Handler.authenticated_as skb (Handler.shared s) u →
  let s' := Handler.receive a Handler.Disconnect now s in
  Handler.connections s' !! a = None
  ∧ Handler.connections s' !! b = Some skb
  ∧ Handler.userId skb = Some u
  ∧ (u ∉ Redis.online_users (Handler.redis (Handler.shared s')))
  ∧ Redis.published (Handler.redis (Handler.shared s'))
    = Redis.published (Handler.redis (Handler.shared s)) ++
      [(Redis.USER_OFFLINE, Redis.UserPayload u)].
Proof.
  intros Hab Ha Hb (Hua & Hta & [row Hrow]) (Hub & _). simpl.
  unfold Handler.receive. rewrite Ha. simpl.
  rewrite (disconnect_authenticated ska _ u now row Hua Hta Hrow). simpl.
  repeat split.
  - apply lookup_delete_eq.
  - by rewrite lookup_delete_ne.
  - done.
  - apply (not_elem_of_offline u now).
Qed.

Lemma C9_witness :
  let s :=
    Handler.receive_all
      [("s1", Handler.Authenticate "u1" "Alice", 1%Z);
       ("s2", Handler.Authenticate "u1" "Alice", 2%Z)]
      (Handler.connect "s2" (Handler.connect "s1" Samples.server0)) in
  let s' := Handler.receive "s1" Handler.Disconnect 3 s in
  ("u1" ∈ Redis.online_users (Handler.redis (Handler.shared s)))
  ∧ (Handler.userId <$> Handler.connections s' !! "s2") = Some (Some "u1")
  ∧ ("u1" ∉ Redis.online_users (Handler.redis (Handler.shared s'))).
Proof.
  intros s s'.
  destruct (C9_presence_not_counted_per_connection s "s1" "s2"
              {| Handler.socket_id := "s1"; Handler.userId := Some "u1";
                 Handler.username := Some "Alice"; Handler.rooms := ∅ |}
              {| Handler.socket_id := "s2"; Handler.userId := Some "u1";
                 Handler.username := Some "Alice"; Handler.rooms := ∅ |}
              "u1" 3)
    as (_ & Hb & _ & Hoff & _).
  - discriminate.
  - reflexivity.
  - reflexivity.
  - split; [reflexivity|]. split; [reflexivity|]. by eexists.
  - split; [reflexivity|]. split; [reflexivity|]. by eexists.
  - split; [|split; [|exact Hoff]].
    + apply elem_of_union_l. by apply elem_of_singleton.
    + subst s'. by rewrite Hb.
Defined.

(** ** Direct conversations *)

Section DirectConversations.
Import Js Prisma Message.

Lemma is_direct_sym a b c : is_direct a b c = is_direct b a c.
Proof.
  unfold is_direct. destruct (negb (conv_isGroup c)); simpl; [|done].
  apply andb_comm.
Qed.

Lemma find_ext {A} (p q : A → bool) (l : list A) :
  (∀ x, p x = q x) → List.find p l = List.find q l.
Proof.
  intros Hpq. induction l as [|x l IH]; simpl; [done|].
  by rewrite Hpq, IH.
Qed.

Lemma find_app_None {A} (p : A → bool) (l k : list A) :
  List.find p l = None → List.find p (l ++ k) = List.find p k.
Proof.
  induction l as [|x l IH]; simpl; [done|].
  destruct (p x); [done | apply IH].
Qed.

Lemma filter_find_None {A} (p : A → bool) (l : list A) :
  List.find p l = None → List.filter p l = [].
Proof.
  induction l as [|x l IH]; simpl; [done|].
  destruct (p x); [done | apply IH].
Qed.

Lemma filter_find_Some {A} (p : A → bool) (l : list A) x :
  List.find p l = Some x → 1 ≤ length (List.filter p l).
Proof.
  induction l as [|y l IH]; simpl; [done|].
  destruct (p y); simpl; [lia | apply IH].
Qed.

Lemma existsb_eqb_elem a (l : list string) :
  existsb (String.eqb a) l = true ↔ a ∈ l.
Proof.
  rewrite existsb_exists. split.
  - intros (x & Hin & Heq). apply String.eqb_eq in Heq as ->.
    by apply list_elem_of_In.
  - intros Hin. exists a. split; [by apply list_elem_of_In|].
    apply String.eqb_refl.
Qed.

Lemma is_direct_created a b u1 u2 d :
  is_direct a b (created u1 u2 d) = true → a ≠ b →
  (a = u1 ∧ b = u2) ∨ (a = u2 ∧ b = u1).
Proof.
  unfold is_direct. simpl. rewrite !orb_false_r.
  intros H Hab. apply andb_true_iff in H as [Ha Hb].
  apply orb_true_iff in Ha as [Ha|Ha]; apply String.eqb_eq in Ha;
    apply orb_true_iff in Hb as [Hb|Hb]; apply String.eqb_eq in Hb;
    subst; tauto.
Qed.

Lemma created_is_direct u1 u2 d :
  is_direct u1 u2 (created u1 u2 d) = true
  ∧ is_direct u2 u1 (created u1 u2 d) = true.
Proof.
  unfold is_direct. simpl. rewrite !String.eqb_refl, !orb_true_r. done.
Qed.

Lemma getOrCreate_cases u1 u2 d :
  is_Some (users d !! u1) → is_Some (users d !! u2) →
  (∃ existing,
      List.find (is_direct u1 u2) (conversations d) = Some existing
      ∧ getOrCreateDirectConversation u1 u2 d = Ok (conv_id existing, d))
  ∨ (List.find (is_direct u1 u2) (conversations d) = None
     ∧ getOrCreateDirectConversation u1 u2 d
       = Ok (conv_id (created u1 u2 d),
             {| users := users d; messages := messages d;
                conversations := conversations d ++ [created u1 u2 d] |})).
Proof.
  intros [r1 H1] [r2 H2]. unfold getOrCreateDirectConversation.
  destruct (List.find _ _) as [existing|] eqn:Hf.
  - left. by exists existing.
  - right. by rewrite H1, H2.
Qed.

Lemma getOrCreate_found u1 u2 d existing :
  List.find (is_direct u1 u2) (conversations d) = Some existing →
  getOrCreateDirectConversation u1 u2 d = Ok (conv_id existing, d)
  ∧ getOrCreateDirectConversation u2 u1 d = Ok (conv_id existing, d).
Proof.
  intros Hf. unfold getOrCreateDirectConversation.
  rewrite (find_ext (is_direct u2 u1) (is_direct u1 u2))
    by (intros; apply is_direct_sym).
  by rewrite Hf.
Qed.

Lemma unique_direct_created u1 u2 d :
  List.find (is_direct u1 u2) (conversations d) = None →
  Handler.unique_direct d →
  Handler.unique_direct
    {| users := users d; messages := messages d;
       conversations := conversations d ++ [created u1 u2 d] |}.
Proof.
  intros Hnone Hu a b Hab. simpl. rewrite List.filter_app, length_app. simpl.
  destruct (is_direct a b (created u1 u2 d)) eqn:Hd; simpl.
  - assert (List.filter (is_direct a b) (conversations d) = []) as ->; [|done].
    apply filter_find_None.
    destruct (is_direct_created a b u1 u2 d Hd Hab) as [[-> ->]|[-> ->]];
      [done|].
    rewrite (find_ext _ (is_direct u1 u2)); [done|].
    intros. apply is_direct_sym.
  - specialize (Hu a b Hab). lia.
Qed.

End DirectConversations.

(** Calls that run one after the other.  For two distinct stored users,
    [getOrCreateDirectConversation] returns a conversation id; called
    again on the resulting store, with the arguments in either order, it
    returns the same id and leaves the store as it is; and if the store
    had at most one direct conversation for every pair of distinct users
    before the first call, it still has afterwards, with exactly one for
    this pair. *)
Lemma calls_in_turn_agree
    (d : Prisma.store) (userId1 userId2 : string) :
  userId1 ≠ userId2 →
  is_Some (Prisma.users d !! userId1) →
  is_Some (Prisma.users d !! userId2) →
  ∃ id d1,
    Message.getOrCreateDirectConversation userId1 userId2 d = Js.Ok (id, d1)
    ∧ Message.getOrCreateDirectConversation userId2 userId1 d1 = Js.Ok (id, d1)
    ∧ Message.getOrCreateDirectConversation userId1 userId2 d1 = Js.Ok (id, d1)
    ∧ (Handler.unique_direct d →
       Handler.unique_direct d1
       ∧ length (List.filter (Message.is_direct userId1 userId2)
                   (Prisma.conversations d1)) = 1).
Proof.
  intros Hne H1 H2.
  destruct (getOrCreate_cases userId1 userId2 d H1 H2)
    as [(existing & Hf & ->)|(Hnone & ->)].
  - exists (Prisma.conv_id existing), d.
    destruct (getOrCreate_found userId1 userId2 d existing Hf) as [Ha Hb].
    repeat split; try done.
    pose proof (filter_find_Some _ _ _ Hf). specialize (H userId1 userId2 Hne).
    lia.
  - eexists _, _. split; [reflexivity|].
    assert (List.find (Message.is_direct userId1 userId2)
              (Prisma.conversations d ++ [Message.created userId1 userId2 d])
            = Some (Message.created userId1 userId2 d)) as Hf.
    { rewrite find_app_None by done. simpl.
      by rewrite (proj1 (created_is_direct userId1 userId2 d)). }
    destruct (getOrCreate_found userId1 userId2
                {| Prisma.users := Prisma.users d;
                   Prisma.messages := Prisma.messages d;
                   Prisma.conversations :=
                     Prisma.conversations d ++ [Message.created userId1 userId2 d] |}
                (Message.created userId1 userId2 d) Hf) as [Ha Hb].
    repeat split; try done.
    + by apply unique_direct_created.
    + simpl. rewrite List.filter_app, length_app, (filter_find_None _ _ Hnone).
      simpl. by rewrite (proj1 (created_is_direct userId1 userId2 d)).
Qed.

Lemma calls_in_turn_agree_for_alice_and_bob :
  ∃ id d1,
    Message.getOrCreateDirectConversation "u1" "u2" Samples.store_users
    = Js.Ok (id, d1)
    ∧ Message.getOrCreateDirectConversation "u2" "u1" d1 = Js.Ok (id, d1)
    ∧ Message.getOrCreateDirectConversation "u1" "u2" d1 = Js.Ok (id, d1)
    ∧ length (Prisma.conversations d1) = 1.
Proof.
  destruct (calls_in_turn_agree Samples.store_users "u1" "u2")
    as (id & d1 & Hfirst & Hsecond & Hthird & _).
  - discriminate.
  - by eexists.
  - by eexists.
  - exists id, d1. repeat split; try done.
    vm_compute in Hfirst. by injection Hfirst as <- <-.
Defined.

(** ** Calls that overlap *)

Section Overlap.
Import Js Prisma Message.

(** A call that runs alone goes through its two operations and ends as
    [getOrCreateDirectConversation] says. *)
Lemma advance_alone u1 u2 d :
  let (c1, d1) := advance (called u1 u2) d in
  let (c2, d2) := advance c1 d1 in
  match getOrCreateDirectConversation u1 u2 d with
  | Ok (id, d') => dc_at c2 = Settled (Resolved id) ∧ d2 = d'
  | Throw e => dc_at c2 = Settled (Rejected e) ∧ d2 = d
  end.
Proof.
  unfold getOrCreateDirectConversation, advance, called.
  cbn [dc_at dc_userId1 dc_userId2].
  destruct (List.find _ _) as [existing|]; cbn [dc_at dc_userId1 dc_userId2];
    [done|].
  by destruct (users d !! u1), (users d !! u2).
Qed.

Lemma advance_finds_none u1 u2 d :
  List.find (is_direct u1 u2) (conversations d) = None →
  advance (called u1 u2) d
  = ({| dc_userId1 := u1; dc_userId2 := u2; dc_at := AtCreate |}, d).
Proof.
  intros Hnone. unfold advance, called.
  cbn [dc_at dc_userId1 dc_userId2]. by rewrite Hnone.
Qed.

Lemma advance_finds_existing u1 u2 d existing :
  List.find (is_direct u1 u2) (conversations d) = Some existing →
  advance (called u1 u2) d
  = ({| dc_userId1 := u1; dc_userId2 := u2;
        dc_at := Settled (Resolved (conv_id existing)) |}, d).
Proof.
  intros Hsome. unfold advance, called.
  cbn [dc_at dc_userId1 dc_userId2]. by rewrite Hsome.
Qed.

Lemma advance_creates u1 u2 d :
  is_Some (users d !! u1) → is_Some (users d !! u2) →
  advance {| dc_userId1 := u1; dc_userId2 := u2; dc_at := AtCreate |} d
  = ({| dc_userId1 := u1; dc_userId2 := u2;
        dc_at := Settled (Resolved (conv_id (created u1 u2 d))) |},
     {| users := users d; messages := messages d;
        conversations := conversations d ++ [created u1 u2 d] |}).
Proof.
  intros [row1 H1] [row2 H2]. unfold advance.
  cbn [dc_at dc_userId1 dc_userId2]. by rewrite H1, H2.
Qed.

Lemma created_ids_differ u1 u2 v1 v2 d c :
  conv_id (created u1 u2 d)
  ≠ conv_id
      (created v1 v2
         {| users := users d; messages := messages d;
            conversations := conversations d ++ [c] |}).
Proof.
  unfold created. cbn [conv_id conversations]. rewrite length_app.
  cbn [length]. intros Heq.
  apply (inj (String.append "conv-")) in Heq.
  apply (inj pretty) in Heq. lia.
Qed.

End Overlap.

(** C2.  Two calls of [getOrCreateDirectConversation] for the same two
    users, who have no direct conversation yet, are in progress at the
    same time: the [findFirst] of the second completes before the
    [create] of the first.  Both find nothing and both create: the calls
    return two different ids, the store holds two direct conversations
    of the two users, and it no longer has at most one for every pair.
    Run one after the other from the same store, the two calls return
    one id and leave one conversation. *)
Theorem C2_overlapping_calls_create_two_conversations
    (d : Prisma.store) (userId1 userId2 : string) :
  userId1 ≠ userId2 →
  is_Some (Prisma.users d !! userId1) →
  is_Some (Prisma.users d !! userId2) →
  List.find (Message.is_direct userId1 userId2) (Prisma.conversations d)
  = None →
  (∃ id1 id2 d',
     Message.interleave [true; false; true; false]
       (Message.called userId1 userId2) (Message.called userId2 userId1) d
     = ({| Message.dc_userId1 := userId1; Message.dc_userId2 := userId2;
           Message.dc_at := Message.Settled (Js.Resolved id1) |},
        {| Message.dc_userId1 := userId2; Message.dc_userId2 := userId1;
           Message.dc_at := Message.Settled (Js.Resolved id2) |},
        d')
     ∧ id1 ≠ id2
     ∧ List.filter (Message.is_direct userId1 userId2)
                   (Prisma.conversations d')
       = [{| Prisma.conv_id := id1; Prisma.conv_isGroup := false;
             Prisma.conv_participants := [userId1; userId2] |};
          {| Prisma.conv_id := id2; Prisma.conv_isGroup := false;
             Prisma.conv_participants := [userId2; userId1] |}]
     ∧ ¬ Handler.unique_direct d')
  ∧ (∃ id d1,
       Message.interleave [true; true; false; false]
         (Message.called userId1 userId2) (Message.called userId2 userId1) d
       = ({| Message.dc_userId1 := userId1; Message.dc_userId2 := userId2;
             Message.dc_at := Message.Settled (Js.Resolved id) |},
          {| Message.dc_userId1 := userId2; Message.dc_userId2 := userId1;
             Message.dc_at := Message.Settled (Js.Resolved id) |},
          d1)
       ∧ List.filter (Message.is_direct userId1 userId2)
                     (Prisma.conversations d1)
         = [{| Prisma.conv_id := id; Prisma.conv_isGroup := false;
               Prisma.conv_participants := [userId1; userId2] |}]).
Proof.
  intros Hne Hu1 Hu2 Hnone.
  assert (List.find (Message.is_direct userId2 userId1) (Prisma.conversations d)
          = None) as Hnone'.
  { rewrite (find_ext _ (Message.is_direct userId1 userId2)); [done|].
    intros. apply is_direct_sym. }
  pose proof (created_is_direct userId1 userId2 d) as [Hc1 Hc1'].
  assert (∀ d0, Message.is_direct userId1 userId2
                  (Message.created userId2 userId1 d0) = true) as Hc2.
  { intros d0. apply (created_is_direct userId2 userId1 d0). }
  split.
  - eexists _, _, _. split; [|split; [|split]].
    + cbn [Message.interleave].
      rewrite (advance_finds_none userId1 userId2 d Hnone).
      rewrite (advance_finds_none userId2 userId1 d Hnone').
      rewrite (advance_creates userId1 userId2 d Hu1 Hu2).
      rewrite advance_creates by done. reflexivity.
    + apply created_ids_differ.
    + cbn [Prisma.conversations].
      rewrite <- app_assoc, List.filter_app, (filter_find_None _ _ Hnone).
      cbn [List.filter app]. rewrite Hc1, Hc2. reflexivity.
    + intros Hu. specialize (Hu userId1 userId2 Hne). revert Hu.
      cbn [Prisma.conversations].
      rewrite <- app_assoc, List.filter_app, (filter_find_None _ _ Hnone).
      cbn [List.filter app]. rewrite Hc1, Hc2. cbn [length]. lia.
  - eexists _, _. split.
    + cbn [Message.interleave].
      rewrite (advance_finds_none userId1 userId2 d Hnone).
      rewrite (advance_creates userId1 userId2 d Hu1 Hu2).
      rewrite (advance_finds_existing userId2 userId1 _
                 (Message.created userId1 userId2 d)).
      * reflexivity.
      * cbn [Prisma.conversations]. rewrite find_app_None by done.
        cbn [List.find]. by rewrite Hc1'.
    + cbn [Prisma.conversations].
      rewrite List.filter_app, (filter_find_None _ _ Hnone).
      cbn [List.filter app]. by rewrite Hc1.
Qed.

Lemma C2_witness :
  ∃ d',
    Message.interleave [true; false; true; false]
      (Message.called "u1" "u2") (Message.called "u2" "u1") Samples.store_group
    = ({| Message.dc_userId1 := "u1"; Message.dc_userId2 := "u2";
          Message.dc_at := Message.Settled (Js.Resolved "conv-2") |},
       {| Message.dc_userId1 := "u2"; Message.dc_userId2 := "u1";
          Message.dc_at := Message.Settled (Js.Resolved "conv-3") |},
       d')
    ∧ List.filter (Message.is_direct "u1" "u2") (Prisma.conversations d')
      = [{| Prisma.conv_id := "conv-2"; Prisma.conv_isGroup := false;
            Prisma.conv_participants := ["u1"; "u2"] |};
         {| Prisma.conv_id := "conv-3"; Prisma.conv_isGroup := false;
            Prisma.conv_participants := ["u2"; "u1"] |}]
    ∧ ¬ Handler.unique_direct d'.
Proof.
  destruct (C2_overlapping_calls_create_two_conversations
              Samples.store_group "u1" "u2")
    as ((id1 & id2 & d' & Hrun & _ & Hboth & Hnot) & _).
  - discriminate.
  - by eexists.
  - by eexists.
  - reflexivity.
  - vm_compute in Hrun. injection Hrun as <- <- <-.
    eexists. split; [reflexivity|]. split; [exact Hboth | exact Hnot].
Defined.

(** ** Message history *)

Section History.
Import Js Prisma Message Handler.

(** A row older than every row of a newest-first list goes last. *)
Lemma insert_desc_oldest m l :
  Forall (λ m', (msg_createdAt m < msg_createdAt m')%Z) l →
  insert_desc m l = l ++ [m].
Proof.
  induction 1 as [|m' l Hlt _ IH]; simpl; [done|].
  destruct (Z.ltb_spec (msg_createdAt m) (msg_createdAt m')); [|lia].
  by rewrite IH.
Qed.

(** Rows stored at increasing instants come back in reverse order. *)
Lemma orderBy_increasing l :
  increasing (msg_createdAt <$> l) = true →
  orderBy_createdAt_desc l = reverse l.
Proof.
  induction l as [|m l IH]; [done|].
  cbn [fmap list_fmap increasing]. intros H.
  apply andb_true_iff in H as [Hall Hinc].
  unfold orderBy_createdAt_desc in *. cbn [foldr].
  rewrite (IH Hinc), reverse_cons. apply insert_desc_oldest.
  apply Forall_reverse, Forall_forall. intros m' Hm'.
  rewrite forallb_forall in Hall. apply Z.ltb_lt, Hall.
  apply list_elem_of_In. by apply (list_elem_of_fmap_2 msg_createdAt).
Qed.

Lemma content_with_sender d (l : list Message) :
  Forall (λ m, is_Some (users d !! msg_senderId m)) l →
  mws_content <$> omap (with_sender d) l = msg_content <$> l.
Proof.
  induction 1 as [|m l [u Hu] _ IH]; [done|].
  cbn [omap list_omap]. unfold with_sender at 1. rewrite Hu.
  cbn [fmap list_fmap]. simpl. f_equal. exact IH.
Qed.

Lemma filter_Forall_id {A} (P : A → Prop) `{!∀ x, Decision (P x)} (l : list A) :
  Forall P l → filter P l = l.
Proof.
  induction 1 as [|x l Hx _ IH]; [done|].
  by rewrite filter_cons_True, IH.
Qed.

Lemma hasConversation_same_conversations d d' c :
  conversations d' = conversations d →
  hasConversation d' c = hasConversation d c.
Proof. unfold hasConversation. by intros ->. Qed.

Lemma send_message_stores sk w u c content now :
  authenticated_as sk w u → hasConversation (db w) c = true →
  ∃ row w',
    r_world (send_message c content now sk w) = w'
    ∧ messages (db w') = messages (db w) ++ [row]
    ∧ users (db w') = users (db w)
    ∧ conversations (db w') = conversations (db w)
    ∧ msg_content row = content
    ∧ msg_createdAt row = now
    ∧ msg_conversationId row = c
    ∧ msg_senderId row = u.
Proof.
  intros (Hu & Ht & [urow Hrow]) Hc. unfold send_message. rewrite Hu, Ht.
  destruct (createMessage_Some
              {| in_content := content; in_senderId := u;
                 in_conversationId := c |} now (db w) urow Hc Hrow)
    as (message & -> & _).
  eexists _, _. split; [reflexivity|]. simpl. done.
Qed.

(** What a run of sends leaves in the store. *)
Lemma send_all_rows c sends : ∀ w,
  hasConversation (db w) c = true →
  Forall (λ s, ∃ u, authenticated_as s.1.1 w u) sends →
  ∃ rows,
    messages (db (send_all c sends w)) = messages (db w) ++ rows
    ∧ users (db (send_all c sends w)) = users (db w)
    ∧ msg_content <$> rows = sent_contents sends
    ∧ msg_createdAt <$> rows = sent_times sends
    ∧ Forall (λ m, msg_conversationId m = c
                   ∧ is_Some (users (db w) !! msg_senderId m)) rows.
Proof.
  induction sends as [|[[sk content] now] sends IH]; intros w Hc Hall.
  - exists []. simpl. by rewrite app_nil_r.
  - apply Forall_cons in Hall as [(u & Hauth) Hall]. simpl in Hauth.
    destruct (send_message_stores sk w u c content now Hauth Hc)
      as (row & w1 & Hw1 & Hm1 & Hu1 & Hc1 & Hcontent & Hnow & Hconv & Hsender).
    cbn [send_all]. rewrite Hw1.
    destruct (IH w1) as (rows & Hrows & Husers & Hcont & Htimes & Hfa).
    + by rewrite (hasConversation_same_conversations (db w) (db w1)).
    + eapply Forall_impl; [exact Hall|]. intros s (u' & Hu' & Ht' & Hrow').
      exists u'. repeat split; [done..|]. by rewrite Hu1.
    + exists (row :: rows). rewrite Hrows, Husers, Hm1, Hu1, <- app_assoc.
      repeat split.
      * unfold sent_contents in *. cbn [fmap list_fmap]. simpl.
        by rewrite Hcont, Hcontent.
      * unfold sent_times in *. cbn [fmap list_fmap]. simpl.
        by rewrite Htimes, Hnow.
      * apply Forall_cons. split.
        -- split; [done|]. rewrite Hsender. by destruct Hauth as (_ & _ & ?).
        -- eapply Forall_impl; [exact Hfa|]. intros m [? ?].
           split; [done|]. by rewrite <- Hu1.
Qed.

Lemma history_of_increasing_rows d c limit rows :
  filter (λ m, msg_conversationId m = c) (messages d) = rows →
  increasing (msg_createdAt <$> rows) = true →
  Forall (λ m, is_Some (users d !! msg_senderId m)) rows →
  mws_content <$> getConversationMessages c limit None d
  = drop (length rows - limit) (msg_content <$> rows).
Proof.
  intros Hrows Hinc Hsenders. unfold getConversationMessages.
  rewrite Hrows, (orderBy_increasing rows Hinc), fmap_reverse.
  rewrite content_with_sender.
  - rewrite <- fmap_reverse, reverse_take, reverse_involutive.
    by rewrite length_reverse, fmap_drop.
  - apply Forall_take, Forall_reverse, Hsenders.
Qed.

End History.

(** C5 (the claim as stated fails).  Fifty-one messages are sent one after
    the other into an empty conversation and all of them are stored;
    [getConversationMessages], with its default limit, returns fifty of
    them: the page starts at the second message. *)
Lemma C5_counterexample :
  let sends := Samples.burst 51 in
  let d' := Handler.db (Handler.send_all "conv-0" sends Samples.world0) in
  let history :=
    Message.mws_content
    <$> Message.getConversationMessages "conv-0" Message.DEFAULT_LIMIT None d' in
  Prisma.msg_content <$> Prisma.messages d' = Handler.sent_contents sends
  ∧ history ≠ Handler.sent_contents sends
  ∧ length history = 50
  ∧ head history = Some "m1".
Proof. vm_compute. repeat split. discriminate. Defined.

(** C5 (amended).  Messages are sent one after the other, on connections
    bound to stored users, into an existing conversation that holds no
    message yet, and are created at increasing instants.  Then
    [getConversationMessages] with limit [limit] and no cursor returns the
    last [limit] of them, oldest first: the contents [c1..cN] without the
    first [N - limit]; in particular exactly [c1..cN] when [N <= limit]. *)
Theorem C5_history_is_latest_page_oldest_first
    (w : Handler.world) (conversationId : string)
    (sends : list (Handler.socket * string * Z)) (limit : nat) :
  Prisma.hasConversation (Handler.db w) conversationId = true →
  Forall (λ s, ∃ u, Handler.authenticated_as s.1.1 w u) sends →
  filter (λ m, Prisma.msg_conversationId m = conversationId)
         (Prisma.messages (Handler.db w)) = [] →
  Handler.increasing (Handler.sent_times sends) = true →
  let d' := Handler.db (Handler.send_all conversationId sends w) in
  let history :=
    Message.mws_content
    <$> Message.getConversationMessages conversationId limit None d' in
  history = drop (length sends - limit) (Handler.sent_contents sends)
  ∧ (length sends ≤ limit → history = Handler.sent_contents sends).
Proof.
  intros Hconv Hall Hempty Hinc d' history.
  destruct (send_all_rows conversationId sends w Hconv Hall)
    as (rows & Hrows & Husers & Hcont & Htimes & Hfa).
  assert (history = drop (length sends - limit) (Handler.sent_contents sends))
    as Hpage.
  { subst history d'.
    rewrite (history_of_increasing_rows _ conversationId limit rows).
    - assert (length rows = length sends) as ->.
      { rewrite <- (length_fmap Prisma.msg_content rows), Hcont.
        apply length_fmap. }
      by rewrite Hcont.
    - rewrite Hrows, filter_app, Hempty. simpl.
      apply filter_Forall_id. eapply Forall_impl; [exact Hfa|]. by intros m [? _].
    - by rewrite Htimes.
    - rewrite Husers. eapply Forall_impl; [exact Hfa|]. by intros m [_ ?]. }
  split; [exact Hpage|].
  intros Hle. rewrite Hpage.
  replace (length sends - limit) with 0 by lia. done.
Qed.

Lemma C5_witness :
  Message.mws_content
  <$> Message.getConversationMessages "conv-0" 2 None
        (Handler.db
           (Handler.send_all "conv-0" (Samples.burst 3) Samples.world0))
  = ["m1"; "m2"].
Proof.
  destruct (C5_history_is_latest_page_oldest_first Samples.world0 "conv-0"
              (Samples.burst 3) 2) as [Hpage _].
  - reflexivity.
  - repeat constructor; exists "u1";
      (split; [reflexivity|]; split; [reflexivity|]; by eexists).
  - reflexivity.
  - reflexivity.
  - exact Hpage.
Defined.

(** ** The handlers keep the store well formed *)

Section StoreInvariant.
Import Js Prisma Message Handler.

Lemma unique_direct_conversations d d' :
  conversations d' = conversations d → unique_direct d → unique_direct d'.
Proof. unfold unique_direct. by intros ->. Qed.

Lemma user_update_conversations id online t d d' :
  user_update id online t d = Ok d' → conversations d' = conversations d.
Proof.
  unfold user_update. destruct (users d !! id); [|done]. by intros [= <-].
Qed.

Lemma createMessage_conversations input now d message d' :
  createMessage input now d = Ok (message, d') →
  conversations d' = conversations d.
Proof.
  unfold createMessage. destruct (hasConversation _ _); [|done].
  destruct (with_sender _ _); [|done]. by intros [= _ <-].
Qed.

Lemma getOrCreate_unique_direct u1 u2 d id d' :
  getOrCreateDirectConversation u1 u2 d = Ok (id, d') →
  unique_direct d → unique_direct d'.
Proof.
  unfold getOrCreateDirectConversation.
  destruct (List.find _ _) as [existing|] eqn:Hf.
  - by intros [= _ <-].
  - destruct (users d !! u1); [|done]. destruct (users d !! u2); [|done].
    intros [= _ <-]. by apply unique_direct_created.
Qed.

Lemma handle_unique_direct ev now sk w :
  unique_direct (db w) → unique_direct (db (r_world (handle ev now sk w))).
Proof.
  intros Hu. destruct ev as [u n|c|c|c content|c b|t|]; simpl; try done.
  - unfold authenticate.
    destruct (user_update u true now (db w)) as [d'|] eqn:Hd; [|done].
    simpl. eapply unique_direct_conversations; [|exact Hu].
    by eapply user_update_conversations.
  - unfold send_message. destruct (userId sk) as [uid|]; [|done].
    destruct (truthy uid); [|done].
    destruct (createMessage _ _ _) as [[m d']|] eqn:Hd; [|done].
    simpl. eapply unique_direct_conversations; [|exact Hu].
    by eapply createMessage_conversations.
  - unfold start_direct. destruct (userId sk) as [uid|]; [|done].
    destruct (truthy uid); [|done].
    destruct (getOrCreateDirectConversation _ _ _) as [[id d']|] eqn:Hd; [|done].
    simpl. by eapply getOrCreate_unique_direct.
  - unfold disconnect. destruct (userId sk) as [uid|]; [|done].
    destruct (truthy uid); [|done].
    destruct (user_update uid false now (db w)) as [d'|] eqn:Hd; [|done].
    simpl. eapply unique_direct_conversations; [|exact Hu].
    by eapply user_update_conversations.
Qed.

(** Whatever arrives on the sockets, one event after the other, the store
    never holds two direct conversations for the same pair of users. *)
Lemma receive_all_unique_direct evs : ∀ s,
  unique_direct (db (shared s)) →
  unique_direct (db (shared (receive_all evs s))).
Proof.
  induction evs as [|[[id ev] now] evs IH]; intros s Hu; [done|].
  simpl. apply IH. unfold receive.
  destruct (connections s !! id) as [sk|]; [|done].
  simpl. by apply handle_unique_direct.
Qed.

(** A completed [authenticate] leaves the connection bound to a stored
    user who is listed as online. *)
Lemma authenticate_completes u n now sk w row :
  truthy u = true → users (db w) !! u = Some row →
  let r := authenticate u n now sk w in
  r_outcome r = Returned
  ∧ authenticated_as (r_socket r) (r_world r) u
  ∧ u ∈ Redis.getOnlineUsers (redis (r_world r))
  ∧ Redis.published (redis (r_world r))
    = Redis.published (redis w) ++ [(Redis.USER_ONLINE, Redis.UserPayload u)].
Proof.
  intros Ht Hrow. simpl. unfold authenticate.
  rewrite (user_update_Some _ _ _ _ row Hrow). simpl.
  repeat split; try done.
  - simpl. rewrite lookup_insert_eq. by eexists.
  - unfold Redis.getOnlineUsers. rewrite elem_of_elements. simpl.
    apply elem_of_union_l. by apply elem_of_singleton.
Qed.

(** An [authenticate] that names no stored user binds the socket all the
    same, and the handler ends in the exception of the update. *)
Lemma authenticate_unknown_user u n now sk w :
  users (db w) !! u = None →
  let r := authenticate u n now sk w in
  r_outcome r = Threw recordNotFound
  ∧ userId (r_socket r) = Some u
  ∧ r_world r = w
  ∧ r_emitted r = [].
Proof.
  intros Hnone. simpl. unfold authenticate, user_update. by rewrite Hnone.
Qed.

End StoreInvariant.

(** Alice and Bob authenticate, Alice starts a direct conversation with
    Bob, both join it and Alice says hi: the message is stored, published
    once, and every instance re-emits it to the room. *)
Example alice_says_hi :
  let s :=
    Handler.receive_all
      [("a", Handler.Authenticate "u1" "Alice", 1%Z);
       ("b", Handler.Authenticate "u2" "Bob", 2%Z);
       ("a", Handler.StartDirect "u2", 3%Z);
       ("a", Handler.JoinConversation "conv-0", 4%Z);
       ("b", Handler.JoinConversation "conv-0", 5%Z);
       ("a", Handler.SendMessage "conv-0" "hi", 6%Z)]
      (Handler.connect "b" (Handler.connect "a"
         {| Handler.connections := ∅;
            Handler.shared :=
              {| Handler.db := Samples.store_users;
                 Handler.redis := Redis.empty |};
            Handler.emitted := []; Handler.rejections := [] |})) in
  Handler.rejections s = []
  ∧ (Prisma.msg_content <$> Prisma.messages (Handler.db (Handler.shared s)))
    = ["hi"]
  ∧ (fst <$> Redis.published (Handler.redis (Handler.shared s)))
    = [Redis.USER_ONLINE; Redis.USER_ONLINE; Redis.NEW_MESSAGE]
  ∧ (match last (Redis.published (Handler.redis (Handler.shared s))) with
     | Some (ch, data) =>
         match Handler.onBackboneMessage ch data with
         | [Handler.ToRoom room (Handler.new_message m)] =>
             Some (room, Message.mws_content m, Message.mws_senderId m)
         | _ => None
         end
     | None => None
     end) = Some ("conv-0", "hi", "u1").
Proof. vm_compute. done. Qed.

(** A connection that never authenticated joins the conversation of Alice
    and Bob after Alice has written: it is sent what she wrote. *)
Example stranger_reads_history :
  let w :=
    Handler.r_world
      (Handler.send_message "conv-0" "for Bob only" 7
         Samples.alice_socket Samples.world0) in
  let r := Handler.join_conversation "conv-0" (Handler.fresh "s9") w in
  match Handler.r_emitted r with
  | [Handler.ToSelf (Handler.message_history c page)] =>
      Some (c, Message.mws_content <$> page)
  | _ => None
  end = Some ("conv-0", ["for Bob only"]).
Proof. vm_compute. reflexivity. Qed.

Section JoinedHistory.
Import Js Prisma Message Handler.



End JoinedHistory.



(** ** Rooms: who receives what *)

Section RoomMembership.
Import Js Handler Rooms.

Lemma elem_of_audience s room id :
  id ∈ audience s room
  ↔ ∃ sk, connections s !! id = Some sk ∧ room ∈ rooms sk.
Proof.
  unfold audience. rewrite elem_of_dom. unfold is_Some. split.
  - intros [sk Hsk]. apply map_lookup_filter_Some in Hsk as [Hsk Hroom].
    by exists sk.
  - intros (sk & Hsk & Hroom). exists sk. by apply map_lookup_filter_Some.
Qed.

(** Only [join_conversation] and [leave_conversation] change the rooms of
    a socket. *)
Lemma handle_rooms ev now sk w :
  rooms (r_socket (handle ev now sk w))
  = match ev with
    | JoinConversation c => {[c]} ∪ rooms sk
    | LeaveConversation c => rooms sk ∖ {[c]}
    | _ => rooms sk
    end.
Proof.
  destruct ev as [u n|c|c|c content|c b|t|]; simpl; try done.
  - unfold authenticate. by destruct (Prisma.user_update _ _ _ _).
  - unfold send_message. destruct (userId sk) as [uid|]; [|done].
    destruct (truthy uid); [|done].
    by destruct (Message.createMessage _ _ _) as [[m d']|].
  - unfold start_direct. destruct (userId sk) as [uid|]; [|done].
    destruct (truthy uid); [|done].
    by destruct (Message.getOrCreateDirectConversation _ _ _) as [[m d']|].
  - unfold disconnect. destruct (userId sk) as [uid|]; [|done].
    destruct (truthy uid); [|done].
    by destruct (Prisma.user_update _ _ _ _).
Qed.

Lemma receive_connections id ev now s sk :
  connections s !! id = Some sk →
  connections (receive id ev now s)
  = match ev with
    | Disconnect => delete id (connections s)
    | _ => <[id := r_socket (handle ev now sk (shared s))]> (connections s)
    end.
Proof. intros H. unfold receive. rewrite H. by destruct ev. Qed.

Lemma receive_absent id ev now s :
  connections s !! id = None → receive id ev now s = s.
Proof. intros H. unfold receive. by rewrite H. Qed.

Lemma audience_step id ev now s sk room :
  connections s !! id = Some sk →
  audience (receive id ev now s) room
  = audience_after id ev room (audience s room).
Proof.
  intros Hsk. apply set_eq. intros x.
  rewrite elem_of_audience, (receive_connections id ev now s sk Hsk).
  assert (∀ sk',
    rooms sk' = rooms (r_socket (handle ev now sk (shared s))) →
    (∃ sk0, <[id := sk']> (connections s) !! x = Some sk0 ∧ room ∈ rooms sk0)
    ↔ (x = id ∧ room ∈ rooms (r_socket (handle ev now sk (shared s))))
      ∨ (x ≠ id ∧ x ∈ audience s room)) as Hins.
  { intros sk' Hr. rewrite elem_of_audience.
    destruct (decide (x = id)) as [->|Hne].
    - rewrite lookup_insert_eq. split.
      + intros (sk0 & [= <-] & Hin). left. by rewrite <- Hr.
      + intros [[_ Hin]|[? _]]; [|done]. exists sk'. by rewrite Hr.
    - rewrite lookup_insert_ne by done. split.
      + intros H. by right.
      + by intros [[? _]|[_ H]]. }
  pose proof (handle_rooms ev now sk (shared s)) as Hrooms.
  assert (id ∈ audience s room ↔ room ∈ rooms sk) as Hid.
  { rewrite elem_of_audience. split.
    - intros (sk0 & Hsk0 & Hin). by simplify_eq.
    - intros Hin. by exists sk. }
  destruct ev as [u n|c|c|c content|c b|t|]; simpl audience_after;
    try (rewrite (Hins _ eq_refl), Hrooms;
         destruct (decide (x = id)) as [->|Hne]; tauto).
  - rewrite (Hins _ eq_refl), Hrooms.
    destruct (String.eqb_spec c room) as [->|Hc];
      rewrite ?elem_of_union, ?elem_of_singleton;
      destruct (decide (x = id)) as [->|Hne]; rewrite ?Hid;
      intuition congruence.
  - rewrite (Hins _ eq_refl), Hrooms.
    destruct (String.eqb_spec c room) as [->|Hc];
      rewrite ?elem_of_difference, ?elem_of_singleton;
      destruct (decide (x = id)) as [->|Hne]; rewrite ?Hid;
      intuition congruence.
  - rewrite elem_of_difference, elem_of_singleton, elem_of_audience.
    destruct (decide (x = id)) as [->|Hne].
    + rewrite lookup_delete_eq. split; [by intros (? & ? & _) | tauto].
    + rewrite lookup_delete_ne by done. tauto.
Qed.

Lemma receive_keeps_member id room id' ev now s :
  is_exit_on id room (id', ev, now) = false →
  id ∈ audience s room → id ∈ audience (receive id' ev now s) room.
Proof.
  intros Hev Hin.
  destruct (connections s !! id') as [sk'|] eqn:Hsk';
    [|by rewrite receive_absent].
  rewrite (audience_step id' ev now s sk' room Hsk').
  destruct ev as [u n|c|c|c content|c b|t|]; simpl in *; try done.
  - destruct (String.eqb c room); [|done]. by apply elem_of_union_r.
  - destruct (String.eqb_spec c room) as [->|Hc]; [|done].
    rewrite andb_true_r in Hev. apply String.eqb_neq in Hev.
    apply elem_of_difference. split; [done|]. rewrite elem_of_singleton.
    congruence.
  - apply String.eqb_neq in Hev.
    apply elem_of_difference. split; [done|]. rewrite elem_of_singleton.
    congruence.
Qed.

Lemma receive_keeps_absent id room id' ev now s :
  is_join_on id room (id', ev, now) = false →
  id ∉ audience s room → id ∉ audience (receive id' ev now s) room.
Proof.
  intros Hev Hin.
  destruct (connections s !! id') as [sk'|] eqn:Hsk';
    [|by rewrite receive_absent].
  rewrite (audience_step id' ev now s sk' room Hsk').
  destruct ev as [u n|c|c|c content|c b|t|]; simpl in *; try done.
  - destruct (String.eqb_spec c room) as [->|Hc]; [|done].
    rewrite andb_true_r in Hev. apply String.eqb_neq in Hev.
    rewrite elem_of_union, elem_of_singleton. intros [?|?]; congruence.
  - destruct (String.eqb c room); [|done].
    rewrite elem_of_difference. tauto.
  - rewrite elem_of_difference. tauto.
Qed.

End RoomMembership.

(** X1.  For an open connection, one handled event changes the audience
    of a room as the event says: [join_conversation] of that room adds
    the connection, [leave_conversation] of it and [disconnect] remove it,
    and every other event, also a join or leave of another room, leaves
    the audience as it is. *)
Theorem X1_audience_follows_the_event
    (s : Handler.server) (id : string) (sk : Handler.socket)
    (ev : Handler.inbound) (now : Z) (room : string) :
  Handler.connections s !! id = Some sk →
  Rooms.audience (Handler.receive id ev now s) room
  = Rooms.audience_after id ev room (Rooms.audience s room).
Proof. apply audience_step. Qed.

Lemma X1_witness :
  Rooms.audience
    (Handler.receive "a" (Handler.JoinConversation "conv-0") 3
       Cases.two_connected) "conv-0"
  = {["a"]} ∪ Rooms.audience Cases.two_connected "conv-0".
Proof.
  apply (X1_audience_follows_the_event Cases.two_connected "a" Cases.alice_on_a
           (Handler.JoinConversation "conv-0") 3 "conv-0").
  reflexivity.
Defined.

(** X2.  Once an open connection has joined a room it stays in the
    audience of that room, whatever is handled afterwards on any
    connection, as long as it neither leaves that room nor disconnects. *)
Theorem X2_joined_until_leave_or_disconnect
    (s : Handler.server) (id room : string) (sk : Handler.socket) (now : Z)
    (evs : list (string * Handler.inbound * Z)) :
  Handler.connections s !! id = Some sk →
  existsb (Rooms.is_exit_on id room) evs = false →
  id ∈ Rooms.audience
         (Handler.receive_all evs
            (Handler.receive id (Handler.JoinConversation room) now s)) room.
Proof.
  intros Hsk Hevs.
  assert (id ∈ Rooms.audience
                 (Handler.receive id (Handler.JoinConversation room) now s) room)
    as Hin.
  { rewrite (audience_step id _ now s sk room Hsk). simpl.
    rewrite String.eqb_refl. by apply elem_of_union_l, elem_of_singleton. }
  revert Hin Hevs.
  generalize (Handler.receive id (Handler.JoinConversation room) now s).
  induction evs as [|[[id' ev] t] evs IH]; intros s1 Hin Hevs; [done|].
  simpl in *. apply orb_false_iff in Hevs as [Hev Hevs].
  apply IH; [|done]. by apply receive_keeps_member.
Qed.

Lemma X2_witness :
  "a" ∈ Rooms.audience
          (Handler.receive_all
             [("b", Handler.JoinConversation "conv-0", 4%Z);
              ("b", Handler.LeaveConversation "conv-0", 5%Z);
              ("a", Handler.LeaveConversation "other", 6%Z);
              ("b", Handler.Disconnect, 7%Z)]
             (Handler.receive "a" (Handler.JoinConversation "conv-0") 3
                Cases.two_connected)) "conv-0".
Proof.
  apply (X2_joined_until_leave_or_disconnect Cases.two_connected "a" "conv-0"
           Cases.alice_on_a).
  - reflexivity.
  - reflexivity.
Defined.

(** X3.  After [leave_conversation] of a room, and after [disconnect], a
    connection is outside the audience of that room and stays outside,
    whatever is handled afterwards, until it joins the room again: a
    message re-emitted to the room does not reach it. *)
Theorem X3_out_after_leave_or_disconnect
    (s : Handler.server) (id room : string) (now : Z)
    (evs : list (string * Handler.inbound * Z)) :
  existsb (Rooms.is_join_on id room) evs = false →
  (id ∉ Rooms.audience
          (Handler.receive_all evs
             (Handler.receive id (Handler.LeaveConversation room) now s)) room)
  ∧ (id ∉ Rooms.audience
            (Handler.receive_all evs
               (Handler.receive id Handler.Disconnect now s)) room).
Proof.
  intros Hevs.
  assert (∀ s1, id ∉ Rooms.audience s1 room →
                id ∉ Rooms.audience (Handler.receive_all evs s1) room) as Hkeep.
  { revert Hevs. induction evs as [|[[id' ev] t] evs IH]; intros Hevs s1 Hout;
      [done|].
    simpl in *. apply orb_false_iff in Hevs as [Hev Hevs].
    apply IH; [done|]. by apply receive_keeps_absent. }
  assert (∀ ev, ev = Handler.LeaveConversation room ∨ ev = Handler.Disconnect →
                id ∉ Rooms.audience (Handler.receive id ev now s) room) as Hout.
  { intros ev Hev.
    destruct (Handler.connections s !! id) as [sk|] eqn:Hsk.
    - rewrite (audience_step id ev now s sk room Hsk).
      destruct Hev as [-> | ->]; simpl; rewrite ?String.eqb_refl;
        rewrite elem_of_difference, elem_of_singleton; tauto.
    - rewrite receive_absent by done. rewrite elem_of_audience.
      intros (sk & Hsk' & _). congruence. }
  split; apply Hkeep, Hout; [by left | by right].
Qed.

Lemma X3_witness :
  "a" ∉ Rooms.audience
          (Handler.receive_all
             [("b", Handler.JoinConversation "conv-0", 5%Z);
              ("a", Handler.JoinConversation "other", 6%Z);
              ("b", Handler.SendMessage "conv-0" "anyone?", 7%Z)]
             (Handler.receive "a" (Handler.LeaveConversation "conv-0") 4
                (Handler.receive "a" (Handler.JoinConversation "conv-0") 3
                   Cases.two_connected))) "conv-0".
Proof.
  destruct (X3_out_after_leave_or_disconnect
              (Handler.receive "a" (Handler.JoinConversation "conv-0") 3
                 Cases.two_connected) "a" "conv-0" 4
              [("b", Handler.JoinConversation "conv-0", 5%Z);
               ("a", Handler.JoinConversation "other", 6%Z);
               ("b", Handler.SendMessage "conv-0" "anyone?", 7%Z)])
    as [Hleft _].
  - reflexivity.
  - exact Hleft.
Defined.

(** ** What is published, and presence *)

Section Published.
Import Js Handler Shared.

Lemma createMessage_result input now d message d' :
  Message.createMessage input now d = Ok (message, d') →
  Message.mws_conversationId message = Message.in_conversationId input
  ∧ Message.mws_content message = Message.in_content input
  ∧ Message.mws_senderId message = Message.in_senderId input
  ∧ Prisma.users d' = Prisma.users d.
Proof.
  unfold Message.createMessage, Message.with_sender.
  destruct (Prisma.hasConversation _ _); [|done]. simpl.
  destruct (Prisma.users d !! _); [|done]. by intros [= <- <-].
Qed.

Lemma getOrCreate_users u1 u2 d id d' :
  Message.getOrCreateDirectConversation u1 u2 d = Ok (id, d') →
  Prisma.users d' = Prisma.users d ∧ Prisma.messages d' = Prisma.messages d.
Proof.
  unfold Message.getOrCreateDirectConversation.
  destruct (List.find _ _); [by intros [= _ <-]|].
  destruct (Prisma.users d !! u1); [|done].
  destruct (Prisma.users d !! u2); [|done]. by intros [= _ <-].
Qed.

(** One handled event appends to what was published, well-formed
    envelopes only, and the presence envelopes among them account for the
    change of the online set. *)
Lemma handle_news ev now sk w :
  ∃ news,
    Redis.published (redis (r_world (handle ev now sk w)))
    = Redis.published (redis w) ++ news
    ∧ forallb well_formed news = true
    ∧ Redis.online_users (redis (r_world (handle ev now sk w)))
      = foldl presence_step (Redis.online_users (redis w)) news.
Proof.
  assert (∃ news : list (Redis.channel * Redis.payload),
            Redis.published (redis w) = Redis.published (redis w) ++ news
            ∧ forallb well_formed news = true
            ∧ Redis.online_users (redis w)
              = foldl presence_step (Redis.online_users (redis w)) news)
    as Hnone by (exists []; by rewrite app_nil_r).
  destruct ev as [u n|c|c|c content|c b|t|]; simpl; try exact Hnone.
  - unfold authenticate.
    destruct (Prisma.user_update u true now (db w)); [|exact Hnone].
    by exists [(Redis.USER_ONLINE, Redis.UserPayload u)].
  - unfold send_message. destruct (userId sk) as [uid|]; [|exact Hnone].
    destruct (truthy uid); [|exact Hnone].
    destruct (Message.createMessage _ _ _) as [[m d']|] eqn:Hm; [|exact Hnone].
    exists [(Redis.NEW_MESSAGE, Redis.MessagePayload c m)]. simpl.
    apply createMessage_result in Hm as (-> & _). simpl.
    by rewrite String.eqb_refl.
  - unfold start_direct. destruct (userId sk) as [uid|]; [|exact Hnone].
    destruct (truthy uid); [|exact Hnone].
    by destruct (Message.getOrCreateDirectConversation _ _ _) as [[id d']|].
  - unfold disconnect. destruct (userId sk) as [uid|]; [|exact Hnone].
    destruct (truthy uid); [|exact Hnone].
    destruct (Prisma.user_update uid false now (db w)); [|exact Hnone].
    by exists [(Redis.USER_OFFLINE, Redis.UserPayload uid)].
Qed.

Lemma receive_news id ev now s :
  ∃ news,
    Redis.published (redis (shared (receive id ev now s)))
    = Redis.published (redis (shared s)) ++ news
    ∧ forallb well_formed news = true
    ∧ Redis.online_users (redis (shared (receive id ev now s)))
      = foldl presence_step (Redis.online_users (redis (shared s))) news.
Proof.
  unfold receive. destruct (connections s !! id) as [sk|].
  - simpl. apply handle_news.
  - exists []. by rewrite app_nil_r.
Qed.

Lemma receive_all_news evs : ∀ s,
  ∃ news,
    Redis.published (redis (shared (receive_all evs s)))
    = Redis.published (redis (shared s)) ++ news
    ∧ forallb well_formed news = true
    ∧ Redis.online_users (redis (shared (receive_all evs s)))
      = foldl presence_step (Redis.online_users (redis (shared s))) news.
Proof.
  induction evs as [|[[id ev] now] evs IH]; intros s.
  - exists []. by rewrite app_nil_r.
  - simpl. destruct (receive_news id ev now s) as (n1 & Hp1 & Hw1 & Ho1).
    destruct (IH (receive id ev now s)) as (n2 & Hp2 & Hw2 & Ho2).
    exists (n1 ++ n2). rewrite Hp2, Hp1, Ho2, Ho1, <- app_assoc.
    repeat split.
    + rewrite forallb_app. by rewrite Hw1, Hw2.
    + by rewrite foldl_app.
Qed.

Lemma published_during_news evs s news :
  Redis.published (redis (shared (receive_all evs s)))
  = Redis.published (redis (shared s)) ++ news →
  published_during evs s = news.
Proof. unfold published_during. intros ->. by rewrite drop_app_length. Qed.

Lemma handle_presence_agrees ev now sk w :
  presence_agrees w → presence_agrees (r_world (handle ev now sk w)).
Proof.
  intros Hw.
  assert (∀ u online t d',
    Prisma.user_update u online t (db w) = Ok d' →
    ∀ v, v ≠ u → Prisma.users d' !! v = Prisma.users (db w) !! v) as Hother.
  { intros u online t d' Hd v Hv. unfold Prisma.user_update in Hd.
    destruct (Prisma.users (db w) !! u); [|done]. injection Hd as <-.
    simpl. by rewrite lookup_insert_ne. }
  assert (∀ u online t d',
    Prisma.user_update u online t (db w) = Ok d' →
    ∃ row, Prisma.users d' !! u = Some row
           ∧ Prisma.user_isOnline row = online) as Hsame.
  { intros u online t d' Hd. unfold Prisma.user_update in Hd.
    destruct (Prisma.users (db w) !! u); [|done]. injection Hd as <-.
    simpl. rewrite lookup_insert_eq. by eexists. }
  destruct ev as [u n|c|c|c content|c b|t|]; simpl; try done.
  - unfold authenticate.
    destruct (Prisma.user_update u true now (db w)) as [d'|] eqn:Hd; [|done].
    intros v. simpl. rewrite elem_of_union, elem_of_singleton.
    destruct (decide (v = u)) as [->|Hv].
    + split; [|tauto]. intros _. by apply (Hsame _ _ _ _ Hd).
    + rewrite (Hother _ _ _ _ Hd v Hv), (Hw v). tauto.
  - unfold send_message. destruct (userId sk) as [uid|]; [|done].
    destruct (truthy uid); [|done].
    destruct (Message.createMessage _ _ _) as [[m d']|] eqn:Hm; [|done].
    apply createMessage_result in Hm as (_ & _ & _ & Hu).
    intros v. simpl. rewrite Hu. apply Hw.
  - unfold start_direct. destruct (userId sk) as [uid|]; [|done].
    destruct (truthy uid); [|done].
    destruct (Message.getOrCreateDirectConversation _ _ _) as [[id d']|] eqn:Hg;
      [|done].
    apply getOrCreate_users in Hg as [Hu _].
    intros v. simpl. rewrite Hu. apply Hw.
  - unfold disconnect. destruct (userId sk) as [uid|]; [|done].
    destruct (truthy uid); [|done].
    destruct (Prisma.user_update uid false now (db w)) as [d'|] eqn:Hd; [|done].
    intros v. simpl. rewrite elem_of_difference, elem_of_singleton.
    destruct (decide (v = uid)) as [->|Hv].
    + split; [tauto|]. intros (row & Hrow & Hon).
      destruct (Hsame _ _ _ _ Hd) as (row' & Hrow' & Hoff). congruence.
    + rewrite (Hother _ _ _ _ Hd v Hv), (Hw v). tauto.
Qed.

End Published.

(** X4.  Whatever events are handled, every envelope published meanwhile
    is a message on [new_message] addressed to the room of the message's
    own conversation, or a user id on [user_online] or [user_offline];
    nothing is ever published on the [typing] channel; and the subscriber
    re-emits each of them as exactly one event. *)
Theorem X4_published_envelopes_are_re_emitted_once
    (s : Handler.server) (evs : list (string * Handler.inbound * Z))
    (ch : Redis.channel) (data : Redis.payload) :
  (ch, data) ∈ Shared.published_during evs s →
  Shared.well_formed (ch, data) = true
  ∧ ch ≠ Redis.TYPING
  ∧ length (Handler.onBackboneMessage ch data) = 1
  ∧ (∀ c m, data = Redis.MessagePayload c m →
       Handler.onBackboneMessage ch data
       = [Handler.ToRoom (Message.mws_conversationId m) (Handler.new_message m)]).
Proof.
  destruct (receive_all_news evs s) as (news & Hp & Hwf & _).
  rewrite (published_during_news evs s news Hp). intros Hin.
  rewrite forallb_forall in Hwf.
  specialize (Hwf _ (proj1 (list_elem_of_In _ _) Hin)).
  split; [done|].
  destruct ch, data as [c m|u]; simpl in Hwf; try done.
  - apply String.eqb_eq in Hwf as <-. repeat split; [done|].
    by intros c' m' [= _ <-].
Qed.

Lemma X4_witness :
  length
    (Handler.onBackboneMessage Redis.USER_ONLINE (Redis.UserPayload "u2")) = 1.
Proof.
  apply (X4_published_envelopes_are_re_emitted_once
           (Handler.connect "b" (Handler.connect "a" Samples.server0))
           [("a", Handler.Authenticate "u1" "Alice", 1%Z);
            ("b", Handler.Authenticate "u2" "Bob", 2%Z)]
           Redis.USER_ONLINE (Redis.UserPayload "u2")).
  vm_compute. apply list_elem_of_In. right. left. reflexivity.
Defined.

(** X5.  If the Redis set of online users agrees with the [isOnline]
    column of the user rows (a user is in the set exactly when the row
    says online), it still does after any events have been handled:
    [authenticate] and [disconnect] change the two together and nothing
    else changes either. *)
Theorem X5_online_set_agrees_with_isOnline
    (s : Handler.server) (evs : list (string * Handler.inbound * Z)) :
  Shared.presence_agrees (Handler.shared s) →
  Shared.presence_agrees (Handler.shared (Handler.receive_all evs s)).
Proof.
  revert s. induction evs as [|[[id ev] now] evs IH]; intros s Hs; [done|].
  simpl. apply IH. unfold Handler.receive.
  destruct (Handler.connections s !! id) as [sk|]; [|done].
  simpl. by apply handle_presence_agrees.
Qed.

Lemma X5_witness :
  Shared.presence_agrees
    (Handler.shared
       (Handler.receive_all
          [("a", Handler.Authenticate "u1" "Alice", 1%Z);
           ("a", Handler.Disconnect, 2%Z)]
          (Handler.connect "a" Samples.server0))).
Proof.
  apply X5_online_set_agrees_with_isOnline.
  intros u. simpl. split.
  - intros H. by apply not_elem_of_empty in H.
  - intros (row & Hrow & Hon).
    apply lookup_insert_Some in Hrow as [[_ <-]|[_ Hrow]]; [done|].
    apply lookup_insert_Some in Hrow as [[_ <-]|[_ Hrow]]; [done|].
    by rewrite lookup_empty in Hrow.
Defined.

(** X6.  A [send_message] on a connection bound to a stored user, into an
    existing conversation, publishes one envelope; the subscriber turns
    it into one [new_message] for that room, carrying the content and the
    sender's id; it reaches exactly the connections joined to the room,
    the sender among them only if it has joined; the handler itself emits
    nothing. *)
Theorem X6_send_message_reaches_the_room
    (s : Handler.server) (id : string) (sk : Handler.socket)
    (u room content : string) (now : Z) :
  Handler.connections s !! id = Some sk →
  Handler.authenticated_as sk (Handler.shared s) u →
  Prisma.hasConversation (Handler.db (Handler.shared s)) room = true →
  let s' := Handler.receive id (Handler.SendMessage room content) now s in
  ∃ m,
    Shared.published_during [(id, Handler.SendMessage room content, now)] s
    = [(Redis.NEW_MESSAGE, Redis.MessagePayload room m)]
    ∧ Message.mws_content m = content
    ∧ Message.mws_senderId m = u
    ∧ Handler.onBackboneMessage Redis.NEW_MESSAGE (Redis.MessagePayload room m)
      = [Handler.ToRoom room (Handler.new_message m)]
    ∧ Rooms.recipients s' id (Handler.ToRoom room (Handler.new_message m))
      = Rooms.audience s room
    ∧ (id ∈ Rooms.audience s room ↔ room ∈ Handler.rooms sk)
    ∧ Handler.emitted s' = Handler.emitted s.
Proof.
  intros Hsk (Hu & Ht & [row Hrow]) Hconv s'.
  destruct (createMessage_Some
              {| Message.in_content := content; Message.in_senderId := u;
                 Message.in_conversationId := room |}
              now (Handler.db (Handler.shared s)) row Hconv Hrow)
    as (m & Hm & Hcontent & Hsender & _).
  assert (∃ d',
            Handler.send_message room content now sk (Handler.shared s)
            = {| Handler.r_socket := sk;
                 Handler.r_world :=
                   {| Handler.db := d';
                      Handler.redis :=
                        Redis.publishMessage Redis.NEW_MESSAGE
                          (Redis.MessagePayload room m)
                          (Handler.redis (Handler.shared s)) |};
                 Handler.r_emitted := [];
                 Handler.r_outcome := Handler.Returned |}) as [d' Hsend].
  { eexists. unfold Handler.send_message. by rewrite Hu, Ht, Hm. }
  exists m. repeat split; try done.
  - apply published_during_news. simpl. unfold Handler.receive.
    rewrite Hsk. simpl. by rewrite Hsend.
  - simpl. subst s'. by rewrite (audience_step id _ now s sk room Hsk).
  - rewrite elem_of_audience. intros (sk0 & Hsk0 & Hin). by simplify_eq.
  - intros Hin. apply elem_of_audience. by exists sk.
  - subst s'. unfold Handler.receive. rewrite Hsk. simpl. rewrite Hsend.
    simpl. by rewrite app_nil_r.
Qed.

Lemma X6_witness :
  ∃ m,
    Shared.published_during
      [("a", Handler.SendMessage "conv-0" "hi", 9%Z)]
      (Handler.receive "b" (Handler.JoinConversation "conv-0") 3
         Cases.two_connected)
    = [(Redis.NEW_MESSAGE, Redis.MessagePayload "conv-0" m)]
    ∧ Message.mws_content m = "hi"
    ∧ Rooms.recipients
        (Handler.receive "a" (Handler.SendMessage "conv-0" "hi") 9
           (Handler.receive "b" (Handler.JoinConversation "conv-0") 3
              Cases.two_connected))
        "a" (Handler.ToRoom "conv-0" (Handler.new_message m))
      = Rooms.audience
          (Handler.receive "b" (Handler.JoinConversation "conv-0") 3
             Cases.two_connected) "conv-0".
Proof.
  destruct (X6_send_message_reaches_the_room
              (Handler.receive "b" (Handler.JoinConversation "conv-0") 3
                 Cases.two_connected)
              "a" Cases.alice_on_a "u1" "conv-0" "hi" 9)
    as (m & Hpub & Hcontent & _ & _ & Hrec & _).
  - reflexivity.
  - split; [reflexivity|]. split; [reflexivity|]. by eexists.
  - reflexivity.
  - exists m. by repeat split.
Defined.

(** ** The client's view *)

Section ClientView.
Import Js Handler Shared.



Lemma on_all_new_messages ms : ∀ h,
  Client.messages (Client.state (Client.on_all (new_message <$> ms) h))
  = Client.messages (Client.state h) ++ ms.
Proof.
  induction ms as [|m ms IH]; intros h; simpl.
  - by rewrite app_nil_r.
  - unfold Client.on_all in *. rewrite IH. simpl. by rewrite <- app_assoc.
Qed.

End ClientView.



(** X8.  [joinConversation] empties the list of displayed messages and,
    when the hook holds a socket, asks the server for the room.  A
    [message_history] for another conversation than the current one is
    ignored; the one for the current conversation replaces the list, so a
    [new_message] that came before it is no longer shown; every later
    [new_message] is appended, whichever conversation it belongs to.
    After [leaveConversation] every [message_history] is ignored. *)
Theorem X8_client_shows_history_then_new_messages
    (h : Client.hook) (current other : string)
    (stale history later : list Message.MessageWithSender)
    (early : Message.MessageWithSender) :
  other ≠ current →
  let joined := Client.joinConversation current h in
  Client.messages (Client.state joined) = []
  ∧ Client.outbox joined
    = (if Client.socketRef h
       then Client.outbox h ++ [Handler.JoinConversation current]
       else Client.outbox h)
  ∧ Client.on (Handler.message_history other stale) joined = joined
  ∧ Client.messages
      (Client.state
         (Client.on_all
            (Handler.new_message early
             :: Handler.message_history other stale
             :: Handler.message_history current history
             :: (Handler.new_message <$> later))
            joined))
    = history ++ later
  ∧ (∀ c msgs,
       Client.on (Handler.message_history c msgs)
         (Client.leaveConversation current joined)
       = Client.leaveConversation current joined).
Proof.
  intros Hne joined. apply String.eqb_neq in Hne.
  subst joined. unfold Client.joinConversation, Client.leaveConversation,
    Client.emit.
  cbn [Client.socketRef Client.state Client.outbox Client.currentConversation].
  destruct (Client.socketRef h); cbn.
  - repeat split.
    + by rewrite Hne.
    + unfold Client.on_all. cbn. rewrite Hne. cbn.
      rewrite String.eqb_refl.
      exact (on_all_new_messages later _).
  - repeat split.
    + by rewrite Hne.
    + unfold Client.on_all. cbn. rewrite Hne. cbn.
      rewrite String.eqb_refl.
      exact (on_all_new_messages later _).
Qed.

Lemma X8_witness :
  Client.on (Handler.message_history "conv-9" []) 
    (Client.joinConversation "conv-0" Client.initial)
  = Client.joinConversation "conv-0" Client.initial.
Proof.
  apply (X8_client_shows_history_then_new_messages Client.initial
           "conv-0" "conv-9" [] [] []
           {| Message.mws_id := "msg-0"; Message.mws_content := "x";
              Message.mws_senderId := "u1";
              Message.mws_conversationId := "conv-0";
              Message.mws_createdAt := 1;
              Message.mws_sender :=
                {| Message.sender_id := "u1";
                   Message.sender_username := "Alice";
                   Message.sender_avatar := None |} |}).
  discriminate.
Defined.

(** ** Pages of history and the conversations behind them *)

Section Pages.
Import Js Prisma Message Handler.

Lemma after_cursor_found cursor pre m post :
  Forall (λ x, msg_id x ≠ cursor) pre → msg_id m = cursor →
  after_cursor cursor (pre ++ m :: post) = post.
Proof.
  intros Hpre Hm. induction Hpre as [|x pre Hx _ IH]; simpl.
  - by rewrite Hm, String.eqb_refl.
  - apply String.eqb_neq in Hx. by rewrite Hx.
Qed.

(** In rows with distinct ids, the rows after the cursor row, newest
    first, are the rows before it in the order of creation. *)
Lemma after_cursor_reverse rows k m :
  NoDup (msg_id <$> rows) → rows !! k = Some m →
  after_cursor (msg_id m) (reverse rows) = reverse (take k rows).
Proof.
  intros Hnd Hk.
  rewrite <- (take_drop_middle rows k m Hk) at 1.
  rewrite reverse_app, reverse_cons, <- app_assoc. simpl.
  apply after_cursor_found; [|done].
  apply Forall_reverse, Forall_forall. intros x Hx Heq.
  rewrite <- (take_drop_middle rows k m Hk) in Hnd.
  rewrite fmap_app, fmap_cons in Hnd.
  apply NoDup_app in Hnd as (_ & _ & Hnd).
  apply NoDup_cons in Hnd as [Hnotin _].
  apply Hnotin. rewrite <- Heq. by apply list_elem_of_fmap_2.
Qed.

Lemma page_before d c limit rows k m :
  filter (λ x, msg_conversationId x = c) (messages d) = rows →
  increasing (msg_createdAt <$> rows) = true →
  NoDup (msg_id <$> rows) →
  Forall (λ x, is_Some (users d !! msg_senderId x)) rows →
  rows !! k = Some m → truthy (msg_id m) = true →
  mws_content <$> getConversationMessages c limit (Some (msg_id m)) d
  = msg_content <$> drop (k - limit) (take k rows).
Proof.
  intros Hrows Hinc Hnd Hsenders Hk Ht. unfold getConversationMessages.
  rewrite Hrows, Ht, (orderBy_increasing rows Hinc).
  rewrite (after_cursor_reverse rows k m Hnd Hk), fmap_reverse.
  rewrite content_with_sender.
  - rewrite <- fmap_reverse, reverse_take, reverse_involutive.
    rewrite length_reverse, length_take.
    apply lookup_lt_Some in Hk.
    by replace (k `min` length rows) with k by lia.
  - apply Forall_take, Forall_reverse, Forall_take, Hsenders.
Qed.

(** The sender fields joined to a message do not depend on the presence
    columns of the user row. *)
Lemma with_sender_user_update id online t d d' m :
  user_update id online t d = Ok d' → with_sender d' m = with_sender d m.
Proof.
  unfold user_update. destruct (users d !! id) as [u|] eqn:Hu; [|done].
  intros [= <-]. unfold with_sender. simpl.
  destruct (decide (msg_senderId m = id)) as [->|Hne].
  - by rewrite lookup_insert_eq, Hu.
  - by rewrite lookup_insert_ne.
Qed.

Lemma history_same_rows c limit cursor d d' :
  filter (λ x, msg_conversationId x = c) (messages d')
  = filter (λ x, msg_conversationId x = c) (messages d) →
  (∀ m, with_sender d' m = with_sender d m) →
  getConversationMessages c limit cursor d'
  = getConversationMessages c limit cursor d.
Proof.
  intros Hrows Hws. unfold getConversationMessages. rewrite Hrows.
  f_equal. generalize (take limit
    match cursor with
    | Some c0 =>
        if truthy c0
        then after_cursor c0
               (orderBy_createdAt_desc
                  (filter (λ x, msg_conversationId x = c) (messages d)))
        else orderBy_createdAt_desc
               (filter (λ x, msg_conversationId x = c) (messages d))
    | None =>
        orderBy_createdAt_desc
          (filter (λ x, msg_conversationId x = c) (messages d))
    end).
  intros l. induction l as [|m l IH]; [done|].
  cbn [omap list_omap]. by rewrite Hws, IH.
Qed.

(** The history of a conversation changes only with a [send_message]
    into it. *)
Lemma handle_history ev now sk w c limit cursor :
  (∀ content, ev ≠ SendMessage c content) →
  getConversationMessages c limit cursor (db (r_world (handle ev now sk w)))
  = getConversationMessages c limit cursor (db w).
Proof.
  intros Hev. destruct ev as [u n|c0|c0|c0 content|c0 b|t|]; simpl; try done.
  - unfold authenticate.
    destruct (user_update u true now (db w)) as [d'|] eqn:Hd; [|done].
    simpl. apply history_same_rows.
    + unfold user_update in Hd. destruct (users (db w) !! u); [|done].
      by injection Hd as <-.
    + intros m. by eapply with_sender_user_update.
  - unfold send_message. destruct (userId sk) as [uid|]; [|done].
    destruct (truthy uid); [|done].
    destruct (createMessage _ _ _) as [[m d']|] eqn:Hm; [|done].
    simpl. assert (c0 ≠ c) as Hc by (intros ->; by apply (Hev content)).
    unfold createMessage in Hm.
    destruct (hasConversation _ _); [|done].
    destruct (with_sender (db w) _); [|done]. injection Hm as _ <-.
    apply history_same_rows; [|done].
    simpl. rewrite filter_app, filter_cons_False, filter_nil, app_nil_r; done.
  - unfold start_direct. destruct (userId sk) as [uid|]; [|done].
    destruct (truthy uid); [|done].
    destruct (getOrCreateDirectConversation _ _ _) as [[id d']|] eqn:Hg; [|done].
    simpl. apply getOrCreate_users in Hg as [Hu Hmsgs].
    apply history_same_rows; [by rewrite Hmsgs|].
    intros m. unfold with_sender. by rewrite Hu.
  - unfold disconnect. destruct (userId sk) as [uid|]; [|done].
    destruct (truthy uid); [|done].
    destruct (user_update uid false now (db w)) as [d'|] eqn:Hd; [|done].
    simpl. apply history_same_rows.
    + unfold user_update in Hd. destruct (users (db w) !! uid); [|done].
      by injection Hd as <-.
    + intros m. by eapply with_sender_user_update.
Qed.

Lemma existsb_eqb_In a (l : list string) :
  existsb (String.eqb a) l = true → a ∈ l.
Proof.
  intros H. apply existsb_exists in H as (x & Hin & Heq).
  apply String.eqb_eq in Heq as ->. by apply list_elem_of_In.
Qed.

End Pages.

(** X9.  The messages of a conversation were created at increasing
    instants, have distinct ids and stored senders.  Then
    [getConversationMessages] with the id of one of them as cursor returns
    the [limit] messages that come just before it, oldest first; put in
    front of the messages from the cursor on, they continue the history
    without a gap and without a message twice. *)
Theorem X9_cursor_page_continues_the_history
    (d : Prisma.store) (conversationId : string) (limit : nat)
    (rows : list Prisma.Message) (k : nat) (m : Prisma.Message) :
  filter (λ x, Prisma.msg_conversationId x = conversationId)
         (Prisma.messages d) = rows →
  Handler.increasing (Prisma.msg_createdAt <$> rows) = true →
  NoDup (Prisma.msg_id <$> rows) →
  Forall (λ x, is_Some (Prisma.users d !! Prisma.msg_senderId x)) rows →
  rows !! k = Some m →
  Js.truthy (Prisma.msg_id m) = true →
  let page :=
    Message.mws_content
    <$> Message.getConversationMessages conversationId limit
          (Some (Prisma.msg_id m)) d in
  page = Prisma.msg_content <$> drop (k - limit) (take k rows)
  ∧ length page = k `min` limit
  ∧ page ++ (Prisma.msg_content <$> drop k rows)
    = Prisma.msg_content <$> drop (k - limit) rows.
Proof.
  intros Hrows Hinc Hnd Hsenders Hk Ht page.
  assert (page = Prisma.msg_content <$> drop (k - limit) (take k rows)) as Hpage
    by (by apply page_before).
  apply lookup_lt_Some in Hk.
  split; [done|]. split.
  - rewrite Hpage, length_fmap, length_drop, length_take. lia.
  - rewrite Hpage, <- fmap_app. f_equal.
    rewrite <- (take_drop k rows) at 3.
    rewrite drop_app_le by (rewrite length_take; lia). done.
Qed.

Lemma X9_witness :
  Message.mws_content
  <$> Message.getConversationMessages "conv-0" 2 (Some "msg-3")
        (Handler.db (Handler.send_all "conv-0" (Samples.burst 5) Samples.world0))
  = ["m1"; "m2"].
Proof.
  destruct (X9_cursor_page_continues_the_history
              (Handler.db
                 (Handler.send_all "conv-0" (Samples.burst 5) Samples.world0))
              "conv-0" 2
              (Prisma.messages
                 (Handler.db
                    (Handler.send_all "conv-0" (Samples.burst 5) Samples.world0)))
              3
              {| Prisma.msg_id := "msg-3"; Prisma.msg_content := "m3";
                 Prisma.msg_senderId := "u1";
                 Prisma.msg_conversationId := "conv-0";
                 Prisma.msg_createdAt := 4 |}) as [Hpage _].
  - reflexivity.
  - reflexivity.
  - apply (bool_decide_unpack _). vm_compute. exact I.
  - apply (bool_decide_unpack _). vm_compute. exact I.
  - reflexivity.
  - reflexivity.
  - exact Hpage.
Defined.

(** X10.  The page that [getConversationMessages] returns for a
    conversation, with any limit and cursor, is the same before and after
    any handled event that is not a [send_message] into that very
    conversation: messages sent elsewhere, presence updates and new
    direct conversations do not show in it. *)
Theorem X10_history_changes_only_by_send_into_it
    (ev : Handler.inbound) (now : Z) (sk : Handler.socket) (w : Handler.world)
    (conversationId : string) (limit : nat) (cursor : option string) :
  (∀ content, ev ≠ Handler.SendMessage conversationId content) →
  Message.getConversationMessages conversationId limit cursor
    (Handler.db (Handler.r_world (Handler.handle ev now sk w)))
  = Message.getConversationMessages conversationId limit cursor (Handler.db w).
Proof. apply handle_history. Qed.

Lemma X10_witness :
  Message.getConversationMessages "conv-0" 50 None
    (Handler.db
       (Handler.r_world
          (Handler.handle (Handler.Authenticate "u2" "Bob") 9
             (Handler.fresh "b")
             (Handler.send_all "conv-0" (Samples.burst 2) Samples.world0))))
  = Message.getConversationMessages "conv-0" 50 None
      (Handler.db (Handler.send_all "conv-0" (Samples.burst 2) Samples.world0)).
Proof.
  apply (X10_history_changes_only_by_send_into_it
           (Handler.Authenticate "u2" "Bob") 9 (Handler.fresh "b")).
  discriminate.
Defined.

(** X11.  Whenever [getOrCreateDirectConversation] returns an id, the
    store it leaves holds a conversation with that id that is no group
    and has both users among its participants; the conversations that
    were there are still there, in front of at most one new one, and
    users and messages are untouched. *)
Theorem X11_direct_conversation_result
    (userId1 userId2 : string) (d d' : Prisma.store) (id : string) :
  Message.getOrCreateDirectConversation userId1 userId2 d = Js.Ok (id, d') →
  (∃ c, c ∈ Prisma.conversations d'
        ∧ Prisma.conv_id c = id
        ∧ Prisma.conv_isGroup c = false
        ∧ userId1 ∈ Prisma.conv_participants c
        ∧ userId2 ∈ Prisma.conv_participants c)
  ∧ Prisma.conversations d `prefix_of` Prisma.conversations d'
  ∧ length (Prisma.conversations d') ≤ S (length (Prisma.conversations d))
  ∧ Prisma.users d' = Prisma.users d
  ∧ Prisma.messages d' = Prisma.messages d.
Proof.
  unfold Message.getOrCreateDirectConversation.
  destruct (List.find _ _) as [existing|] eqn:Hf.
  - intros [= <- <-]. apply find_some in Hf as [Hin Hd].
    unfold Message.is_direct in Hd.
    apply andb_true_iff in Hd as [Hd H2]. apply andb_true_iff in Hd as [Hg H1].
    split; [|repeat split; [done | lia]].
    exists existing. repeat split.
    + by apply list_elem_of_In.
    + by destruct (Prisma.conv_isGroup existing).
    + by apply existsb_eqb_In.
    + by apply existsb_eqb_In.
  - destruct (Prisma.users d !! userId1); [|done].
    destruct (Prisma.users d !! userId2); [|done].
    intros [= <- <-]. simpl. split; [|repeat split].
    + exists (Message.created userId1 userId2 d). repeat split.
      * apply elem_of_app. right. by apply list_elem_of_singleton.
      * simpl. by left.
      * simpl. right. by left.
    + by apply prefix_app_r.
    + rewrite length_app. simpl. lia.
Qed.

Lemma X11_witness :
  ∃ c, c ∈ Prisma.conversations Samples.store0
       ∧ Prisma.conv_id c = "conv-0"
       ∧ Prisma.conv_isGroup c = false
       ∧ "u2" ∈ Prisma.conv_participants c
       ∧ "u1" ∈ Prisma.conv_participants c.
Proof.
  apply (X11_direct_conversation_result "u2" "u1" Samples.store0
           Samples.store0 "conv-0").
  reflexivity.
Defined.

(** X12.  A connection bound to user [u] asks for a direct conversation
    with [u] itself while [u] already takes part in some direct
    conversation.  Nothing is created: the handler answers with the id of
    one of the direct conversations [u] has with somebody, the first in
    the store, and the store is left as it is. *)
Theorem X12_start_direct_with_oneself
    (sk : Handler.socket) (w : Handler.world) (u : string)
    (c : Prisma.Conversation) :
  Handler.userId sk = Some u →
  Js.truthy u = true →
  c ∈ Prisma.conversations (Handler.db w) →
  Prisma.conv_isGroup c = false →
  u ∈ Prisma.conv_participants c →
  ∃ c',
    List.find (λ x, negb (Prisma.conv_isGroup x)
                    && existsb (String.eqb u) (Prisma.conv_participants x))
              (Prisma.conversations (Handler.db w)) = Some c'
    ∧ Handler.start_direct u sk w
      = {| Handler.r_socket := sk; Handler.r_world := w;
           Handler.r_emitted :=
             [Handler.ToSelf (Handler.conversation_started (Prisma.conv_id c'))];
           Handler.r_outcome := Handler.Returned |}.
Proof.
  intros Hu Ht Hin Hg Hp.
  assert (∀ x, Message.is_direct u u x
               = negb (Prisma.conv_isGroup x)
                 && existsb (String.eqb u) (Prisma.conv_participants x)) as Hd.
  { intros x. unfold Message.is_direct.
    destruct (negb _), (existsb _ _); done. }
  destruct (List.find (Message.is_direct u u)
              (Prisma.conversations (Handler.db w))) as [c'|] eqn:Hf.
  - exists c'. split.
    + rewrite <- Hf. symmetry. by apply find_ext.
    + unfold Handler.start_direct, Message.getOrCreateDirectConversation.
      rewrite Hu, Ht, Hf. by destruct w.
  - exfalso. apply list_elem_of_In in Hin.
    pose proof (find_none _ _ Hf c Hin) as Hc. rewrite Hd, Hg in Hc.
    simpl in Hc. apply existsb_eqb_elem in Hp. congruence.
Qed.

Lemma X12_witness :
  ∃ c',
    List.find (λ x, negb (Prisma.conv_isGroup x)
                    && existsb (String.eqb "u1") (Prisma.conv_participants x))
              (Prisma.conversations Samples.store0) = Some c'
    ∧ Handler.start_direct "u1" Samples.alice_socket Samples.world0
      = {| Handler.r_socket := Samples.alice_socket;
           Handler.r_world := Samples.world0;
           Handler.r_emitted :=
             [Handler.ToSelf (Handler.conversation_started (Prisma.conv_id c'))];
           Handler.r_outcome := Handler.Returned |}.
Proof.
  apply (X12_start_direct_with_oneself Samples.alice_socket Samples.world0 "u1"
           {| Prisma.conv_id := "conv-0"; Prisma.conv_isGroup := false;
              Prisma.conv_participants := ["u1"; "u2"] |}).
  - reflexivity.
  - reflexivity.
  - simpl. by left.
  - reflexivity.
  - simpl. by left.
Defined.

Section ProcessRun.
Import Js Handler.

(** A run of the process is [receive_all] on the events that come before
    the first rejected handler. *)
Lemma run_receive_all_prefix evs : ∀ s,
  ∃ k, run evs s = receive_all (take k evs) s.
Proof.
  induction evs as [|[[id ev] now] evs IH]; intros s.
  - by exists 0.
  - cbn [run]. destruct (running s).
    + destruct (IH (receive id ev now s)) as [k Hk]. by exists (S k).
    + by exists 0.
Qed.

Lemma run_stopped evs s : running s = false → run evs s = s.
Proof.
  intros Hs. destruct evs as [|[[id ev] now] evs]; cbn [run]; by rewrite ?Hs.
Qed.

End ProcessRun.

(** X13.  [authenticate] assigns the claimed identity to the socket
    before the user row is updated.  For a user id without a row the
    update throws: nobody is marked online, nothing is published and no
    snapshot is sent, while the socket is left bound to the claimed
    identity.  The handler's promise is rejected and nobody handles the
    rejection, which ends the process: whatever events arrive afterwards,
    on any connection, none of them is handled. *)
Theorem X13_authenticate_binds_before_it_checks
    (s : Handler.server) (id : string) (sk : Handler.socket) (u n : string)
    (now : Z) (evs : list (string * Handler.inbound * Z)) :
  Handler.connections s !! id = Some sk →
  Handler.running s = true →
  Prisma.users (Handler.db (Handler.shared s)) !! u = None →
  let s' := Handler.receive id (Handler.Authenticate u n) now s in
  Handler.shared s' = Handler.shared s
  ∧ Handler.emitted s' = Handler.emitted s
  ∧ Handler.connections s' !! id
    = Some {| Handler.socket_id := Handler.socket_id sk;
              Handler.userId := Some u;
              Handler.username := Some n;
              Handler.rooms := Handler.rooms sk |}
  ∧ Handler.rejections s' = [(id, Prisma.recordNotFound)]
  ∧ Handler.running s' = false
  ∧ Handler.run ((id, Handler.Authenticate u n, now) :: evs) s = s'.
Proof.
  intros Hsk Hrun Hnone. cbv zeta.
  assert (Handler.rejections s = []) as Hrej.
  { unfold Handler.running in Hrun. by destruct (Handler.rejections s). }
  assert (Handler.rejections
            (Handler.receive id (Handler.Authenticate u n) now s)
          = [(id, Prisma.recordNotFound)]) as Hrej'.
  { unfold Handler.receive. rewrite Hsk.
    cbn [Handler.handle Handler.rejections].
    unfold Handler.authenticate, Prisma.user_update. rewrite Hnone.
    cbn [Handler.r_outcome]. by rewrite Hrej. }
  assert (Handler.running
            (Handler.receive id (Handler.Authenticate u n) now s) = false)
    as Hstopped by (unfold Handler.running; by rewrite Hrej').
  repeat split.
  - unfold Handler.receive. rewrite Hsk.
    cbn [Handler.handle Handler.shared].
    unfold Handler.authenticate, Prisma.user_update. by rewrite Hnone.
  - unfold Handler.receive. rewrite Hsk.
    cbn [Handler.handle Handler.emitted].
    unfold Handler.authenticate, Prisma.user_update. rewrite Hnone.
    cbn [Handler.r_emitted]. by rewrite fmap_nil, app_nil_r.
  - unfold Handler.receive. rewrite Hsk.
    cbn [Handler.handle Handler.connections].
    unfold Handler.authenticate, Prisma.user_update. rewrite Hnone.
    cbn [Handler.r_socket]. by rewrite lookup_insert_eq.
  - exact Hrej'.
  - exact Hstopped.
  - cbn [Handler.run]. rewrite Hrun. by apply run_stopped.
Qed.

Lemma X13_witness :
  Handler.run
    [("s7", Handler.Authenticate "ghost" "Mallory", 1%Z);
     ("a", Handler.Authenticate "u1" "Alice", 2%Z);
     ("a", Handler.SendMessage "conv-0" "hi", 3%Z)]
    (Handler.connect "s7" (Handler.connect "a" Samples.server0))
  = Handler.receive "s7" (Handler.Authenticate "ghost" "Mallory") 1
      (Handler.connect "s7" (Handler.connect "a" Samples.server0))
  ∧ Handler.shared
      (Handler.receive "s7" (Handler.Authenticate "ghost" "Mallory") 1
         (Handler.connect "s7" (Handler.connect "a" Samples.server0)))
    = Samples.world0.
Proof.
  destruct (X13_authenticate_binds_before_it_checks
              (Handler.connect "s7" (Handler.connect "a" Samples.server0))
              "s7" (Handler.fresh "s7") "ghost" "Mallory" 1
              [("a", Handler.Authenticate "u1" "Alice", 2%Z);
               ("a", Handler.SendMessage "conv-0" "hi", 3%Z)])
    as (Hshared & _ & _ & _ & _ & Hrun).
  - reflexivity.
  - reflexivity.
  - reflexivity.
  - split; [exact Hrun | exact Hshared].
Defined.

(** ** The dispatcher: nothing is lost *)

Section Accounting.
Import Js Ollama Monitor.
Variable env_model : option string.

Lemma processQueue_accounted d : accounted d → accounted (processQueue d).
Proof.
  unfold accounted, processQueue. intros Ha.
  destruct (requestQueue d) as [|r rest]; [done|].
  destruct (_ <? _)%Z; [|done]. simpl.
  by rewrite fmap_app, app_assoc, Ha.
Qed.

Lemma ids_without i (l : list request) :
  NoDup (rq_id <$> l) → i ∈ (rq_id <$> l) →
  i :: (rq_id <$> filter (λ r, rq_id r ≠ i) l) ≡ₚ rq_id <$> l.
Proof.
  induction l as [|r l IH]; intros Hnd Hin.
  - rewrite fmap_nil in Hin. by apply elem_of_nil in Hin.
  - rewrite fmap_cons in Hnd, Hin. apply NoDup_cons in Hnd as [Hnotin Hnd].
    rewrite filter_cons. destruct (decide (rq_id r ≠ i)) as [Hne|Heq].
    + rewrite !fmap_cons. rewrite Permutation_swap. f_equiv.
      apply IH; [done|].
      apply elem_of_cons in Hin as [->|Hin]; done.
    + assert (rq_id r = i) as Hri by (destruct (decide (rq_id r = i)); done).
      rewrite fmap_cons, Hri. f_equiv. subst i.
      clear IH Hin Hnd Heq. induction l as [|r' l IH]; [done|].
      rewrite fmap_cons in Hnotin.
      apply not_elem_of_cons in Hnotin as [Hne Hnotin].
      rewrite filter_cons, decide_True by done.
      rewrite !fmap_cons. f_equiv. by apply IH.
Qed.

Lemma released_accounted i o d :
  consistent d → i ∈ (rq_id <$> executing d) →
  accounted d → accounted (released i o d).
Proof.
  unfold accounted. intros Hcons Hin Ha. simpl.
  rewrite fmap_app, <- app_assoc. simpl. rewrite <- Ha. f_equiv.
  apply ids_without; [by apply consistent_NoDup | done].
Qed.

Lemma step_accounted d e d' :
  consistent d → accounted d → step env_model d e = Some d' → accounted d'.
Proof.
  intros Hcons Ha. destruct e as [u m model|i env]; simpl.
  - intros [= <-]. by apply processQueue_accounted.
  - intros Hr. apply resume_released in Hr as (o & Hin & ->).
    by apply processQueue_accounted, processQueue_accounted, released_accounted.
Qed.

Lemma run_accounted es : ∀ d d',
  consistent d → saturated d → accounted d →
  run env_model d es = Some d' → accounted d'.
Proof.
  induction es as [|e es IH]; simpl; intros d d' Hcons Hs Ha.
  - by intros [= <-].
  - destruct (step env_model d e) as [d1|] eqn:Hstep; [|done].
    destruct (step_invariant env_model d e d1 Hcons Hs Hstep) as [Hc1 Hs1].
    apply IH; [done | done |]. exact (step_accounted d e d1 Hcons Ha Hstep).
Qed.

End Accounting.

(** X14.  In every state the dispatcher can reach, the status that
    [getQueueStatus] reports adds up: the settled, the active and the
    queued requests are together the submissions made so far, between 0
    and [maxConcurrent] requests are active, some are queued only when
    that many are active, and no request has been settled twice. *)
Theorem X14_queue_status_accounts_for_every_submission
    (env_model : option string) (es : list Ollama.event) (d : Ollama.dispatcher) :
  Ollama.run env_model Ollama.init es = Some d →
  let status := Monitor.getQueueStatus d in
  (Z.of_nat (length (Ollama.settled d)) + Monitor.qs_activeRequests status
   + Z.of_nat (Monitor.qs_queuedRequests status)
   = Z.of_nat (Ollama.submissions d))%Z
  ∧ (0 <= Monitor.qs_activeRequests status <= Monitor.qs_maxConcurrent status)%Z
  ∧ (0 < Monitor.qs_queuedRequests status →
     Monitor.qs_activeRequests status = Monitor.qs_maxConcurrent status)
  ∧ NoDup (fst <$> Ollama.settled d)
  ∧ (∀ i, i ∈ (fst <$> Ollama.settled d) →
          i < Ollama.submissions d
          ∧ (i ∉ (Ollama.rq_id <$> Ollama.executing d))
          ∧ (i ∉ (Ollama.rq_id <$> Ollama.requestQueue d))).
Proof.
  intros Hrun.
  destruct (reachable_invariant env_model es d Hrun) as [Hcons Hsat].
  assert (Monitor.accounted d) as Ha.
  { apply (run_accounted env_model es Ollama.init d);
      [apply consistent_init | apply saturated_init | | exact Hrun].
    unfold Monitor.accounted. simpl. done. }
  unfold Monitor.accounted in Ha.
  pose proof Hcons as [Hc Hb Hf He].
  pose proof (NoDup_seq 0 (Ollama.submissions d)) as Hnd.
  rewrite <- Hf in Hnd.
  pose proof Hnd as Hnd'. apply NoDup_app in Hnd' as (Hnds & Hdisj & _).
  rewrite <- Ha in Hnds. pose proof Hnds as Hnds'.
  apply NoDup_app in Hnds' as (Hndset & Hdisj2 & _).
  simpl. repeat split.
  - pose proof (f_equal length Hf) as Hlen.
    rewrite length_app, length_seq, length_fmap in Hlen.
    pose proof (Permutation_length Ha) as Hlen2.
    rewrite length_app, !length_fmap in Hlen2. lia.
  - lia.
  - done.
  - intros Hq. apply Hsat. destruct (Ollama.requestQueue d); simpl in *; [lia|done].
  - done.
  - assert (i ∈ seq 0 (Ollama.submissions d)) as Hi.
    { rewrite <- Hf. apply elem_of_app. left. rewrite <- Ha.
      apply elem_of_app. by left. }
    apply elem_of_seq in Hi. lia.
  - by apply Hdisj2.
  - apply Hdisj. rewrite <- Ha. apply elem_of_app. by left.
Qed.

Lemma X14_witness :
  ∃ d,
    Ollama.run None Ollama.init Samples.seven_then_one = Some d
    ∧ Monitor.getQueueStatus d
      = {| Monitor.qs_activeRequests := 5; Monitor.qs_queuedRequests := 1;
           Monitor.qs_maxConcurrent := 5 |}
    ∧ (Z.of_nat (length (Ollama.settled d)) + 5 + 1
       = Z.of_nat (Ollama.submissions d))%Z.
Proof.
  destruct (Ollama.run None Ollama.init Samples.seven_then_one) as [d|] eqn:Hrun;
    [|by vm_compute in Hrun].
  exists d.
  destruct (X14_queue_status_accounts_for_every_submission None
              Samples.seven_then_one d Hrun) as (Hsum & _).
  assert (Monitor.getQueueStatus d
          = {| Monitor.qs_activeRequests := 5; Monitor.qs_queuedRequests := 1;
               Monitor.qs_maxConcurrent := 5 |}) as Hst.
  { vm_compute in Hrun. by injection Hrun as <-. }
  split; [done|]. split; [done|].
  rewrite Hst in Hsum. exact Hsum.
Defined.

(** ** One execution of a request *)

Section Execution.
Import Js Ollama Monitor.

Lemma tryFetch_effects env it u model msgs :
  ∃ rest,
    snd (tryFetch env it u model msgs) = FetchChat model msgs :: rest
    ∧ (rest = []
       ∨ ∃ content,
           backend_reply env = Some content
           ∧ rest = [SaveBotMessage u Assistant content model
                       (if Context.isDataQuery it
                        then Some (Context.queryType it, Context.keywords it)
                        else None)])
    ∧ match backend_reply env, env_saveAssistantMessage env with
      | Some content, Ok _ => fst (tryFetch env it u model msgs) = Ok content
      | Some _, Throw e => fst (tryFetch env it u model msgs) = Throw e
      | None, _ => ∃ e, fst (tryFetch env it u model msgs) = Throw e
      end.
Proof.
  unfold tryFetch, backend_reply. cbv zeta.
  destruct (env_fetch env) as [resp|e].
  2: { exists []. split; [done|]. split; [by left | by eexists]. }
  destruct (resp_ok resp); cbn [negb].
  2: { exists []. split; [done|]. split; [by left | by eexists]. }
  destruct (resp_json resp) as [data|e].
  2: { exists []. split; [done|]. split; [by left | by eexists]. }
  destruct (env_saveAssistantMessage env) as [[]|e]; cbn [fst snd app].
  - eexists. split; [reflexivity|]. split; [right; by eexists|done].
  - eexists. split; [reflexivity|]. split; [right; by eexists|done].
Qed.

End Execution.

(** X15.  An execution is rejected exactly when one of the store calls
    that precede the backend call throws; then the backend is not called
    and nothing is stored for the assistant.  In every other case the
    promise is resolved and the backend has been called. *)
Theorem X15_rejected_only_before_the_backend_call
    (env : Ollama.exec_env) (userId userMessage model : string) :
  let run := Ollama.executeOllamaRequest env userId userMessage model in
  (Ollama.reaches_fetch env userMessage = false
   ↔ ∃ e, fst run = Js.Rejected e)
  ∧ (Ollama.reaches_fetch env userMessage = true
     ↔ ∃ reply, fst run = Js.Resolved reply)
  ∧ existsb Monitor.is_fetch (snd run) = Ollama.reaches_fetch env userMessage
  ∧ (Ollama.reaches_fetch env userMessage = false →
     existsb Monitor.is_assistant_save (snd run) = false
     ∧ length (snd run) ≤ 1).
Proof.
  cbv zeta. unfold Ollama.reaches_fetch, Ollama.executeOllamaRequest.
  cbv zeta.
  generalize (Context.analyzeQueryIntent userMessage). intros it.
  destruct (if Context.isDataQuery it then _ else _) as [ctx|e].
  2: { cbn [fst snd existsb length]. repeat split; try done; try lia;
       try (by eexists); by intros [? ?]. }
  destruct (Ollama.env_getBotChatHistory env) as [h|e].
  2: { cbn [fst snd existsb length]. repeat split; try done; try lia;
       try (by eexists); by intros [? ?]. }
  destruct (Ollama.env_saveUserMessage env) as [[]|e].
  2: { cbn [fst snd existsb length Monitor.is_fetch Monitor.is_assistant_save
            orb].
       repeat split; try done; try lia; try (by eexists); by intros [? ?]. }
  match goal with
  | |- context [Ollama.tryFetch ?a ?b ?c ?d ?m] =>
      destruct (tryFetch_effects a b c d m) as (rest & Heff & _);
      destruct (Ollama.tryFetch a b c d m) as [[reply|e] effs]
  end; cbn [fst snd] in *; subst effs;
    cbn [existsb Monitor.is_fetch orb];
    repeat split; try done; try (by eexists); by intros [? ?].
Qed.

(** X16.  When the store calls before it succeed, an execution stores
    the user's message, then calls the backend once with the system
    prompt first, the stored history as it is, and the user's message
    last.  The assistant's turn is stored only when the backend answered
    with a body, and then it is the backend's text: an apology is never
    stored.  The promise carries the backend's text only if that text
    was stored too; otherwise it carries an apology. *)
Theorem X16_what_an_execution_stores_and_sends
    (env : Ollama.exec_env) (userId userMessage model : string)
    (history : list Ollama.ChatMessage) :
  Ollama.reaches_fetch env userMessage = true →
  Ollama.env_getBotChatHistory env = Js.Ok history →
  let run := Ollama.executeOllamaRequest env userId userMessage model in
  ∃ prompt rest,
    snd run
    = Ollama.SaveBotMessage userId Ollama.User userMessage model None
      :: Ollama.FetchChat model
           ({| Ollama.cm_role := Ollama.System; Ollama.cm_content := prompt |}
            :: history
            ++ [{| Ollama.cm_role := Ollama.User;
                   Ollama.cm_content := userMessage |}])
      :: rest
    ∧ (rest = []
       ∨ ∃ content context,
           Monitor.backend_reply env = Some content
           ∧ rest = [Ollama.SaveBotMessage userId Ollama.Assistant content
                       model context])
    ∧ (match Monitor.backend_reply env, Ollama.env_saveAssistantMessage env with
       | Some content, Js.Ok _ => fst run = Js.Resolved content
       | Some _, Js.Throw e => fst run = Js.Resolved (Ollama.apology e)
       | None, _ => ∃ e, fst run = Js.Resolved (Ollama.apology e)
       end).
Proof.
  intros Hreach Hhist. cbv zeta.
  unfold Ollama.reaches_fetch in Hreach. unfold Ollama.executeOllamaRequest.
  cbv zeta. revert Hreach.
  generalize (Context.analyzeQueryIntent userMessage). intros it Hreach.
  destruct (if Context.isDataQuery it then _ else _) as [ctx|e]; [|done].
  rewrite Hhist in *.
  destruct (Ollama.env_saveUserMessage env) as [[]|e]; [|done].
  exists (Ollama.systemPrompt it ctx).
  match goal with
  | |- context [Ollama.tryFetch ?a ?b ?c ?d ?m] =>
      destruct (tryFetch_effects a b c d m) as (rest & Heff & Hrest & Hres);
      destruct (Ollama.tryFetch a b c d m) as [[reply|e] effs]
  end; cbn [fst snd] in *; subst effs; exists rest.
  - split; [reflexivity|]. split.
    + destruct Hrest as [->|(content & Hb & ->)];
        [by left|right; by eexists _, _].
    + destruct (Monitor.backend_reply env) as [content|].
      * destruct (Ollama.env_saveAssistantMessage env) as [[]|e];
          [congruence|done].
      * by destruct Hres.
  - split; [reflexivity|]. split.
    + destruct Hrest as [->|(content & Hb & ->)];
        [by left|right; by eexists _, _].
    + destruct (Monitor.backend_reply env) as [content|].
      * destruct (Ollama.env_saveAssistantMessage env) as [[]|e0];
          [done|congruence].
      * destruct Hres as [e0 He0]. exists e0. congruence.
Qed.

Lemma X16_witness :
  ∃ prompt rest,
    snd (Ollama.executeOllamaRequest Samples.backend_down "u1" "hello" "gemma3:1b")
    = Ollama.SaveBotMessage "u1" Ollama.User "hello" "gemma3:1b" None
      :: Ollama.FetchChat "gemma3:1b"
           ({| Ollama.cm_role := Ollama.System; Ollama.cm_content := prompt |}
            :: []
            ++ [{| Ollama.cm_role := Ollama.User; Ollama.cm_content := "hello" |}])
      :: rest.
Proof.
  destruct (X16_what_an_execution_stores_and_sends Samples.backend_down
              "u1" "hello" "gemma3:1b" []) as (prompt & rest & Heff & _).
  - reflexivity.
  - reflexivity.
  - by exists prompt, rest.
Defined.

(** ** The intent of a query *)

Section Intent.
Import Js Context.




Lemma existsb_filter_nil {A} (p : A → bool) (l : list A) :
  existsb p l = false ↔ List.filter p l = [].
Proof.
  induction l as [|x l IH]; simpl; [done|].
  destruct (p x); simpl; [split; discriminate | exact IH].
Qed.

Lemma existsb_elem {A} (p : A → bool) (l : list A) x :
  x ∈ l → p x = true → existsb p l = true.
Proof.
  intros Hin Hp. apply existsb_exists. exists x.
  split; [by apply list_elem_of_In | done].
Qed.

Lemma keywords_elem query kw :
  kw ∈ keywords (analyzeQueryIntent query)
  ↔ kw ∈ projectKeywords ++ taskKeywords ++ profileKeywords
    ∧ includes (toLowerCase query) kw = true.
Proof.
  unfold analyzeQueryIntent. cbv zeta. cbn [keywords].
  rewrite !list_elem_of_In. apply filter_In.
Qed.

End Intent.



(** X18.  The keywords that [analyzeQueryIntent] reports are the words
    of its vocabulary that occur in the lower-cased query.  The query
    type is general exactly when there is none; a query that is no data
    query is general and reports none; and a task query reports no
    project keyword. *)
Theorem X18_general_means_no_keyword (query : string) :
  let it := Context.analyzeQueryIntent query in
  (Context.queryType it = Context.General ↔ Context.keywords it = [])
  ∧ (Context.isDataQuery it = false →
     Context.queryType it = Context.General ∧ Context.keywords it = [])
  ∧ (Context.queryType it = Context.Task →
     ∀ kw, kw ∈ Context.projectKeywords → kw ∉ Context.keywords it)
  ∧ (∀ kw, kw ∈ Context.keywords it ↔
           kw ∈ Context.projectKeywords ++ Context.taskKeywords
                ++ Context.profileKeywords
           ∧ Js.includes (Js.toLowerCase query) kw = true).
Proof.
  intros it.
  assert (Context.keywords it = []
          ↔ existsb (Js.includes (Js.toLowerCase query)) Context.projectKeywords
            = false
            ∧ existsb (Js.includes (Js.toLowerCase query)) Context.taskKeywords
              = false
            ∧ existsb (Js.includes (Js.toLowerCase query)) Context.profileKeywords
              = false) as Hnil.
  { subst it. unfold Context.analyzeQueryIntent. cbv zeta. cbn [Context.keywords].
    rewrite <- existsb_filter_nil, !existsb_app, !orb_false_iff. tauto. }
  split; [|split; [|split]].
  - rewrite Hnil. subst it. unfold Context.analyzeQueryIntent.
    cbv zeta. cbn [Context.queryType].
    destruct (existsb _ Context.projectKeywords),
             (existsb _ Context.taskKeywords),
             (existsb _ Context.profileKeywords); split; try done;
      intros (? & ? & ?); done.
  - intros Hno. rewrite Hnil. revert Hno. subst it.
    unfold Context.analyzeQueryIntent.
    cbv zeta. cbn [Context.isDataQuery Context.queryType].
    destruct (existsb _ Context.projectKeywords),
             (existsb _ Context.taskKeywords),
             (existsb _ Context.profileKeywords); cbn [orb]; done.
  - intros Htask kw Hkw Hin. apply keywords_elem in Hin as [_ Hinc].
    revert Htask. subst it. unfold Context.analyzeQueryIntent.
    cbv zeta. cbn [Context.queryType].
    rewrite (existsb_elem _ _ kw Hkw Hinc). done.
  - intros kw. apply keywords_elem.
Qed.

(** ** The stored exchange with the assistant *)

Section BotHistory.
Import Js BotChat.

Lemma bot_insert_oldest r l :
  Forall (λ r', (bc_createdAt r < bc_createdAt r')%Z) l →
  insert_desc r l = l ++ [r].
Proof.
  induction 1 as [|r' l Hlt _ IH]; simpl; [done|].
  destruct (Z.ltb_spec (bc_createdAt r) (bc_createdAt r')); [|lia].
  by rewrite IH.
Qed.

Lemma bot_orderBy_increasing l :
  increasing (bc_createdAt <$> l) = true →
  orderBy_createdAt_desc l = reverse l.
Proof.
  induction l as [|r l IH]; [done|].
  cbn [fmap list_fmap increasing]. intros H.
  apply andb_true_iff in H as [Hall Hinc].
  unfold orderBy_createdAt_desc in *. cbn [foldr].
  rewrite (IH Hinc), reverse_cons. apply bot_insert_oldest.
  apply Forall_reverse, Forall_forall. intros r' Hr'.
  rewrite forallb_forall in Hall. apply Z.ltb_lt, Hall.
  apply list_elem_of_In. by apply (list_elem_of_fmap_2 bc_createdAt).
Qed.

Lemma bot_history_increasing u limit table rows :
  filter (λ r, bc_userId r = u) table = rows →
  increasing (bc_createdAt <$> rows) = true →
  getBotChatHistory u limit table = turn <$> drop (length rows - limit) rows.
Proof.
  intros Hrows Hinc. unfold getBotChatHistory.
  rewrite Hrows, (bot_orderBy_increasing rows Hinc).
  by rewrite reverse_take, reverse_involutive, length_reverse.
Qed.

Lemma increasing_snoc ts t :
  increasing ts = true → Forall (λ x, (x < t)%Z) ts →
  increasing (ts ++ [t]) = true.
Proof.
  induction ts as [|x ts IH]; simpl; [done|]. intros H Hall.
  apply andb_true_iff in H as [Hx Hinc].
  apply Forall_cons in Hall as [Hxt Hall].
  rewrite forallb_app, Hx, (IH Hinc Hall). simpl.
  by rewrite (proj2 (Z.ltb_lt x t) Hxt).
Qed.

Lemma filter_other_user u v (table : list row) :
  v ≠ u →
  filter (λ r, bc_userId r = v) (filter (λ r, bc_userId r ≠ u) table)
  = filter (λ r, bc_userId r = v) table.
Proof.
  intros Hne. induction table as [|r table IH]; [done|].
  rewrite (filter_cons (λ r, bc_userId r ≠ u)).
  destruct (decide (bc_userId r ≠ u)) as [Hr|Hr].
  - rewrite !filter_cons, IH. done.
  - rewrite IH, filter_cons_False; [done|].
    intros Hv. apply Hr. congruence.
Qed.

Lemma filter_same_user u (table : list row) :
  filter (λ r, bc_userId r = u) (filter (λ r, bc_userId r ≠ u) table) = [].
Proof.
  induction table as [|r table IH]; [done|].
  rewrite (filter_cons (λ r, bc_userId r ≠ u)).
  destruct (decide (bc_userId r ≠ u)) as [Hr|Hr]; [|done].
  by rewrite filter_cons_False.
Qed.

Lemma filter_other_twice u (table : list row) :
  filter (λ r, bc_userId r ≠ u) (filter (λ r, bc_userId r ≠ u) table)
  = filter (λ r, bc_userId r ≠ u) table.
Proof.
  induction table as [|r table IH]; [done|].
  rewrite (filter_cons (λ r, bc_userId r ≠ u)).
  destruct (decide (bc_userId r ≠ u)) as [Hr|Hr]; [|done].
  by rewrite filter_cons_True, IH.
Qed.

Lemma length_filter_split u (table : list row) :
  length (filter (λ r, bc_userId r = u) table)
  + length (filter (λ r, bc_userId r ≠ u) table) = length table.
Proof.
  induction table as [|r table IH]; [done|].
  rewrite !filter_cons.
  destruct (decide (bc_userId r = u)), (decide (bc_userId r ≠ u));
    simpl; try lia; done.
Qed.

End BotHistory.

(** X19.  [clearBotChatHistory] for a user deletes that user's rows and
    no others: afterwards the user's history is empty, every other
    user's history is what it was, the table is shorter by the count
    returned, and clearing again deletes nothing. *)
Theorem X19_clearing_one_user_leaves_the_others
    (userId other : string) (limit : nat) (table : list BotChat.row) :
  let cleared := BotChat.clearBotChatHistory userId table in
  BotChat.getBotChatHistory userId limit (snd cleared) = []
  ∧ (other ≠ userId →
     BotChat.getBotChatHistory other limit (snd cleared)
     = BotChat.getBotChatHistory other limit table)
  ∧ fst cleared + length (snd cleared) = length table
  ∧ BotChat.clearBotChatHistory userId (snd cleared) = (0, snd cleared).
Proof.
  simpl. repeat split.
  - unfold BotChat.getBotChatHistory. rewrite filter_same_user.
    unfold BotChat.orderBy_createdAt_desc. cbn [foldr].
    by rewrite take_nil.
  - intros Hne. unfold BotChat.getBotChatHistory.
    by rewrite filter_other_user.
  - apply length_filter_split.
  - unfold BotChat.clearBotChatHistory. rewrite filter_same_user. simpl.
    f_equal. apply filter_other_twice.
Qed.

(** X20.  When a user's turns were stored at increasing instants,
    [getBotChatHistory] returns the last [limit] of them, oldest first,
    with their roles and contents; and a turn saved after all of them
    for that user is the last one of the history read next, whatever
    other users have stored. *)
Theorem X20_bot_history_is_the_latest_turns
    (env_model : option string) (userId : string) (limit : nat)
    (table rows : list BotChat.row)
    (role : Ollama.role) (content : string) (model context : option string)
    (now : Z) :
  filter (λ r, BotChat.bc_userId r = userId) table = rows →
  BotChat.increasing (BotChat.bc_createdAt <$> rows) = true →
  Forall (λ r, (BotChat.bc_createdAt r < now)%Z) rows →
  BotChat.getBotChatHistory userId limit table
  = BotChat.turn <$> drop (length rows - limit) rows
  ∧ length (BotChat.getBotChatHistory userId limit table) ≤ limit
  ∧ (0 < limit →
     last (BotChat.getBotChatHistory userId limit
             (BotChat.saveBotMessage env_model userId role content model
                context now table))
     = Some {| Ollama.cm_role := role; Ollama.cm_content := content |}).
Proof.
  intros Hrows Hinc Hnow.
  rewrite (bot_history_increasing userId limit table rows Hrows Hinc).
  split; [done|]. split.
  - rewrite length_fmap, length_drop. lia.
  - intros Hlimit. unfold BotChat.saveBotMessage.
    erewrite bot_history_increasing.
    2: { rewrite filter_app, Hrows, filter_cons_True by done.
         rewrite filter_nil. reflexivity. }
    2: { rewrite fmap_app. apply increasing_snoc; [done|].
         apply Forall_fmap. eapply Forall_impl; [exact Hnow|]. done. }
    rewrite length_app. simpl.
    rewrite drop_app_le by lia. rewrite fmap_app. apply last_snoc.
Qed.

Lemma X20_witness :
  BotChat.getBotChatHistory "u1" 6
    (BotChat.saveBotMessage None "u1" Ollama.Assistant "hello Alice" None None 2
       (BotChat.saveBotMessage None "u1" Ollama.User "hello" None None 1 []))
  = [{| Ollama.cm_role := Ollama.User; Ollama.cm_content := "hello" |};
     {| Ollama.cm_role := Ollama.Assistant;
        Ollama.cm_content := "hello Alice" |}].
Proof.
  destruct (X20_bot_history_is_the_latest_turns None "u1" 6
              (BotChat.saveBotMessage None "u1" Ollama.Assistant "hello Alice"
                 None None 2
                 (BotChat.saveBotMessage None "u1" Ollama.User "hello"
                    None None 1 []))
              (BotChat.saveBotMessage None "u1" Ollama.Assistant "hello Alice"
                 None None 2
                 (BotChat.saveBotMessage None "u1" Ollama.User "hello"
                    None None 1 []))
              Ollama.User "again" None None 3) as [Hhist _].
  - reflexivity.
  - reflexivity.
  - repeat constructor; simpl; lia.
  - rewrite Hhist. reflexivity.
Defined.

(** ** Project statistics *)

Section Statistics.
Import Stats.

Lemma statuses_partition (l : list Task) :
  with_status "pending" l + with_status "in_progress" l
  + with_status "completed" l ≤ length l
  ∧ (forallb known_status l = true →
     with_status "pending" l + with_status "in_progress" l
     + with_status "completed" l = length l).
Proof.
  unfold with_status. induction l as [|t l [IHle IHeq]]; [done|].
  rewrite !filter_cons. cbn [forallb length]. unfold known_status at 1.
  destruct (decide (task_status t = "pending")) as [E1|E1];
  destruct (decide (task_status t = "in_progress")) as [E2|E2];
  destruct (decide (task_status t = "completed")) as [E3|E3];
    try (rewrite E1 in E2; discriminate);
    try (rewrite E1 in E3; discriminate);
    try (rewrite E2 in E3; discriminate);
    cbn [length]; (split; [lia|]); intros H;
    apply andb_true_iff in H as [Hk Hl]; try (specialize (IHeq Hl); lia).
  exfalso.
  apply orb_true_iff in Hk as [Hk|Hk];
    [apply orb_true_iff in Hk as [Hk|Hk]|];
    apply String.eqb_eq in Hk; congruence.
Qed.

Lemma sum_list_cons (x : nat) (l : list nat) :
  sum_list (x :: l) = x + sum_list l.
Proof. reflexivity. Qed.

Lemma fold_add_tasks (projects : list Project) (st : stats) :
  let st' := foldl add_tasks st projects in
  totalProjects st' = totalProjects st
  ∧ activeProjects st' = activeProjects st
  ∧ completedProjects st' = completedProjects st
  ∧ totalTasks st'
    = totalTasks st + sum_list (length ∘ project_tasks <$> projects)
  ∧ pendingTasks st'
    = pendingTasks st
      + sum_list (with_status "pending" ∘ project_tasks <$> projects)
  ∧ inProgressTasks st'
    = inProgressTasks st
      + sum_list (with_status "in_progress" ∘ project_tasks <$> projects)
  ∧ completedTasks st'
    = completedTasks st
      + sum_list (with_status "completed" ∘ project_tasks <$> projects).
Proof.
  revert st. induction projects as [|p projects IH]; intros st.
  - simpl. repeat split; lia.
  - cbn [foldl]. destruct (IH (add_tasks st p)) as (H1&H2&H3&H4&H5&H6&H7).
    cbn zeta. rewrite H1, H2, H3, H4, H5, H6, H7.
    rewrite !fmap_cons, !sum_list_cons.
    cbn [add_tasks totalProjects activeProjects completedProjects totalTasks
         pendingTasks inProgressTasks completedTasks compose].
    repeat split; lia.
Qed.

Lemma sums_partition (projects : list Project) :
  sum_list (with_status "pending" ∘ project_tasks <$> projects)
  + sum_list (with_status "in_progress" ∘ project_tasks <$> projects)
  + sum_list (with_status "completed" ∘ project_tasks <$> projects)
  ≤ sum_list (length ∘ project_tasks <$> projects)
  ∧ (forallb (λ p, forallb known_status (project_tasks p)) projects = true →
     sum_list (with_status "pending" ∘ project_tasks <$> projects)
     + sum_list (with_status "in_progress" ∘ project_tasks <$> projects)
     + sum_list (with_status "completed" ∘ project_tasks <$> projects)
     = sum_list (length ∘ project_tasks <$> projects)).
Proof.
  induction projects as [|p projects [IHle IHeq]]; [done|].
  rewrite !fmap_cons, !sum_list_cons. cbn [compose forallb].
  destruct (statuses_partition (project_tasks p)) as [Hle Heq].
  split; [lia|]. intros H. apply andb_true_iff in H as [Hp Hl].
  specialize (Heq Hp). specialize (IHeq Hl). lia.
Qed.

Lemma projects_partition (projects : list Project) :
  length (filter (λ p, project_status p = "active") projects)
  + length (filter (λ p, project_status p = "completed") projects)
  ≤ length projects.
Proof.
  induction projects as [|p projects IH]; [done|].
  rewrite !filter_cons.
  destruct (decide (project_status p = "active")) as [E1|E1];
  destruct (decide (project_status p = "completed")) as [E2|E2];
    try (rewrite E1 in E2; discriminate); cbn [length]; lia.
Qed.

Lemma fold_progress (projects : list Project) (a : Z) :
  foldl (λ sum p, sum + project_progress p)%Z a projects
  = (a + foldr Z.add 0 (project_progress <$> projects))%Z.
Proof.
  revert a. induction projects as [|p projects IH]; intros a.
  - simpl. lia.
  - cbn [foldl]. rewrite IH, fmap_cons. cbn [foldr]. lia.
Qed.

Lemma progress_bounds (projects : list Project) (lo hi : Z) :
  Forall (λ p, (lo ≤ project_progress p ≤ hi)%Z) projects →
  (Z.of_nat (length projects) * lo
   ≤ foldr Z.add 0 (project_progress <$> projects)
   ≤ Z.of_nat (length projects) * hi)%Z.
Proof.
  induction 1 as [|p projects Hp _ IH]; [simpl; lia|].
  rewrite fmap_cons. cbn [foldr length]. lia.
Qed.

Lemma round_div_spec (sum n : Z) :
  (0 < n)%Z →
  (2 * sum - n < 2 * n * round_div sum n ≤ 2 * sum + n)%Z.
Proof.
  intros Hn. unfold round_div.
  pose proof (Z.div_mod (2 * sum + n) (2 * n) ltac:(lia)) as Hdm.
  pose proof (Z.mod_pos_bound (2 * sum + n) (2 * n) ltac:(lia)) as Hm.
  lia.
Qed.

End Statistics.

(** X21.  The counters of [getProjectStats] are consistent with each
    other: [totalProjects] is the number of projects, the active and the
    completed projects are disjoint parts of them, [totalTasks] is the
    number of tasks over all projects, and the three task counters never
    add up to more than [totalTasks]; they add up to exactly
    [totalTasks] when every task has one of the three statuses the
    function counts, so a task with any other status is counted in the
    total only. *)
Theorem X21_project_counters_are_consistent (projects : list Stats.Project) :
  let st := Stats.getProjectStats projects in
  Stats.totalProjects st = length projects
  ∧ Stats.activeProjects st + Stats.completedProjects st
    ≤ Stats.totalProjects st
  ∧ Stats.totalTasks st
    = sum_list (length ∘ Stats.project_tasks <$> projects)
  ∧ Stats.pendingTasks st + Stats.inProgressTasks st + Stats.completedTasks st
    ≤ Stats.totalTasks st
  ∧ (forallb (λ p, forallb Stats.known_status (Stats.project_tasks p))
       projects = true →
     Stats.pendingTasks st + Stats.inProgressTasks st
     + Stats.completedTasks st = Stats.totalTasks st).
Proof.
  cbn zeta. unfold Stats.getProjectStats.
  match goal with |- context [foldl Stats.add_tasks ?st0 projects] =>
    destruct (fold_add_tasks projects st0) as (H1&H2&H3&H4&H5&H6&H7)
  end.
  cbn zeta in *.
  cbn [Stats.totalProjects Stats.activeProjects Stats.completedProjects
       Stats.totalTasks Stats.pendingTasks Stats.inProgressTasks
       Stats.completedTasks] in *.
  rewrite H1, H2, H3, H4, H5, H6, H7.
  destruct (sums_partition projects) as [Hle Heq].
  pose proof (projects_partition projects).
  repeat split; try lia. intros Hk. specialize (Heq Hk). lia.
Qed.

(** X22.  [averageProgress] is 0 when the user has no project (the
    division is not evaluated); otherwise it is the mean of the
    projects' progress values rounded to the nearest integer, so it lies
    within one half of the mean and inside every range that holds all
    the progress values. *)
Theorem X22_average_progress_is_the_rounded_mean
    (projects : list Stats.Project) (lo hi : Z) :
  Forall (λ p, (lo ≤ Stats.project_progress p ≤ hi)%Z) projects →
  let avg := Stats.averageProgress (Stats.getProjectStats projects) in
  let n := Z.of_nat (length projects) in
  let sum := foldr Z.add 0%Z (Stats.project_progress <$> projects) in
  (projects = [] → avg = 0%Z)
  ∧ (projects ≠ [] →
     (lo ≤ avg ≤ hi)%Z ∧ (2 * sum - n < 2 * n * avg ≤ 2 * sum + n)%Z).
Proof.
  intros Hall. cbn zeta. split.
  - intros ->. reflexivity.
  - intros Hne. unfold Stats.getProjectStats.
    cbn [Stats.averageProgress].
    assert (0 < length projects) as Hlen
      by (destruct projects; [done|simpl; lia]).
    rewrite (proj2 (Nat.ltb_lt 0 (length projects)) Hlen).
    rewrite fold_progress, Z.add_0_l.
    pose proof (progress_bounds projects lo hi Hall) as Hb.
    pose proof (round_div_spec
      (foldr Z.add 0%Z (Stats.project_progress <$> projects))
      (Z.of_nat (length projects)) ltac:(lia)) as Hr.
    split; [|exact Hr]. nia.
Qed.

Lemma X22_witness :
  (0 ≤ Stats.averageProgress
         (Stats.getProjectStats
            [ {| Stats.project_status := "active";
                 Stats.project_progress := 65; Stats.project_tasks := [] |};
              {| Stats.project_status := "completed";
                 Stats.project_progress := 100;
                 Stats.project_tasks := [] |} ]) ≤ 100)%Z.
Proof.
  destruct (X22_average_progress_is_the_rounded_mean
    [ {| Stats.project_status := "active"; Stats.project_progress := 65;
         Stats.project_tasks := [] |};
      {| Stats.project_status := "completed";
         Stats.project_progress := 100; Stats.project_tasks := [] |} ]
    0%Z 100%Z) as [_ H].
  - repeat constructor; simpl; lia.
  - apply H. discriminate.
Defined.
